(** * PSChecker: the password-analysis engine of [server/routes/password-analysis.ts]

    A shallow embedding of [calculateEntropy], [calculateCrackTime],
    [analyzePassword], [checkPasswordBreach] and [handlePasswordAnalysis],
    followed by the properties the specification states about them.

    Modelling conventions.
    - A JavaScript string is a sequence of UTF-16 code units.  Passwords are
      modelled as [string], each [ascii] standing for one code unit in the
      range U+0000..U+00FF; [String.length] is then [password.length].  The
      regular expressions of the source only name ASCII characters and none
      carries the [u] flag, so they act on code units; [toLowerCase] is the
      one operation whose behaviour beyond U+00FF is not covered here.
    - JavaScript numbers that hold scores are integers far below 2^53 and are
      modelled as [Z].  Entropy and crack time are IEEE doubles in the source;
      they are modelled as [Double]: a real number where the double is
      finite, that is, with rounding error abstracted away, or one of [NaN]
      and the two infinities.  A decision procedure on integers is proved
      equal to the comparisons of the entropy that the scorer performs.
    - Exceptions, the breach cache, the clock, the network and the database
      are explicit: a small state-and-exception monad threads them through
      the breach checker and the handler; SHA-1, SHA-256 and number
      formatting are fields of the environment. *)

From Stdlib Require Import ZArith List String Ascii Bool Lia.
From Stdlib Require Import Reals Lra.
From Stdlib Require Import DecimalString.
Import ListNotations.

Local Open Scope string_scope.
Local Open Scope Z_scope.

(** ** Code units and character classes *)

Module Chars.

Definition code (c : ascii) : N := N_of_ascii c.

Definition in_range (lo hi : N) (c : ascii) : bool :=
  (lo <=? code c)%N && (code c <=? hi)%N.

(** [[a-z]] *)
Definition is_lower : ascii -> bool := in_range 97 122.
(** [[A-Z]] *)
Definition is_upper : ascii -> bool := in_range 65 90.
(** [\d], which in JavaScript is exactly [[0-9]] *)
Definition is_digit : ascii -> bool := in_range 48 57.

(** The twenty members of the special-character class of the source, in
    source order; the double quote between the question mark and the colon
    is code unit 34. *)
Definition special_chars : list ascii :=
  list_ascii_of_string "!@#$%^&*(),.?" ++ ["034"%char]
  ++ list_ascii_of_string ":{}|<>".

Definition is_special (c : ascii) : bool :=
  existsb (Ascii.eqb c) special_chars.

(** Line terminators, which the regular-expression atom [.] does not match
    (U+2028 and U+2029 lie outside the modelled range). *)
Definition is_line_terminator (c : ascii) : bool :=
  (code c =? 10)%N || (code c =? 13)%N.

(** The atom [.] without the [s] flag. *)
Definition dot (c : ascii) : bool := negb (is_line_terminator c).

Definition shift (c : ascii) (d : Z) : ascii :=
  ascii_of_N (Z.to_N (Z.of_N (code c) + d)).

(** [String.prototype.toLowerCase] on one code unit of U+0000..U+00FF:
    A-Z and the Latin-1 capitals U+00C0..U+00DE (the multiplication sign
    U+00D7 excepted) move up by 32, everything else is unchanged. *)
Definition to_lower (c : ascii) : ascii :=
  if is_upper c then shift c 32
  else if in_range 192 222 c && negb (code c =? 215)%N then shift c 32
  else c.

(** Upper-casing of the ASCII letters, used for [/i] matching and for the
    hexadecimal digest. *)
Definition ascii_upper (c : ascii) : ascii :=
  if is_lower c then shift c (-32) else c.

(** Case-insensitive comparison of a subject code unit with an ASCII pattern
    character.  The [Canonicalize] operation of the language never maps a
    non-ASCII code unit to an ASCII one, so comparing ASCII upper-casings is
    what the [i] flag does for patterns made of ASCII letters. *)
Definition eqb_ci (c pat : ascii) : bool :=
  Ascii.eqb (ascii_upper c) (ascii_upper pat).

End Chars.

(** ** The regular expressions of the source, as tests on strings *)

Module Regex.

(** [/[...]/.test(s)] for a one-character class. *)
Fixpoint test_class (cls : ascii -> bool) (s : string) : bool :=
  match s with
  | EmptyString => false
  | String c rest => cls c || test_class cls rest
  end.

(** Does [pat] match at the start of [s], comparing characters with [eq]? *)
Fixpoint matches_at (eq : ascii -> ascii -> bool) (pat s : string) : bool :=
  match pat, s with
  | EmptyString, _ => true
  | String _ _, EmptyString => false
  | String p pat', String c s' => eq c p && matches_at eq pat' s'
  end.

(** [/a1|a2|.../.test(s)] for literal alternatives: some start position at
    which some alternative matches. *)
Fixpoint test_alternatives (eq : ascii -> ascii -> bool)
    (alts : list string) (s : string) : bool :=
  existsb (fun pat => matches_at eq pat s) alts
  || match s with
     | EmptyString => false
     | String _ rest => test_alternatives eq alts rest
     end.

(** Does [(.)\1{2,}] match at the start of [s]?  The group captures one
    character that is not a line terminator, and the back-reference must
    then match at least twice. *)
Definition repeat_at (s : string) : bool :=
  match s with
  | String a (String b (String c _)) =>
      Chars.dot a && Ascii.eqb b a && Ascii.eqb c a
  | _ => false
  end.

(** [/(.)\1{2,}/.test(s)] *)
Fixpoint test_repeat (s : string) : bool :=
  repeat_at s
  || match s with
     | EmptyString => false
     | String _ rest => test_repeat rest
     end.

Definition re_lower : string -> bool := test_class Chars.is_lower.
Definition re_upper : string -> bool := test_class Chars.is_upper.
Definition re_digit : string -> bool := test_class Chars.is_digit.
Definition re_special : string -> bool := test_class Chars.is_special.

Definition digit_runs : list string :=
  ["012"; "123"; "234"; "345"; "456"; "567"; "678"; "789"; "890"].

Definition letter_runs : list string :=
  ["abc"; "bcd"; "cde"; "def"; "efg"; "fgh"; "ghi"; "hij"; "ijk"; "jkl";
   "klm"; "lmn"; "mno"; "nop"; "opq"; "pqr"; "qrs"; "rst"; "stu"; "tuv";
   "uvw"; "vwx"; "wxy"; "xyz"].

(** [/012|123|234|345|456|567|678|789|890/] *)
Definition re_sequential_numbers : string -> bool :=
  test_alternatives Ascii.eqb digit_runs.

(** [/abc|bcd|...|xyz/i] *)
Definition re_sequential_letters : string -> bool :=
  test_alternatives Chars.eqb_ci letter_runs.

End Regex.

(** ** Strings *)

Fixpoint toLowerCase (s : string) : string :=
  match s with
  | EmptyString => EmptyString
  | String c rest => String (Chars.to_lower c) (toLowerCase rest)
  end.

Definition includes (l : list string) (x : string) : bool :=
  existsb (String.eqb x) l.

Definition len (s : string) : Z := Z.of_nat (String.length s).

(** ** The denylist *)

Definition COMMON_PASSWORDS : list string :=
  ["password"; "123456"; "123456789"; "qwerty"; "abc123"; "password123";
   "admin"; "letmein"; "welcome"; "monkey"; "1234567890"; "dragon";
   "pass"; "master"; "hello"; "freedom"; "whatever"; "qazwsx";
   "trustno1"; "jordan"; "harley"; "robert"; "matthew"; "jordan23";
   "password1"; "000000"; "superman"; "jennifer"; "joshua"; "hunter";
   "baseball"; "michael"; "tigger"; "michelle"; "jordan"; "mustang";
   "liverpool"; "football"; "access"; "buster"; "soccer"; "hockey";
   "killer"; "george"; "computer"; "michelle"; "jessica"; "pepper";
   "prince"; "shadow"; "cheese"; "dakota"; "sunshine"; "iloveyou";
   "princess"; "hannah"; "red123"; "alexander"; "slayer"; "qwerty123";
   "ashley"; "thomas"; "helicopter"; "joshua"; "mustang"; "thunder"].

(** ** Numbers

    The numbers of the entropy and of the crack time.  A finite double is
    modelled by the real number it stands for, so rounding is left out; the
    values that are not finite are kept, and with them the two places where
    this program can produce one: [Math.log2] at zero and the overflow of
    [Math.pow].  Products and quotients of finite numbers are not checked
    for overflow: their operands here are a string length (below 2^53), a
    logarithm and the constants of the source, far from that range. *)

Inductive Double : Type :=
  | NotANumber
  | PosInfinity
  | NegInfinity
  | Finite (x : R).

(** Comparisons of real numbers as booleans, for the [if]s of the source. *)
Definition Rltb (x y : R) : bool := if Rlt_dec x y then true else false.
Definition Rgtb (x y : R) : bool := if Rgt_dec x y then true else false.
Definition Reqb (x y : R) : bool := if Req_dec_T x y then true else false.

(** [a < b]: false as soon as one side is [NaN]. *)
Definition lt_d (a b : Double) : bool :=
  match a, b with
  | Finite x, Finite y => Rltb x y
  | NegInfinity, Finite _ => true
  | NegInfinity, PosInfinity => true
  | Finite _, PosInfinity => true
  | _, _ => false
  end.

(** [a > b] *)
Definition gt_d (a b : Double) : bool :=
  match a, b with
  | Finite x, Finite y => Rgtb x y
  | PosInfinity, Finite _ => true
  | PosInfinity, NegInfinity => true
  | Finite _, NegInfinity => true
  | _, _ => false
  end.

(** An infinity multiplied by a finite number. *)
Definition scale_infinity (positive : bool) (x : R) : Double :=
  if Reqb x 0 then NotANumber
  else if xorb positive (Rltb x 0) then PosInfinity
  else NegInfinity.

(** [a * b] *)
Definition mul_d (a b : Double) : Double :=
  match a, b with
  | NotANumber, _ => NotANumber
  | _, NotANumber => NotANumber
  | Finite x, Finite y => Finite (x * y)
  | Finite x, PosInfinity => scale_infinity true x
  | Finite x, NegInfinity => scale_infinity false x
  | PosInfinity, Finite y => scale_infinity true y
  | NegInfinity, Finite y => scale_infinity false y
  | PosInfinity, PosInfinity => PosInfinity
  | NegInfinity, NegInfinity => PosInfinity
  | PosInfinity, NegInfinity => NegInfinity
  | NegInfinity, PosInfinity => NegInfinity
  end.

(** [a / k] for a positive constant [k], the only divisors of the source. *)
Definition div_d (a : Double) (k : R) : Double :=
  match a with
  | Finite x => Finite (x / k)
  | other => other
  end.

(** The binary logarithm of a positive real number. *)
Definition log2 (x : R) : R := (ln x / ln 2)%R.

(** [Math.log2]: [NaN] below zero, minus infinity at zero. *)
Definition Math_log2 (a : Double) : Double :=
  match a with
  | NotANumber => NotANumber
  | PosInfinity => PosInfinity
  | NegInfinity => NotANumber
  | Finite x =>
      if Rltb x 0 then NotANumber
      else if Reqb x 0 then NegInfinity
      else Finite (log2 x)
  end.

(** [Math.pow(2, y)]: the largest double lies just below 2^1024, and the
    power is infinite from the exponent 1024 on. *)
Definition Math_pow2 (y : Double) : Double :=
  match y with
  | NotANumber => NotANumber
  | PosInfinity => PosInfinity
  | NegInfinity => Finite 0
  | Finite e => if Rltb e 1024 then Finite (Rpower 2 e) else PosInfinity
  end.

(** [Math.round] of a real number: the nearest integer, ties towards plus
    infinity. *)
Definition Math_round (x : R) : Z := Int_part (x + / 2).

(** [Math.round] *)
Definition Math_round_d (a : Double) : Double :=
  match a with
  | Finite x => Finite (IZR (Math_round x))
  | other => other
  end.

(** The decimal rendering of an integer inside a template literal. *)
Definition show (n : Z) : string := NilZero.string_of_int (Z.to_int n).

(** The rendering of a number inside a template literal, for the numbers
    [Math.round] returns. *)
Definition show_d (a : Double) : string :=
  match a with
  | NotANumber => "NaN"
  | PosInfinity => "Infinity"
  | NegInfinity => "-Infinity"
  | Finite x => show (Int_part x)
  end.

(** ** Entropy *)

(** The accumulator [charSpace] of [calculateEntropy], before the guard. *)
Definition charSpace (password : string) : Z :=
  let charSpace := 0 in
  let hasLowercase := Regex.re_lower password in
  let hasUppercase := Regex.re_upper password in
  let hasNumbers := Regex.re_digit password in
  let hasSpecialChars := Regex.re_special password in
  let charSpace := if hasLowercase then charSpace + 26 else charSpace in
  let charSpace := if hasUppercase then charSpace + 26 else charSpace in
  let charSpace := if hasNumbers then charSpace + 10 else charSpace in
  let charSpace := if hasSpecialChars then charSpace + 32 else charSpace in
  charSpace.

(** [charSpace || 1]: zero is falsy. *)
Definition or_one (n : Z) : Z := if n =? 0 then 1 else n.

Definition calculateEntropy (password : string) : Double :=
  mul_d (Finite (INR (String.length password)))
    (Math_log2 (Finite (IZR (or_one (charSpace password))))).

(** [entropy > t], decided on integers: [length * log2 c > t] exactly when
    [c ^ length > 2 ^ t]. *)
Definition entropy_gtb (password : string) (t : Z) : bool :=
  2 ^ t <? or_one (charSpace password) ^ len password.

(** ** Crack time *)

Record TimeToCrack : Type := mkTimeToCrack {
  seconds : Double;
  display : string
}.

Definition calculateCrackTime (entropy : Double) : TimeToCrack :=
  let guessesPerSecond := 1e9%R in
  let totalCombinations := Math_pow2 entropy in
  let averageGuesses := div_d totalCombinations 2 in
  let seconds := div_d averageGuesses guessesPerSecond in
  if lt_d seconds (Finite 1) then mkTimeToCrack seconds "Instantly"
  else if lt_d seconds (Finite 60) then
    mkTimeToCrack seconds (show_d (Math_round_d seconds) ++ " seconds")
  else if lt_d seconds (Finite 3600) then
    mkTimeToCrack seconds
      (show_d (Math_round_d (div_d seconds 60)) ++ " minutes")
  else if lt_d seconds (Finite 86400) then
    mkTimeToCrack seconds
      (show_d (Math_round_d (div_d seconds 3600)) ++ " hours")
  else if lt_d seconds (Finite 2629746) then
    mkTimeToCrack seconds
      (show_d (Math_round_d (div_d seconds 86400)) ++ " days")
  else if lt_d seconds (Finite 31556952) then
    mkTimeToCrack seconds
      (show_d (Math_round_d (div_d seconds 2629746)) ++ " months")
  else if lt_d seconds (Finite 315569520) then
    mkTimeToCrack seconds
      (show_d (Math_round_d (div_d seconds 31556952)) ++ " years")
  else if lt_d seconds (Finite 3155695200) then
    mkTimeToCrack seconds
      (show_d (Math_round_d (div_d seconds 315569520)) ++ " decades")
  else mkTimeToCrack seconds "Centuries".

(** ** The analysis result *)

Inductive Strength : Type :=
  | VeryWeak | Weak | Fair | Good | Strong | VeryStrong.

(** The string literal each tier stands for. *)
Definition strength_label (s : Strength) : string :=
  match s with
  | VeryWeak => "Very Weak"
  | Weak => "Weak"
  | Fair => "Fair"
  | Good => "Good"
  | Strong => "Strong"
  | VeryStrong => "Very Strong"
  end.

Record Checks : Type := mkChecks {
  hasLength : bool;
  hasUppercase : bool;
  hasLowercase : bool;
  hasNumbers : bool;
  hasSpecialChars : bool;
  isCommon : bool
}.

(** A JavaScript number that holds a breach count: an integer or [NaN]. *)
Inductive JSNumber : Type :=
  | NaN
  | Num (n : Z).

(** [PasswordAnalysisResponse]; the two optional fields are [None] while
    unset. *)
Record PasswordAnalysisResponse : Type := mkResponse {
  score : Z;
  strength : Strength;
  color : string;
  suggestions : list string;
  entropy : Double;
  crackTime : string;
  timeToCrack : TimeToCrack;
  checks : Checks;
  isBreached : option bool;
  breachCount : option JSNumber
}.

(** ** The scorer *)

(** Lines 89-109: length credit, class credit, denylist penalty and entropy
    bonus, accumulated in source order. *)
Definition score_credits (password : string) (checks : Checks)
    (entropy : Double) : Z :=
  let score := 0 in
  let score := if hasLength checks then score + 20 else score in
  let score := if len password >=? 12 then score + 10 else score in
  let score := if len password >=? 16 then score + 10 else score in
  let score := if len password >=? 20 then score + 5 else score in
  let score := if hasUppercase checks then score + 15 else score in
  let score := if hasLowercase checks then score + 15 else score in
  let score := if hasNumbers checks then score + 15 else score in
  let score := if hasSpecialChars checks then score + 20 else score in
  let score := if isCommon checks then score - 40 else score in
  let score := if gt_d entropy (Finite 40) then score + 5 else score in
  let score := if gt_d entropy (Finite 60) then score + 10 else score in
  let score := if gt_d entropy (Finite 80) then score + 10 else score in
  score.

(** The same accumulation with the three comparisons of the entropy decided
    on integers; [score_credits_decided] below proves the two equal. *)
Definition score_credits_dec (password : string) (checks : Checks) : Z :=
  let score := 0 in
  let score := if hasLength checks then score + 20 else score in
  let score := if len password >=? 12 then score + 10 else score in
  let score := if len password >=? 16 then score + 10 else score in
  let score := if len password >=? 20 then score + 5 else score in
  let score := if hasUppercase checks then score + 15 else score in
  let score := if hasLowercase checks then score + 15 else score in
  let score := if hasNumbers checks then score + 15 else score in
  let score := if hasSpecialChars checks then score + 20 else score in
  let score := if isCommon checks then score - 40 else score in
  let score := if entropy_gtb password 40 then score + 5 else score in
  let score := if entropy_gtb password 60 then score + 10 else score in
  let score := if entropy_gtb password 80 then score + 10 else score in
  score.

(** Lines 112-114: the three pattern penalties. *)
Definition score_patterns (password : string) (score : Z) : Z :=
  let score := if Regex.test_repeat password then score - 10 else score in
  let score :=
    if Regex.re_sequential_numbers password then score - 10 else score in
  let score :=
    if Regex.re_sequential_letters password then score - 10 else score in
  score.

(** Line 116: [Math.max(0, Math.min(100, score))]. *)
Definition clamp (score : Z) : Z := Z.max 0 (Z.min 100 score).

(** [suggestions.push(s)] under a condition. *)
Definition push_if (cond : bool) (s : string) (l : list string)
    : list string :=
  if cond then l ++ [s] else l.

Definition make_suggestions (password : string) (checks : Checks)
    : list string :=
  let suggestions := [] in
  let suggestions :=
    push_if (negb (hasLength checks)) "Use at least 8 characters"
      suggestions in
  let suggestions :=
    push_if (negb (hasUppercase checks)) "Add uppercase letters (A-Z)"
      suggestions in
  let suggestions :=
    push_if (negb (hasLowercase checks)) "Add lowercase letters (a-z)"
      suggestions in
  let suggestions :=
    push_if (negb (hasNumbers checks)) "Include numbers (0-9)"
      suggestions in
  let suggestions :=
    push_if (negb (hasSpecialChars checks))
      "Add special characters (!@#$%^&*)" suggestions in
  let suggestions :=
    push_if (len password <? 12)
      "Consider using 12+ characters for better security" suggestions in
  let suggestions :=
    push_if (isCommon checks) "Avoid common passwords" suggestions in
  let suggestions :=
    push_if (Regex.test_repeat password) "Avoid repeating characters"
      suggestions in
  let suggestions :=
    push_if (Regex.re_sequential_numbers password)
      "Avoid sequential numbers" suggestions in
  if (Z.of_nat (List.length suggestions) =? 0) then
    suggestions
      ++ ["Excellent! Your password meets all security criteria"]
  else suggestions.

(** Lines 138-156: the six-level table, tier and colour together. *)
Definition tier_of_score (score : Z) : Strength * string :=
  if score >=? 90 then (VeryStrong, "#10b981")
  else if score >=? 75 then (Strong, "#22c55e")
  else if score >=? 60 then (Good, "#3b82f6")
  else if score >=? 40 then (Fair, "#eab308")
  else if score >=? 20 then (Weak, "#f97316")
  else (VeryWeak, "#ef4444").

Definition make_checks (password : string) : Checks :=
  {| hasLength := len password >=? 8;
     hasUppercase := Regex.re_upper password;
     hasLowercase := Regex.re_lower password;
     hasNumbers := Regex.re_digit password;
     hasSpecialChars := Regex.re_special password;
     isCommon := includes COMMON_PASSWORDS (toLowerCase password) |}.

(** The result returned for the empty password. *)
Definition empty_result : PasswordAnalysisResponse :=
  {| score := 0;
     strength := VeryWeak;
     color := "#ef4444";
     suggestions := ["Enter a password to get started"];
     entropy := Finite 0;
     crackTime := "Instantly";
     timeToCrack := mkTimeToCrack (Finite 0) "Instantly";
     checks := mkChecks false false false false false false;
     isBreached := None;
     breachCount := None |}.

Definition analyzePassword (password : string) : PasswordAnalysisResponse :=
  match password with
  | EmptyString => empty_result
  | String _ _ =>
      let checks := make_checks password in
      let entropy := calculateEntropy password in
      let timeToCrack := calculateCrackTime entropy in
      let score := score_credits password checks entropy in
      let score := score_patterns password score in
      let score := clamp score in
      let suggestions := make_suggestions password checks in
      let '(strength, color) := tier_of_score score in
      {| score := score;
         strength := strength;
         color := color;
         suggestions := suggestions;
         entropy := div_d (Math_round_d (mul_d entropy (Finite 10))) 10;
         crackTime := display timeToCrack;
         timeToCrack := timeToCrack;
         checks := checks;
         isBreached := None;
         breachCount := None |}
  end.

(** ** String helpers of the breach checker *)

(** [s.split(sep)] for a one-character separator; never the empty list. *)
Fixpoint split (sep : ascii) (s : string) : list string :=
  match s with
  | EmptyString => [EmptyString]
  | String c rest =>
      if Ascii.eqb c sep then EmptyString :: split sep rest
      else match split sep rest with
           | [] => [String c EmptyString]
           | h :: t => String c h :: t
           end
  end.

(** White space in the sense of [trim] and [parseInt], within U+0000..U+00FF:
    TAB, LF, VT, FF, CR, SP and NBSP. *)
Definition is_white_space (c : ascii) : bool :=
  let n := Chars.code c in
  ((9 <=? n)%N && (n <=? 13)%N) || (n =? 32)%N || (n =? 160)%N.

Fixpoint trim_start (s : string) : string :=
  match s with
  | EmptyString => EmptyString
  | String c rest => if is_white_space c then trim_start rest else s
  end.

Fixpoint trim_end (s : string) : string :=
  match s with
  | EmptyString => EmptyString
  | String c rest =>
      match trim_end rest with
      | EmptyString => if is_white_space c then EmptyString
                       else String c EmptyString
      | r => String c r
      end
  end.

Definition trim (s : string) : string := trim_end (trim_start s).

(** The value of a digit in the given radix (10 or 16), if it is one. *)
Definition digit_value (radix : Z) (c : ascii) : option Z :=
  let n := Z.of_N (Chars.code c) in
  if Chars.is_digit c then Some (n - 48)
  else if (radix =? 16) && Chars.in_range 97 102 c then Some (n - 87)
  else if (radix =? 16) && Chars.in_range 65 70 c then Some (n - 55)
  else None.

(** The longest prefix of digits, read left to right; [None] if there is no
    digit at all. *)
Fixpoint parse_digits (radix : Z) (acc : option Z) (s : string) : option Z :=
  match s with
  | EmptyString => acc
  | String c rest =>
      match digit_value radix c with
      | None => acc
      | Some d =>
          parse_digits radix
            (Some (match acc with None => d | Some a => a * radix + d end))
            rest
      end
  end.

(** [parseInt(s)] with no radix argument: leading white space, an optional
    sign, an optional [0x] or [0X] prefix selecting radix 16, then digits;
    [NaN] when no digit follows.  The value is the integer the digits
    denote: exact up to 2^53, where the source goes on with the double
    nearest to it. *)
Definition parseInt (s : string) : JSNumber :=
  let s := trim_start s in
  let '(sign, s) :=
    match s with
    | String "-" rest => (-1, rest)
    | String "+" rest => (1, rest)
    | _ => (1, s)
    end in
  let '(radix, s) :=
    match s with
    | String "0" (String "x" rest) => (16, rest)
    | String "0" (String "X" rest) => (16, rest)
    | _ => (10, s)
    end in
  match parse_digits radix None s with
  | None => NaN
  | Some n => Num (sign * n)
  end.

(** [toUpperCase] on a hexadecimal digest, whose characters are ASCII. *)
Fixpoint toUpperCase (s : string) : string :=
  match s with
  | EmptyString => EmptyString
  | String c rest => String (Chars.ascii_upper c) (toUpperCase rest)
  end.

(** ** The breach cache, the environment and the effect monad *)

Record BreachInfo : Type := mkBreachInfo {
  info_isBreached : bool;
  info_count : JSNumber
}.

Record CacheEntry : Type := mkCacheEntry {
  entry_isBreached : bool;
  entry_count : JSNumber;
  timestamp : Z
}.

(** [Map<string, ...>]: an association list in which a key occurs once. *)
Definition Cache : Type := list (string * CacheEntry).

Fixpoint Map_get (m : Cache) (k : string) : option CacheEntry :=
  match m with
  | [] => None
  | (k', v) :: rest => if String.eqb k k' then Some v else Map_get rest k
  end.

Fixpoint Map_set (m : Cache) (k : string) (v : CacheEntry) : Cache :=
  match m with
  | [] => [(k, v)]
  | (k', v') :: rest =>
      if String.eqb k k' then (k, v) :: rest
      else (k', v') :: Map_set rest k v
  end.

(** What [fetch] followed by [response.text()] can do: reject, or deliver a
    response with its [ok] flag and a body that may itself fail to read. *)
Inductive FetchOutcome : Type :=
  | NetworkError
  | HttpResponse (ok : bool) (text : option string).

(** Everything the handler takes from outside the repository. *)
Record Env : Type := mkEnv {
  sha1_hex : string -> string;
  sha256_hex : string -> string;
  toLocaleString : JSNumber -> string;
  fetch : string -> FetchOutcome;
  Date_now : nat -> Z;
  passwordCheckDb_log_throws : bool;
  passwordHistoryDb_add_throws : bool
}.

Inductive DbWrite : Type :=
  | CheckLogged (userId : option string) (passwordHash : string)
      (analysis : PasswordAnalysisResponse)
  | HistoryAdded (userId : string) (passwordHash : string)
      (analysis : PasswordAnalysisResponse).

(** The mutable state of the process and the trace of its effects. *)
Record State : Type := mkState {
  breachCache : Cache;
  clock_reads : nat;
  requests : list string;
  console : list string;
  db_writes : list DbWrite
}.

Inductive Outcome (A : Type) : Type :=
  | Return (a : A)
  | Throw (message : string).
Arguments Return {A} a.
Arguments Throw {A} message.

Definition M (A : Type) : Type := State -> Outcome A * State.

Definition ret {A} (a : A) : M A := fun st => (Return a, st).

Definition throw {A} (message : string) : M A := fun st => (Throw message, st).

Definition bind {A B} (m : M A) (k : A -> M B) : M B :=
  fun st =>
    match m st with
    | (Return a, st') => k a st'
    | (Throw e, st') => (Throw e, st')
    end.

Definition try_catch {A} (body : M A) (handler : string -> M A) : M A :=
  fun st =>
    match body st with
    | (Return a, st') => (Return a, st')
    | (Throw e, st') => handler e st'
    end.

Notation "x <- m ;; k" := (bind m (fun x => k))
  (at level 61, m at next level, right associativity).
Notation "m ;;; k" := (bind m (fun _ => k))
  (at level 61, right associativity).

Definition cache_get (k : string) : M (option CacheEntry) :=
  fun st => (Return (Map_get (breachCache st) k), st).

Definition cache_set (k : string) (v : CacheEntry) : M unit :=
  fun st =>
    (Return tt,
     mkState (Map_set (breachCache st) k v) (clock_reads st) (requests st)
       (console st) (db_writes st)).

Definition console_error (label : string) : M unit :=
  fun st =>
    (Return tt,
     mkState (breachCache st) (clock_reads st) (requests st)
       (console st ++ [label]) (db_writes st)).

Definition db_write (throws : bool) (w : DbWrite) : M unit :=
  fun st =>
    if throws then (Throw "database error", st)
    else
      (Return tt,
       mkState (breachCache st) (clock_reads st) (requests st) (console st)
         (db_writes st ++ [w])).

Section WithEnv.

Variable env : Env.

Definition now : M Z :=
  fun st =>
    (Return (Date_now env (clock_reads st)),
     mkState (breachCache st) (S (clock_reads st)) (requests st)
       (console st) (db_writes st)).

(** [await fetch(url)], then [response.ok] and [await response.text()]. *)
Definition do_fetch (url : string) : M FetchOutcome :=
  fun st =>
    (Return (fetch env url),
     mkState (breachCache st) (clock_reads st) (requests st ++ [url])
       (console st) (db_writes st)).

(** The loop over the lines of the range response: the first line whose
    part before the colon is [suffix] decides.  [count] is [undefined] when
    the line has no colon, and [count.trim()] then raises a [TypeError]. *)
Fixpoint scan_lines (suffix : string) (lines : list string)
    : Outcome (option BreachInfo) :=
  match lines with
  | [] => Return None
  | line :: rest =>
      let parts := split ":" line in
      let hashSuffix := hd EmptyString parts in
      let count := nth_error parts 1 in
      if String.eqb hashSuffix suffix then
        match count with
        | None => Throw "TypeError: cannot read properties of undefined"
        | Some count => Return (Some (mkBreachInfo true (parseInt (trim count))))
        end
      else scan_lines suffix rest
  end.

Definition range_url : string := "https://api.pwnedpasswords.com/range/".

Definition store (password : string) (result : BreachInfo) : M BreachInfo :=
  t <- now ;;
  cache_set password
    (mkCacheEntry (info_isBreached result) (info_count result) t) ;;;
  ret result.

(** Lines 181-207: the network path of the [try] block. *)
Definition query_provider (password : string) : M BreachInfo :=
  let sha1Hash := toUpperCase (sha1_hex env password) in
  let prefix := substring 0 5 sha1Hash in
  let suffix := substring 5 (String.length sha1Hash - 5) sha1Hash in
  response <- do_fetch (range_url ++ prefix) ;;
  match response with
  | NetworkError => throw "fetch failed"
  | HttpResponse false _ => throw "Failed to check breach database"
  | HttpResponse true None => throw "reading the response body failed"
  | HttpResponse true (Some data) =>
      let lines := split "010" data in
      match scan_lines suffix lines with
      | Throw e => throw e
      | Return (Some result) => store password result
      | Return None => store password (mkBreachInfo false (Num 0))
      end
  end.

(** Lines 175-207: the whole [try] block, cache first. *)
Definition lookup (password : string) : M BreachInfo :=
  cached <- cache_get password ;;
  match cached with
  | Some cached =>
      t <- now ;;
      if t - timestamp cached <? 3600000 then
        ret (mkBreachInfo (entry_isBreached cached) (entry_count cached))
      else query_provider password
  | None => query_provider password
  end.

Definition checkPasswordBreach (password : string) : M BreachInfo :=
  try_catch (lookup password)
    (fun _ =>
       console_error "Error checking password breach:" ;;;
       ret (mkBreachInfo false (Num 0))).

(** ** The request handler *)

(** The warning sign that opens the breach message, U+26A0 U+FE0F, written
    as its six UTF-8 bytes since it lies beyond U+00FF. *)
Definition warning_sign : string :=
  string_of_list_ascii
    ["226"%char; "154"%char; "160"%char; "239"%char; "184"%char; "143"%char].

Definition breach_warning (count : JSNumber) : string :=
  warning_sign ++ " This password has been found in "
  ++ toLocaleString env count
  ++ " data breaches. Choose a different password.".

(** Lines 233-235: the cap and the two-level mapping. *)
Definition capped_score (score : Z) : Z := Z.min score 30.

Definition breached_tier (score : Z) : Strength * string :=
  (if score >=? 25 then Weak else VeryWeak,
   if score >=? 25 then "#f97316" else "#ef4444").

(** Lines 228-236: what the handler does to [analysis] once [breachInfo]
    is known. *)
Definition apply_breach (analysis : PasswordAnalysisResponse)
    (breachInfo : BreachInfo) : PasswordAnalysisResponse :=
  let isBreached' := Some (info_isBreached breachInfo) in
  let breachCount' := Some (info_count breachInfo) in
  if info_isBreached breachInfo then
    let suggestions' :=
      breach_warning (info_count breachInfo) :: suggestions analysis in
    let score' := capped_score (score analysis) in
    let '(strength', color') := breached_tier score' in
    mkResponse score' strength' color' suggestions' (entropy analysis)
      (crackTime analysis) (timeToCrack analysis) (checks analysis)
      isBreached' breachCount'
  else
    mkResponse (score analysis) (strength analysis) (color analysis)
      (suggestions analysis) (entropy analysis) (crackTime analysis)
      (timeToCrack analysis) (checks analysis) isBreached' breachCount'.

(** The [password] field of the request body: a string or anything else. *)
Inductive JSValue : Type :=
  | VString (s : string)
  | VOther.

Inductive HttpReply : Type :=
  | Json (status : Z) (body : PasswordAnalysisResponse)
  | JsonError (status : Z) (error : string).

(** Lines 222-237: analysis followed by the breach step. *)
Definition analyze_and_check (password : string)
    : M PasswordAnalysisResponse :=
  let analysis := analyzePassword password in
  if len password >? 0 then
    breachInfo <- checkPasswordBreach password ;;
    ret (apply_breach analysis breachInfo)
  else ret analysis.

(** [req.user?.id || null]: no user gives [null], and so does a user whose
    id is the empty string, which is falsy. *)
Definition id_or_null (user : option string) : option string :=
  match user with
  | Some (String c id) => Some (String c id)
  | Some EmptyString => None
  | None => None
  end.

(** The body of the handler's [try] block.  [user] is the id of [req.user]
    when the request carries a user. *)
Definition handle (password : JSValue) (saveToHistory : bool)
    (user : option string) : M HttpReply :=
  match password with
  | VOther => ret (JsonError 400 "Password must be a string")
  | VString password =>
      analysis <- analyze_and_check password ;;
      let passwordHash :=
        match password with
        | EmptyString => EmptyString
        | String _ _ => sha256_hex env password
        end in
      db_write (passwordCheckDb_log_throws env)
        (CheckLogged (id_or_null user) passwordHash analysis) ;;;
      match user with
      | Some id =>
          if saveToHistory && (len password >? 0) then
            db_write (passwordHistoryDb_add_throws env)
              (HistoryAdded id passwordHash analysis)
          else ret tt
      | None => ret tt
      end ;;;
      ret (Json 200 analysis)
  end.

Definition handlePasswordAnalysis (password : JSValue)
    (saveToHistory : bool) (user : option string) : M HttpReply :=
  try_catch (handle password saveToHistory user)
    (fun _ =>
       console_error "Password analysis error:" ;;;
       ret (JsonError 500 "Internal server error")).

End WithEnv.

(** ** Vocabulary of the specification *)

(** Every code unit of the modelled range, for proofs by enumeration. *)
Definition all_code_units : list ascii := map ascii_of_nat (seq 0 256).

(** [s] holds a character of the class [cls]. *)
Definition contains (cls : ascii -> bool) (s : string) : Prop :=
  exists pre c post, s = pre ++ String c post /\ cls c = true.

(** [a], [b], [c] stand next to each other, in this order, somewhere in [s]. *)
Definition window (s : string) (a b c : ascii) : Prop :=
  exists pre post, s = pre ++ String a (String b (String c post)).

(** The value of a decimal digit. *)
Definition digit_index (c : ascii) : option Z :=
  if Chars.is_digit c then Some (Z.of_N (Chars.code c) - 48) else None.

(** The position of a letter in the alphabet, whatever its case. *)
Definition letter_index (c : ascii) : option Z :=
  if Chars.is_lower c then Some (Z.of_N (Chars.code c) - 97)
  else if Chars.is_upper c then Some (Z.of_N (Chars.code c) - 65)
  else None.

(** Is the index [o] present and equal to [k]? *)
Definition index_is (o : option Z) (k : Z) : bool :=
  match o with
  | Some x => x =? k
  | None => false
  end.

(** The character with code [n]. *)
Definition chr (n : Z) : ascii := ascii_of_N (Z.to_N n).

(** Some character occurs three times in a row. *)
Definition has_repeat (s : string) : Prop :=
  exists c, window s c c c.

(** Three digits in a row with values [d], [d+1], [d+2]. *)
Definition has_ascending_digits (s : string) : Prop :=
  exists a b c d, window s a b c /\ digit_index a = Some d
    /\ digit_index b = Some (d + 1) /\ digit_index c = Some (d + 2).

(** Three digits in a row that follow each other in [01234567890]: as
    above, and also 8, 9, 0. *)
Definition has_digit_run (s : string) : Prop :=
  exists a b c d, window s a b c /\ digit_index a = Some d
    /\ digit_index b = Some (d + 1) /\ digit_index c = Some ((d + 2) mod 10).

(** Three letters in a row at alphabet positions [k], [k+1], [k+2],
    whatever their case. *)
Definition has_ascending_letters (s : string) : Prop :=
  exists a b c k, window s a b c /\ letter_index a = Some k
    /\ letter_index b = Some (k + 1) /\ letter_index c = Some (k + 2).

Definition free_of_line_terminators (s : string) : Prop :=
  Regex.test_class Chars.is_line_terminator s = false.

(** The six tiers in ascending order. *)
Definition tier_rank (s : Strength) : Z :=
  match s with
  | VeryWeak => 0
  | Weak => 1
  | Fair => 2
  | Good => 3
  | Strong => 4
  | VeryStrong => 5
  end.

(** The class sizes of the entropy estimate, for given class presence. *)
Definition class_sizes (lower upper digit special : bool) : Z :=
  26 * Z.b2z lower + 26 * Z.b2z upper + 10 * Z.b2z digit
  + 32 * Z.b2z special.

(** A password with no character of any of the four classes. *)
Definition classless (s : string) : Prop :=
  ~ contains Chars.is_lower s /\ ~ contains Chars.is_upper s
  /\ ~ contains Chars.is_digit s /\ ~ contains Chars.is_special s.

(** When the [try] block of [checkPasswordBreach] has to go to the network:
    no cache entry, or one that is an hour old or more at the reading of the
    clock. *)
Definition cache_stale (env : Env) (password : string) (st : State) : Prop :=
  match Map_get (breachCache st) password with
  | None => True
  | Some cached =>
      3600000 <= Date_now env (clock_reads st) - timestamp cached
  end.

(** The suffix the scan looks for. *)
Definition suffix_of (env : Env) (password : string) : string :=
  let sha1Hash := toUpperCase (sha1_hex env password) in
  substring 5 (String.length sha1Hash - 5) sha1Hash.

Definition url_of (env : Env) (password : string) : string :=
  range_url ++ substring 0 5 (toUpperCase (sha1_hex env password)).

(** The ways a provider lookup goes wrong: the request fails, the status is
    not a success, the body cannot be read, or the matching line of the body
    cannot be taken apart. *)
Inductive provider_failure (env : Env) (password : string) : Prop :=
  | network_error :
      fetch env (url_of env password) = NetworkError ->
      provider_failure env password
  | bad_status body :
      fetch env (url_of env password) = HttpResponse false body ->
      provider_failure env password
  | unreadable_body :
      fetch env (url_of env password) = HttpResponse true None ->
      provider_failure env password
  | malformed_line data e :
      fetch env (url_of env password) = HttpResponse true (Some data) ->
      scan_lines (suffix_of env password) (split "010" data) = Throw e ->
      provider_failure env password.

(** Does the handler write to the per-user history? *)
Definition history_requested (saveToHistory : bool) (user : option string)
    (password : string) : bool :=
  match user with
  | Some _ => saveToHistory && (len password >? 0)
  | None => false
  end.

(** Does one of the database writes of the handler raise? *)
Definition database_fails (env : Env) (saveToHistory : bool)
    (user : option string) (password : string) : bool :=
  passwordCheckDb_log_throws env
  || (history_requested saveToHistory user password
      && passwordHistoryDb_add_throws env).

(** [s.repeat(n)] *)
Fixpoint repeat_string (s : string) (n : nat) : string :=
  match n with
  | O => EmptyString
  | S n => s ++ repeat_string s n
  end.

(** A password for each combination of the three patterns. *)
Definition pattern_sample (r d l : bool) : string :=
  match r, d, l with
  | false, false, false => "x"
  | true, false, false => "aaa"
  | false, true, false => "123"
  | false, false, true => "abc"
  | true, true, false => "aaa123"
  | true, false, true => "aaabc"
  | false, true, true => "abc123"
  | true, true, true => "aaabc123"
  end.

(** ** Vocabulary for further properties of the scorer *)

(** The nine remediation messages, in the order [analyzePassword] pushes
    them. *)
Definition remediation_messages : list string :=
  ["Use at least 8 characters";
   "Add uppercase letters (A-Z)";
   "Add lowercase letters (a-z)";
   "Include numbers (0-9)";
   "Add special characters (!@#$%^&*)";
   "Consider using 12+ characters for better security";
   "Avoid common passwords";
   "Avoid repeating characters";
   "Avoid sequential numbers"].

Definition affirmative_message : string :=
  "Excellent! Your password meets all security criteria".

(** [l] is [m] with some elements left out, the order kept. *)
Inductive subsequence {A : Type} : list A -> list A -> Prop :=
  | subsequence_nil : subsequence [] []
  | subsequence_skip x l m : subsequence l m -> subsequence l (x :: m)
  | subsequence_take x l m : subsequence l m -> subsequence (x :: l) (x :: m).

(** ** Vocabulary for further properties of the breach checker *)

(** The state in which [lookup] turns to the provider: as it found it on a
    cache miss, one reading of the clock later when it inspected an
    entry. *)
Definition before_query (password : string) (st : State) : State :=
  match Map_get (breachCache st) password with
  | None => st
  | Some _ =>
      mkState (breachCache st) (S (clock_reads st)) (requests st)
        (console st) (db_writes st)
  end.

(** The verdict a finished scan stands for. *)
Definition verdict (found : option BreachInfo) : BreachInfo :=
  match found with
  | Some result => result
  | None => mkBreachInfo false (Num 0)
  end.

(** The part of a response line before its first colon. *)
Definition hash_part (line : string) : string :=
  hd EmptyString (split ":" line).

(** The hash the handler passes to the database. *)
Definition password_hash (env : Env) (password : string) : string :=
  match password with
  | EmptyString => EmptyString
  | String _ _ => sha256_hex env password
  end.

(** ** A sample environment *)

Definition CR : ascii := "013".
Definition LF : ascii := "010".

(** A range response in the provider's format, lines ending in CR LF. *)
Definition sample_body : string :=
  "1D72CD07550416C216D8AD296BF5C0AE8E0:11"
  ++ String CR (String LF "1E4C9B93F3F0682250B6CF8331B7EE68FD8:3730471")
  ++ String CR (String LF "1E4D1F5B4B0F8C1D3E3A3A0A7A9C1F2B3C4:2").

(** An environment for the password [password]: its real SHA-1 and SHA-256
    digests, plain decimal number formatting, a clock that stands still and
    a database that accepts every write. *)
Definition sample_env (outcome : FetchOutcome) : Env :=
  {| sha1_hex := fun _ => "5baa61e4c9b93f3f0682250b6cf8331b7ee68fd8";
     sha256_hex := fun _ =>
       "5e884898da28047151d0e56f8dc6292773603d0d6aabbdd62a11ef721d1542d8";
     toLocaleString := fun n =>
       match n with NaN => "NaN" | Num z => show z end;
     fetch := fun _ => outcome;
     Date_now := fun _ => 1700000000000;
     passwordCheckDb_log_throws := false;
     passwordHistoryDb_add_throws := false |}.

Definition initial_state : State := mkState [] 0 [] [] [].

(** A state whose cache already holds a verdict for [password], stored
    half an hour before the clock of [sample_env]. *)
Definition warm_state : State :=
  mkState [("password", mkCacheEntry true (Num 3730471) 1699998200000)]
    0 [] [] [].


(** ** The account routes of [server/routes/auth.ts]

    [handleRegister] and [handleLogin] with their collaborators made
    explicit.  The functions of [../auth] ([validatePassword],
    [checkRateLimit], [comparePassword], [generateToken]) and the SQL
    statements behind [userDb] and [loginAttemptsDb] are fields of an
    environment; every call to them is recorded, in order, in a trace.  The
    request fields have the declared type: a string, or [None] when the
    field is missing.  The address and the user agent that the handlers
    pass on to the log untouched are left out. *)

Module Auth.

Record User : Type := mkUser {
  id : string;
  email : string;
  password_hash : string;
  role : string
}.

(** What the INSERT of [userDb.create] can do. *)
Inductive InsertOutcome : Type :=
  | Inserted
  | UniqueViolation
  | OtherError (message : string).

(** The calls a handler makes to its collaborators. *)
Inductive Call : Type :=
  | ValidatePassword (password : string)
  | InsertUser (id email hashedPassword role : string)
  | GenerateToken (id email role : string)
  | LogAttempt (email : string) (success : bool) (reason : option string)
  | GetRecentFailedAttempts (email : string)
  | CheckRateLimit (count : Z)
  | FindByEmail (email : string)
  | ComparePassword (password hash : string)
  | UpdateLastLogin (id : string).

Record Collaborators : Type := mkCollaborators {
  validatePassword : string -> bool * string;
  uuidv4 : string;
  hashSync : string -> string;
  insertUser : string -> string -> string -> string -> InsertOutcome;
  generateToken : string -> string -> string -> Outcome string;
  logAttempt : string -> bool -> option string -> Outcome unit;
  getRecentFailedAttempts : string -> Outcome Z;
  checkRateLimit : Z -> bool;
  findByEmail : string -> Outcome (option User);
  comparePassword : string -> string -> Outcome bool;
  updateLastLogin : string -> Outcome unit
}.

(** The JSON body of a reply; [token] and [user] are absent from error
    replies. *)
Record Reply : Type := mkReply {
  status : Z;
  success : bool;
  message : string;
  token : option string;
  user : option (string * string * string)
}.

Definition failure (status : Z) (message : string) : Reply :=
  mkReply status false message None None.

(** Computations that make calls and may raise. *)
Definition T (A : Type) : Type := list Call -> Outcome A * list Call.

Definition ret {A} (a : A) : T A := fun tr => (Return a, tr).

Definition bind {A B} (m : T A) (k : A -> T B) : T B :=
  fun tr =>
    match m tr with
    | (Return a, tr') => k a tr'
    | (Throw e, tr') => (Throw e, tr')
    end.

Definition try_catch {A} (body : T A) (handler : string -> T A) : T A :=
  fun tr =>
    match body tr with
    | (Return a, tr') => (Return a, tr')
    | (Throw e, tr') => handler e tr'
    end.

(** One call: it is recorded, and returns or raises as the collaborator
    does. *)
Definition call {A} (c : Call) (result : Outcome A) : T A :=
  fun tr => (result, (tr ++ [c])%list).

Local Notation "x <~ m ;; k" := (bind m (fun x => k))
  (at level 61, m at next level, right associativity).
Local Notation "m ;;~ k" := (bind m (fun _ => k))
  (at level 61, right associativity).

(** [!field]: a missing field and the empty string are falsy. *)
Definition falsy (field : option string) : bool :=
  match field with
  | None => true
  | Some EmptyString => true
  | Some (String _ _) => false
  end.

Definition value (field : option string) : string :=
  match field with
  | None => EmptyString
  | Some s => s
  end.

(** One item of an anchored pattern: a character class repeated once or
    more, or a literal character. *)
Inductive item : Type :=
  | Plus (cls : ascii -> bool)
  | Lit (c : ascii).

(** Does the whole of [s] match the items, one after the other?  A
    repeated class takes one character and then either goes on or hands
    over to the rest, which is the backtracking of the matcher. *)
Fixpoint match_items (s : string) (items : list item) {struct s} : bool :=
  match s, items with
  | EmptyString, [] => true
  | EmptyString, _ :: _ => false
  | String _ _, [] => false
  | String x s', Lit c :: rest => Ascii.eqb x c && match_items s' rest
  | String x s', Plus cls :: rest =>
      cls x && (match_items s' rest || match_items s' (Plus cls :: rest))
  end.

(** [[^\s@]] *)
Definition no_space_no_at (c : ascii) : bool :=
  negb (is_white_space c) && negb (Ascii.eqb c "@").

(** [/^[^\s@]+@[^\s@]+\.[^\s@]+$/] *)
Definition emailRegex : list item :=
  [Plus no_space_no_at; Lit "@"; Plus no_space_no_at; Lit ".";
   Plus no_space_no_at].

Section WithCollaborators.

Variable co : Collaborators.

(** [userDb.create(email, password)] of [server/database.ts], with the
    default role: the password is hashed, the row inserted, and a unique
    violation is raised anew under its own message. *)
Definition userDb_create (email password : string)
    : T (string * string * string) :=
  let role := "user" in
  let id := uuidv4 co in
  let hashedPassword := hashSync co password in
  outcome <~ call (InsertUser id email hashedPassword role)
               (Return (insertUser co id email hashedPassword role)) ;;
  match outcome with
  | Inserted => ret (id, email, role)
  | UniqueViolation => fun tr => (Throw "Email already exists", tr)
  | OtherError message => fun tr => (Throw message, tr)
  end.

Definition handleRegister (email password confirmPassword : option string)
    : T Reply :=
  try_catch
    (if falsy email || falsy password || falsy confirmPassword then
       ret (failure 400
              "Email, password, and password confirmation are required")
     else
       let email := value email in
       let password := value password in
       let confirmPassword := value confirmPassword in
       if negb (String.eqb password confirmPassword) then
         ret (failure 400 "Passwords do not match")
       else if negb (match_items email emailRegex) then
         ret (failure 400 "Please enter a valid email address")
       else
         passwordValidation <~
           call (ValidatePassword password)
             (Return (validatePassword co password)) ;;
         if negb (fst passwordValidation) then
           ret (failure 400 (snd passwordValidation))
         else
           try_catch
             (user <~ userDb_create (toLowerCase email) password ;;
              let '(user_id, user_email, user_role) := user in
              token <~
                call (GenerateToken user_id user_email user_role)
                  (generateToken co user_id user_email user_role) ;;
              call (LogAttempt (toLowerCase email) true None)
                (logAttempt co (toLowerCase email) true None) ;;~
              ret (mkReply 201 true "Account created successfully"
                     (Some token) (Some user)))
             (fun error =>
                if String.eqb error "Email already exists" then
                  ret (failure 409
                         "An account with this email already exists")
                else fun tr => (Throw error, tr)))
    (fun _ =>
       ret (failure 500 "Internal server error during registration")).

Definition handleLogin (email password : option string) : T Reply :=
  try_catch
    (if falsy email || falsy password then
       ret (failure 400 "Email and password are required")
     else
       let email := value email in
       let password := value password in
       let normalizedEmail := toLowerCase email in
       count <~
         call (GetRecentFailedAttempts normalizedEmail)
           (getRecentFailedAttempts co normalizedEmail) ;;
       allowed <~
         call (CheckRateLimit count) (Return (checkRateLimit co count)) ;;
       if negb allowed then
         call (LogAttempt normalizedEmail false (Some "Rate limited"))
           (logAttempt co normalizedEmail false (Some "Rate limited")) ;;~
         ret (failure 429
                "Too many failed login attempts. Please try again in 15 minutes.")
       else
         found <~
           call (FindByEmail normalizedEmail)
             (findByEmail co normalizedEmail) ;;
         match found with
         | None =>
             call (LogAttempt normalizedEmail false (Some "User not found"))
               (logAttempt co normalizedEmail false
                  (Some "User not found")) ;;~
             ret (failure 401 "Invalid email or password")
         | Some user =>
             isPasswordValid <~
               call (ComparePassword password (password_hash user))
                 (comparePassword co password (password_hash user)) ;;
             if negb isPasswordValid then
               call (LogAttempt normalizedEmail false
                       (Some "Invalid password"))
                 (logAttempt co normalizedEmail false
                    (Some "Invalid password")) ;;~
               ret (failure 401 "Invalid email or password")
             else
               call (UpdateLastLogin (id user))
                 (updateLastLogin co (id user)) ;;~
               call (LogAttempt normalizedEmail true None)
                 (logAttempt co normalizedEmail true None) ;;~
               token <~
                 call (GenerateToken (id user) (Auth.email user)
                         (role user))
                   (generateToken co (id user) (Auth.email user)
                      (role user)) ;;
               ret (mkReply 200 true "Login successful" (Some token)
                      (Some (id user, Auth.email user, role user)))
         end)
    (fun _ => ret (failure 500 "Internal server error during login")).

End WithCollaborators.

(** The parts of an address the pattern accepts are made of these. *)
Fixpoint all_chars (cls : ascii -> bool) (s : string) : bool :=
  match s with
  | EmptyString => true
  | String c rest => cls c && all_chars cls rest
  end.

Definition part (s : string) : Prop :=
  s <> EmptyString /\ all_chars no_space_no_at s = true.

(** Collaborators under which nothing raises: one account, whose password
    compares equal to [secret]. *)
Definition sample : Collaborators :=
  {| validatePassword := fun p => (8 <=? len p, "Password is too short");
     uuidv4 := "id-1";
     hashSync := fun p => "hash-of-" ++ p;
     insertUser := fun _ _ _ _ => Inserted;
     generateToken := fun id _ _ => Return ("token-for-" ++ id);
     logAttempt := fun _ _ _ => Return tt;
     getRecentFailedAttempts := fun _ => Return 0;
     checkRateLimit := fun n => n <? 5;
     findByEmail := fun e =>
       Return (if String.eqb e "ann@example.com"
               then Some (mkUser "id-7" "ann@example.com" "hash-7" "user")
               else None);
     comparePassword := fun p h =>
       Return (String.eqb p "secret" && String.eqb h "hash-7");
     updateLastLogin := fun _ => Return tt |}.

End Auth.

(** ** The admin routes that change accounts ([routes/admin.ts])

    [handleDeleteUser] and [handleUpdateUserStatus], with the calls to
    [userDb] recorded in a trace; a raising call ends in the 500 reply of
    the handler's [catch]. *)

Module Admin.

Inductive Call : Type :=
  | FindById (id : string)
  | DeleteUser (id : string)
  | UpdateStatus (id : string) (isActive : bool).

Record Db : Type := mkDb {
  findById : string -> Outcome (option Auth.User);
  delete : string -> Outcome unit;
  updateStatus : string -> bool -> Outcome unit
}.

Definition ok (message : string) : Auth.Reply :=
  Auth.mkReply 200 true message None None.

(** [userId === req.user?.id] *)
Definition is_requester (userId : string) (requester : option string)
    : bool :=
  match requester with
  | Some id => String.eqb userId id
  | None => false
  end.

Definition handleDeleteUser (db : Db) (userId : string)
    (requester : option string) (tr : list Call)
    : Auth.Reply * list Call :=
  if is_requester userId requester then
    (Auth.failure 400 "You cannot delete your own account", tr)
  else
    let tr := (tr ++ [FindById userId])%list in
    match findById db userId with
    | Throw _ => (Auth.failure 500 "Failed to delete user", tr)
    | Return None => (Auth.failure 404 "User not found", tr)
    | Return (Some _) =>
        let tr := (tr ++ [DeleteUser userId])%list in
        match delete db userId with
        | Throw _ => (Auth.failure 500 "Failed to delete user", tr)
        | Return _ => (ok "User deleted successfully", tr)
        end
    end.

(** [isActive] is [None] when the body holds no boolean there. *)
Definition handleUpdateUserStatus (db : Db) (userId : string)
    (isActive : option bool) (requester : option string) (tr : list Call)
    : Auth.Reply * list Call :=
  match isActive with
  | None => (Auth.failure 400 "isActive must be a boolean value", tr)
  | Some isActive =>
      if is_requester userId requester && negb isActive then
        (Auth.failure 400 "You cannot deactivate your own account", tr)
      else
        let tr := (tr ++ [FindById userId])%list in
        match findById db userId with
        | Throw _ => (Auth.failure 500 "Failed to update user status", tr)
        | Return None => (Auth.failure 404 "User not found", tr)
        | Return (Some _) =>
            let tr := (tr ++ [UpdateStatus userId isActive])%list in
            match updateStatus db userId isActive with
            | Throw _ =>
                (Auth.failure 500 "Failed to update user status", tr)
            | Return _ =>
                (ok ("User "
                     ++ (if isActive then "activated" else "deactivated")
                     ++ " successfully"), tr)
            end
        end
  end.

(** A database with the one account of [Auth.sample]. *)
Definition sample : Db :=
  {| findById := fun i =>
       Return (if String.eqb i "id-7"
               then Some (Auth.mkUser "id-7" "ann@example.com" "hash-7"
                            "user")
               else None);
     delete := fun _ => Return tt;
     updateStatus := fun _ _ => Return tt |}.

End Admin.

(** ** The password generator of the start page ([generatePassword])

    [Math.random] is a stream of real numbers, one per draw. *)

Definition charset : string :=
  "ABCDEFGHIJKLMNOPQRSTUVWXYZabcdefghijklmnopqrstuvwxyz0123456789!@#$%^&*()_+-=[]{}|;:,.<>?".

(** [s.charAt(i)]: the empty string outside the string. *)
Definition charAt (s : string) (i : Z) : string :=
  if i <? 0 then EmptyString
  else match String.get (Z.to_nat i) s with
       | Some c => String c EmptyString
       | None => EmptyString
       end.

(** [Math.floor] *)
Definition Math_floor (x : R) : Z := Int_part x.

(** The loop of [generatePassword] with [steps] rounds to go, the next
    draw being number [draw]. *)
Fixpoint generate_from (random : nat -> R) (draw steps : nat)
    (result : string) : string :=
  match steps with
  | O => result
  | S steps' =>
      generate_from random (S draw) steps'
        (result
         ++ charAt charset (Math_floor (random draw * IZR (len charset))))
  end.

Definition generatePassword (random : nat -> R) : string :=
  generate_from random 0 16 EmptyString.

(** Is [c] a character of [s]? *)
Definition member (s : string) (c : ascii) : bool :=
  Regex.test_class (Ascii.eqb c) s.

(** ** Proof automation *)

(** Exposes the fields of [analyzePassword] on a non-empty password. *)
Ltac open_analysis :=
  unfold analyzePassword; cbv beta iota zeta;
  destruct (tier_of_score _); cbn [score strength color suggestions checks
    isBreached breachCount fst snd].

(** Closes one branch of the threshold cascade of [calculateCrackTime]. *)
Ltac crack_case :=
  cbn [seconds display];
  repeat match goal with |- _ /\ _ => split end;
  intros; first [reflexivity | exfalso; lra].

(** Case analysis on an integer [k] known to lie in [n, n + fuel). *)
Ltac cases_upto k n fuel tac :=
  lazymatch fuel with
  | O => exfalso; lia
  | S ?f =>
      destruct (Z.eq_dec k n) as [-> | ?];
      [ tac
      | let n' := eval compute in (n + 1) in cases_upto k n' f tac ]
  end.

(** No display made of a count and a unit reads as one of the two fixed
    displays: the unit starts with a space, which neither of them holds. *)
Ltac other_display :=
  match goal with
  | |- ?x ++ _ = _ -> _ => generalize x
  end;
  let w := fresh "w" in
  let H := fresh "H" in
  intros w H;
  destruct w as [| ? [| ? [| ? [| ? [| ? [| ? [| ? [| ? [| ? [| ? w]]]]]]]]]];
  cbn [append] in H; discriminate H.

(** Unfolds a handler of the account routes down to its calls. *)
Ltac run_handler :=
  unfold Auth.handleLogin, Auth.handleRegister, Auth.userDb_create,
    Auth.try_catch, Auth.bind, Auth.call, Auth.ret;
  cbv zeta.

(** ** Lemmas on entropy comparisons *)

Lemma ln_2_pos : (0 < ln 2)%R.
Proof. rewrite <- ln_1. apply ln_increasing; lra. Qed.

Lemma or_one_pos (n : Z) : 0 <= n -> 1 <= or_one n.
Proof. unfold or_one. destruct (Z.eqb_spec n 0); lia. Qed.

Lemma charSpace_nonneg (p : string) : 0 <= charSpace p.
Proof.
  unfold charSpace.
  destruct (Regex.re_lower p), (Regex.re_upper p), (Regex.re_digit p),
    (Regex.re_special p); lia.
Qed.

Lemma ln_IZR_pow (c : Z) (n : nat) :
  0 < c -> ln (IZR (c ^ Z.of_nat n)) = (INR n * ln (IZR c))%R.
Proof.
  intros Hc. rewrite <- pow_IZR. apply ln_pow. now apply IZR_lt.
Qed.

(** [n * log2 c > t] on the reals is [c ^ n > 2 ^ t] on the integers. *)
Lemma log2_scaled_gt (c t : Z) (n : nat) :
  0 < c -> 0 <= t ->
  (INR n * log2 (IZR c) > IZR t)%R <-> 2 ^ t < c ^ Z.of_nat n.
Proof.
  intros Hc Ht. unfold log2.
  assert (Hl := ln_2_pos).
  assert (Hc' : (0 < IZR (c ^ Z.of_nat n))%R)
    by (apply IZR_lt; apply Z.pow_pos_nonneg; lia).
  assert (Ht' : (0 < IZR (2 ^ t))%R)
    by (apply IZR_lt; apply Z.pow_pos_nonneg; lia).
  assert (E1 : (INR n * (ln (IZR c) / ln 2)
                = ln (IZR (c ^ Z.of_nat n)) / ln 2)%R).
  { rewrite ln_IZR_pow by assumption. field. lra. }
  assert (E2 : (IZR t = ln (IZR (2 ^ t)) / ln 2)%R).
  { rewrite <- (Z2Nat.id t) at 2 by assumption.
    rewrite ln_IZR_pow by lia. rewrite INR_IZR_INZ, Z2Nat.id by assumption.
    field. lra. }
  rewrite E1, E2. split.
  - intros H. apply lt_IZR. apply ln_lt_inv; try assumption.
    apply Rmult_lt_reg_r with (/ ln 2)%R.
    + now apply Rinv_0_lt_compat.
    + exact H.
  - intros H. apply IZR_lt in H. apply ln_increasing in H; [|assumption].
    unfold Rdiv. apply Rmult_lt_compat_r;
      [now apply Rinv_0_lt_compat | exact H].
Qed.

(** ** Lemmas on the numbers *)

Lemma Rltb_true (x y : R) : (x < y)%R -> Rltb x y = true.
Proof. intros H. unfold Rltb. now destruct (Rlt_dec x y). Qed.

Lemma Rltb_false (x y : R) : (y <= x)%R -> Rltb x y = false.
Proof. intros H. unfold Rltb. destruct (Rlt_dec x y); [lra | reflexivity]. Qed.

Lemma Reqb_false (x y : R) : x <> y -> Reqb x y = false.
Proof. intros H. unfold Reqb. now destruct (Req_dec_T x y). Qed.

Lemma Reqb_refl (x : R) : Reqb x x = true.
Proof. unfold Reqb. now destruct (Req_dec_T x x). Qed.

(** [Math.log2] applied to zero, which the guard of [calculateEntropy]
    avoids. *)
Lemma Math_log2_0 : Math_log2 (Finite 0) = NegInfinity.
Proof.
  unfold Math_log2. now rewrite Rltb_false, Reqb_refl by lra.
Qed.

Lemma Math_log2_positive (x : R) :
  (0 < x)%R -> Math_log2 (Finite x) = Finite (log2 x).
Proof.
  intros H. unfold Math_log2.
  rewrite Rltb_false by lra. rewrite Reqb_false by lra. reflexivity.
Qed.

Lemma Math_pow2_below (e : R) :
  (e < 1024)%R -> Math_pow2 (Finite e) = Finite (Rpower 2 e).
Proof. intros H. unfold Math_pow2. now rewrite Rltb_true. Qed.

Lemma Math_pow2_overflow (e : R) :
  (1024 <= e)%R -> Math_pow2 (Finite e) = PosInfinity.
Proof. intros H. unfold Math_pow2. now rewrite Rltb_false. Qed.

Lemma Int_part_IZR (z : Z) : Int_part (IZR z) = z.
Proof.
  unfold Int_part. rewrite <- (tech_up (IZR z) (z + 1)).
  - lia.
  - rewrite plus_IZR. lra.
  - rewrite plus_IZR. lra.
Qed.

Lemma show_rounded (x : R) :
  show_d (Math_round_d (Finite x)) = show (Math_round x).
Proof. cbn [Math_round_d show_d]. now rewrite Int_part_IZR. Qed.

(** ** Lemmas on the entropy *)

(** The guard keeps the argument of [Math.log2] at 1 or above, so the
    entropy is a finite number. *)
Lemma calculateEntropy_finite (p : string) :
  calculateEntropy p
  = Finite (INR (String.length p) * log2 (IZR (or_one (charSpace p)))).
Proof.
  unfold calculateEntropy.
  pose proof (or_one_pos _ (charSpace_nonneg p)) as Hc.
  rewrite Math_log2_positive by (apply IZR_lt; lia).
  reflexivity.
Qed.

Lemma entropy_bits_nonneg (p : string) :
  (0 <= INR (String.length p) * log2 (IZR (or_one (charSpace p))))%R.
Proof.
  pose proof (or_one_pos _ (charSpace_nonneg p)) as Hc.
  apply Rmult_le_pos; [apply pos_INR |].
  unfold log2. apply Rmult_le_pos.
  - rewrite <- ln_1. apply IZR_le in Hc.
    destruct Hc as [Hc | <-]; [left; apply ln_increasing; lra | apply Rle_refl].
  - left. apply Rinv_0_lt_compat, ln_2_pos.
Qed.

(** The scorer's floating comparison [entropy > t] agrees with the integer
    decision procedure. *)
Lemma gt_d_entropy (p : string) (t : Z) :
  0 <= t -> gt_d (calculateEntropy p) (Finite (IZR t)) = entropy_gtb p t.
Proof.
  intros Ht. rewrite calculateEntropy_finite.
  unfold gt_d, Rgtb, entropy_gtb, len.
  pose proof (or_one_pos _ (charSpace_nonneg p)) as Hc.
  pose proof (log2_scaled_gt (or_one (charSpace p)) t (String.length p)
                ltac:(lia) Ht) as H.
  destruct (Rgt_dec _ _) as [Hg | Hg]; symmetry.
  - apply Z.ltb_lt. now apply H.
  - apply Z.ltb_ge. apply Z.nlt_ge. intro Hlt. apply Hg. now apply H.
Qed.

(** ** Lemmas on the character tests *)

Lemma test_class_contains (cls : ascii -> bool) (s : string) :
  Regex.test_class cls s = true <-> contains cls s.
Proof.
  unfold contains. induction s as [| a s IH]; simpl.
  - split; [discriminate |].
    intros (pre & c & post & H & _). destruct pre; discriminate.
  - rewrite orb_true_iff, IH. split.
    + intros [Ha | (pre & c & post & -> & Hc)].
      * now exists EmptyString, a, s.
      * now exists (String a pre), c, post.
    + intros (pre & c & post & H & Hc). destruct pre as [| b pre]; simpl in H.
      * injection H as -> ->. now left.
      * injection H as -> ->. right. now exists pre, c, post.
Qed.

(** ** Lemmas on the fields of the result *)

Lemma score_analyzePassword (c : ascii) (s : string) :
  score (analyzePassword (String c s))
  = clamp (score_patterns (String c s)
             (score_credits (String c s) (make_checks (String c s))
                (calculateEntropy (String c s)))).
Proof. open_analysis. reflexivity. Qed.

Lemma strength_analyzePassword (p : string) :
  strength (analyzePassword p) = fst (tier_of_score (score (analyzePassword p))).
Proof.
  destruct p as [| c s]; [reflexivity |].
  unfold analyzePassword; cbv beta iota zeta.
  destruct (tier_of_score _) eqn:E. cbn [score strength]. now rewrite E.
Qed.

Lemma suggestions_analyzePassword (c : ascii) (s : string) :
  suggestions (analyzePassword (String c s))
  = make_suggestions (String c s) (make_checks (String c s)).
Proof. open_analysis. reflexivity. Qed.

Lemma timeToCrack_analyzePassword (p : string) :
  p <> "" ->
  timeToCrack (analyzePassword p) = calculateCrackTime (calculateEntropy p).
Proof.
  destruct p as [| c s]; [contradiction |]. intros _.
  open_analysis. reflexivity.
Qed.

Lemma clamp_range (s : Z) : 0 <= clamp s <= 100.
Proof. unfold clamp. lia. Qed.

Lemma score_range (p : string) : 0 <= score (analyzePassword p) <= 100.
Proof.
  destruct p as [| c s]; [simpl; lia |].
  rewrite score_analyzePassword. apply clamp_range.
Qed.

Lemma tier_of_score_table (s : Z) :
  (90 <= s -> fst (tier_of_score s) = VeryStrong)
  /\ (75 <= s < 90 -> fst (tier_of_score s) = Strong)
  /\ (60 <= s < 75 -> fst (tier_of_score s) = Good)
  /\ (40 <= s < 60 -> fst (tier_of_score s) = Fair)
  /\ (20 <= s < 40 -> fst (tier_of_score s) = Weak)
  /\ (s < 20 -> fst (tier_of_score s) = VeryWeak).
Proof.
  unfold tier_of_score.
  destruct (Z.geb_spec s 90), (Z.geb_spec s 75), (Z.geb_spec s 60),
    (Z.geb_spec s 40), (Z.geb_spec s 20); simpl;
    repeat split; intros; solve [reflexivity | lia].
Qed.

Lemma tier_of_score_monotone (s1 s2 : Z) :
  s1 <= s2 ->
  tier_rank (fst (tier_of_score s1)) <= tier_rank (fst (tier_of_score s2)).
Proof.
  intros H. unfold tier_of_score.
  destruct (Z.geb_spec s1 90), (Z.geb_spec s1 75), (Z.geb_spec s1 60),
    (Z.geb_spec s1 40), (Z.geb_spec s1 20),
    (Z.geb_spec s2 90), (Z.geb_spec s2 75), (Z.geb_spec s2 60),
    (Z.geb_spec s2 40), (Z.geb_spec s2 20); simpl; lia.
Qed.

(** The scorer with its entropy comparisons decided on integers. *)
Lemma score_credits_decided (p : string) (checks : Checks) :
  score_credits p checks (calculateEntropy p)
  = score_credits_dec p checks.
Proof.
  unfold score_credits, score_credits_dec.
  now rewrite !gt_d_entropy by lia.
Qed.

(** ** Lemmas on the breach checker and the handler *)

Lemma len_nonempty (c : ascii) (s : string) : (len (String c s) >? 0) = true.
Proof. unfold len. simpl String.length. apply Z.gtb_lt. lia. Qed.

Lemma checkPasswordBreach_returns (env : Env) (p : string) (st : State) :
  exists info st', checkPasswordBreach env p st = (Return info, st').
Proof.
  unfold checkPasswordBreach, try_catch.
  destruct (lookup env p st) as [[info | e] st1]; [now eauto |].
  unfold bind, console_error, ret. eauto.
Qed.

Lemma query_provider_fails (env : Env) (p : string) (st : State) :
  provider_failure env p ->
  exists e st', query_provider env p st = (Throw e, st')
    /\ breachCache st' = breachCache st.
Proof.
  intros H. unfold query_provider, bind, do_fetch, throw. cbv zeta.
  destruct H as [H | body H | H | data e H Hs];
    unfold url_of in H; rewrite H; try (eexists _, _; split; reflexivity).
  unfold suffix_of in Hs. cbv zeta in Hs. rewrite Hs.
  eexists _, _; split; reflexivity.
Qed.

Lemma lookup_fails (env : Env) (p : string) (st : State) :
  cache_stale env p st -> provider_failure env p ->
  exists e st', lookup env p st = (Throw e, st')
    /\ breachCache st' = breachCache st.
Proof.
  intros Hstale Hfail. unfold lookup, bind, cache_get, cache_stale in *.
  destruct (Map_get (breachCache st) p) as [cached |].
  - unfold now at 1. cbv beta iota.
    apply Z.ltb_ge in Hstale. rewrite Hstale.
    destruct (query_provider_fails env p
      (mkState (breachCache st) (S (clock_reads st)) (requests st)
         (console st) (db_writes st)) Hfail) as (e & st' & E & Hc).
    exists e, st'. split; [exact E | exact Hc].
  - now apply query_provider_fails.
Qed.

Lemma checkPasswordBreach_fallback (env : Env) (p : string) (st : State) :
  cache_stale env p st -> provider_failure env p ->
  exists st', checkPasswordBreach env p st
              = (Return (mkBreachInfo false (Num 0)), st')
    /\ breachCache st' = breachCache st.
Proof.
  intros Hstale Hfail.
  destruct (lookup_fails env p st Hstale Hfail) as (e & st1 & E & Hc).
  unfold checkPasswordBreach, try_catch. rewrite E.
  unfold bind, console_error, ret. eexists. split; [reflexivity | exact Hc].
Qed.

(** Whatever is raised inside the [try] block ends as not breached. *)
Lemma checkPasswordBreach_swallows (env : Env) (p : string) (st st1 : State)
    (e : string) :
  lookup env p st = (Throw e, st1) ->
  exists st', checkPasswordBreach env p st
              = (Return (mkBreachInfo false (Num 0)), st')
    /\ breachCache st' = breachCache st1.
Proof.
  intros E. unfold checkPasswordBreach, try_catch. rewrite E.
  unfold bind, console_error, ret. eexists. split; reflexivity.
Qed.

Lemma query_provider_throws (env : Env) (p : string) (st st1 : State)
    (e : string) :
  query_provider env p st = (Throw e, st1) -> provider_failure env p.
Proof.
  unfold query_provider, bind, do_fetch, throw. cbv zeta.
  destruct (fetch env (range_url ++ substring 0 5 (toUpperCase (sha1_hex env p))))
    as [| [|] [data |]] eqn:F; intros H.
  - now apply network_error.
  - destruct (scan_lines _ _) as [[result |] | e'] eqn:S.
    + discriminate H.
    + discriminate H.
    + now apply (malformed_line env p data e').
  - now apply unreadable_body.
  - now apply (bad_status env p (Some data)).
  - now apply (bad_status env p None).
Qed.

(** The four provider failures are the only way the [try] block raises. *)
Lemma lookup_throws (env : Env) (p : string) (st st1 : State) (e : string) :
  lookup env p st = (Throw e, st1) ->
  cache_stale env p st /\ provider_failure env p.
Proof.
  unfold lookup, bind, cache_get, cache_stale.
  destruct (Map_get (breachCache st) p) as [cached |].
  - unfold now at 1. cbv beta iota.
    destruct (Z.ltb_spec (Date_now env (clock_reads st) - timestamp cached)
                3600000) as [Hfresh | Hstale]; [discriminate |].
    intros Hq. split; [exact Hstale |].
    now apply query_provider_throws in Hq.
  - intros Hq. split; [exact I |]. now apply query_provider_throws in Hq.
Qed.

Lemma analyze_and_check_empty (env : Env) (st : State) :
  analyze_and_check env "" st = (Return (analyzePassword ""), st).
Proof. reflexivity. Qed.

Lemma analyze_and_check_nonempty (env : Env) (p : string) (st st1 : State)
    (info : BreachInfo) :
  p <> "" ->
  checkPasswordBreach env p st = (Return info, st1) ->
  analyze_and_check env p st
  = (Return (apply_breach env (analyzePassword p) info), st1).
Proof.
  intros Hp H. destruct p as [| c s]; [contradiction |].
  unfold analyze_and_check. rewrite len_nonempty.
  unfold bind. now rewrite H.
Qed.

Lemma analyze_and_check_returns (env : Env) (p : string) (st : State) :
  exists a st', analyze_and_check env p st = (Return a, st')
    /\ (a = analyzePassword p
        \/ exists info, a = apply_breach env (analyzePassword p) info).
Proof.
  destruct p as [| c s].
  - exists (analyzePassword ""), st. split; [reflexivity | now left].
  - destruct (checkPasswordBreach_returns env (String c s) st)
      as (info & st1 & E).
    exists (apply_breach env (analyzePassword (String c s)) info), st1.
    split; [| right; now exists info].
    apply analyze_and_check_nonempty; [discriminate | exact E].
Qed.

(** What the handler replies once analysis and breach step are done. *)
Lemma handler_reply (env : Env) (p : string) (save : bool)
    (user : option string) (st st1 : State) (a : PasswordAnalysisResponse) :
  analyze_and_check env p st = (Return a, st1) ->
  exists st',
    handlePasswordAnalysis env (VString p) save user st
    = (Return (if database_fails env save user p
               then JsonError 500 "Internal server error"
               else Json 200 a), st')
    /\ requests st' = requests st1
    /\ breachCache st' = breachCache st1
    /\ clock_reads st' = clock_reads st1.
Proof.
  intros H.
  unfold handlePasswordAnalysis, try_catch, handle, bind. rewrite H.
  unfold database_fails, history_requested, db_write, console_error, ret.
  destruct (passwordCheckDb_log_throws env); cbn [orb].
  - eexists. repeat split.
  - destruct user as [id |]; cbn [andb].
    + destruct (save && (len p >? 0)); cbn [andb].
      * destruct (passwordHistoryDb_add_throws env);
          eexists; repeat split.
      * eexists. repeat split.
    + eexists. repeat split.
Qed.

(** ** The breach override *)

Lemma apply_breach_clean (env : Env) (a : PasswordAnalysisResponse)
    (count : JSNumber) :
  let a' := apply_breach env a (mkBreachInfo false count) in
  score a' = score a /\ strength a' = strength a /\ color a' = color a
  /\ suggestions a' = suggestions a /\ entropy a' = entropy a
  /\ crackTime a' = crackTime a /\ timeToCrack a' = timeToCrack a
  /\ checks a' = checks a
  /\ isBreached a' = Some false /\ breachCount a' = Some count.
Proof. cbv zeta. unfold apply_breach. cbn. repeat split. Qed.

Lemma apply_breach_hit (env : Env) (a : PasswordAnalysisResponse)
    (count : JSNumber) :
  let a' := apply_breach env a (mkBreachInfo true count) in
  score a' = Z.min (score a) 30
  /\ strength a' = (if score a' >=? 25 then Weak else VeryWeak)
  /\ suggestions a' = breach_warning env count :: suggestions a
  /\ isBreached a' = Some true /\ breachCount a' = Some count.
Proof. cbv zeta. unfold apply_breach, breached_tier, capped_score. cbn. repeat split. Qed.

(** C1: for a non-empty password that the breach checker reports as
    breached with a positive count, the handler replies with a result whose
    score is the minimum of the pre-breach score and 30 (hence at most 30),
    whose tier is Weak from 25 up and Very Weak below (which differs from
    the six-level table on 20..24), and whose suggestion list is the breach
    warning followed by the pre-breach suggestions. *)
Theorem C1_breach_override (env : Env) (p : string) (save : bool)
    (user : option string) (st st1 : State) (n : Z) :
  p <> "" ->
  checkPasswordBreach env p st = (Return (mkBreachInfo true (Num n)), st1) ->
  0 < n ->
  database_fails env save user p = false ->
  exists a st',
    handlePasswordAnalysis env (VString p) save user st
    = (Return (Json 200 a), st')
    /\ score a = Z.min (score (analyzePassword p)) 30
    /\ score a <= 30
    /\ strength a = (if score a >=? 25 then Weak else VeryWeak)
    /\ (20 <= score a < 25 ->
        strength a = VeryWeak /\ fst (tier_of_score (score a)) = Weak)
    /\ suggestions a
       = breach_warning env (Num n) :: suggestions (analyzePassword p)
    /\ isBreached a = Some true
    /\ breachCount a = Some (Num n).
Proof.
  intros Hp Hbreach Hn Hdb.
  pose proof (analyze_and_check_nonempty env p st st1 _ Hp Hbreach) as Ha.
  destruct (handler_reply env p save user st st1 _ Ha) as (st' & Hr & _).
  rewrite Hdb in Hr.
  destruct (apply_breach_hit env (analyzePassword p) (Num n))
    as (Hs & Ht & Hsug & Hb & Hc).
  eexists _, st'. split; [exact Hr |].
  split; [exact Hs |]. split; [lia |]. split; [exact Ht |].
  split; [| now repeat split].
  intros Hrange. split.
  - rewrite Ht. destruct (Z.geb_spec
      (score (apply_breach env (analyzePassword p)
                (mkBreachInfo true (Num n)))) 25); [lia | reflexivity].
  - apply tier_of_score_table. lia.
Qed.

Lemma C1_breach_override_witness :
  exists a st',
    handlePasswordAnalysis (sample_env (HttpResponse true (Some sample_body)))
      (VString "password") true (Some "u1") initial_state
    = (Return (Json 200 a), st')
    /\ score a = Z.min (score (analyzePassword "password")) 30
    /\ score a <= 30
    /\ strength a = (if score a >=? 25 then Weak else VeryWeak)
    /\ (20 <= score a < 25 ->
        strength a = VeryWeak /\ fst (tier_of_score (score a)) = Weak)
    /\ suggestions a
       = breach_warning (sample_env (HttpResponse true (Some sample_body)))
           (Num 3730471)
         :: suggestions (analyzePassword "password")
    /\ isBreached a = Some true
    /\ breachCount a = Some (Num 3730471).
Proof.
  eapply (C1_breach_override
            (sample_env (HttpResponse true (Some sample_body)))
            "password" true (Some "u1") initial_state).
  - discriminate.
  - vm_compute. reflexivity.
  - reflexivity.
  - reflexivity.
Defined.

(** ** Score range and tier *)

Lemma apply_breach_range (env : Env) (a : PasswordAnalysisResponse)
    (info : BreachInfo) :
  0 <= score a <= 100 ->
  0 <= score (apply_breach env a info) <= 100.
Proof.
  intros H. destruct info as [[|] count].
  - destruct (apply_breach_hit env a count) as (-> & _). lia.
  - destruct (apply_breach_clean env a count) as (-> & _). exact H.
Qed.

Lemma apply_breach_tier (env : Env) (a : PasswordAnalysisResponse)
    (info : BreachInfo) :
  strength a = fst (tier_of_score (score a)) ->
  isBreached (apply_breach env a info) <> Some true ->
  strength (apply_breach env a info)
  = fst (tier_of_score (score (apply_breach env a info))).
Proof.
  intros H Hb. destruct info as [[|] count].
  - destruct (apply_breach_hit env a count) as (_ & _ & _ & E & _).
    contradiction.
  - destruct (apply_breach_clean env a count) as (-> & -> & _). exact H.
Qed.

(** C2: the score of every analysis lies in 0..100 and its tier is the
    six-level, first-match-wins mapping of the score (90 Very Strong, 75
    Strong, 60 Good, 40 Fair, 20 Weak, else Very Weak), a mapping that never
    decreases as the score grows; the same holds of the result the handler
    sends, the tier part whenever the breach status is not positive. *)
Theorem C2_score_range_and_tier :
  (forall p,
      0 <= score (analyzePassword p) <= 100
      /\ strength (analyzePassword p)
         = fst (tier_of_score (score (analyzePassword p))))
  /\ (forall s,
         (90 <= s -> fst (tier_of_score s) = VeryStrong)
         /\ (75 <= s < 90 -> fst (tier_of_score s) = Strong)
         /\ (60 <= s < 75 -> fst (tier_of_score s) = Good)
         /\ (40 <= s < 60 -> fst (tier_of_score s) = Fair)
         /\ (20 <= s < 40 -> fst (tier_of_score s) = Weak)
         /\ (s < 20 -> fst (tier_of_score s) = VeryWeak))
  /\ (forall s1 s2,
         s1 <= s2 ->
         tier_rank (fst (tier_of_score s1))
         <= tier_rank (fst (tier_of_score s2)))
  /\ (forall env p save user st,
         exists reply st',
           handlePasswordAnalysis env (VString p) save user st
           = (Return reply, st')
           /\ match reply with
              | Json status a =>
                  status = 200
                  /\ database_fails env save user p = false
                  /\ 0 <= score a <= 100
                  /\ (isBreached a <> Some true ->
                      strength a = fst (tier_of_score (score a)))
              | JsonError status _ =>
                  status = 500 /\ database_fails env save user p = true
              end).
Proof.
  split; [| split; [| split]].
  - intros p. split; [apply score_range | apply strength_analyzePassword].
  - apply tier_of_score_table.
  - apply tier_of_score_monotone.
  - intros env p save user st.
    destruct (analyze_and_check_returns env p st) as (a & st1 & Ha & Hshape).
    destruct (handler_reply env p save user st st1 a Ha) as (st' & Hr & _).
    eexists _, st'. split; [exact Hr |].
    destruct (database_fails env save user p); [now split |].
    split; [reflexivity |]. split; [reflexivity |].
    destruct Hshape as [-> | (info & ->)].
    + split; [apply score_range |]. intros _. apply strength_analyzePassword.
    + split.
      * apply apply_breach_range, score_range.
      * apply apply_breach_tier, strength_analyzePassword.
Qed.

(** ** Provider failures *)

(** X26: when the lookup has to go to the provider and an error is raised
    there (network error, non-success status, unreadable body, or a matching
    line with no colon to take it apart at), [checkPasswordBreach] returns
    not breached with count 0 and leaves the cache as it was, and the
    handler, its database writes succeeding, replies 200 with the complete
    analysis of the password, breach fields set to false and 0. *)
Theorem X26_raised_errors_swallowed (env : Env) (p : string) (save : bool)
    (user : option string) (st : State) :
  p <> "" ->
  cache_stale env p st ->
  provider_failure env p ->
  database_fails env save user p = false ->
  (exists st1,
      checkPasswordBreach env p st
      = (Return (mkBreachInfo false (Num 0)), st1)
      /\ breachCache st1 = breachCache st)
  /\ exists a st',
       handlePasswordAnalysis env (VString p) save user st
       = (Return (Json 200 a), st')
       /\ isBreached a = Some false
       /\ breachCount a = Some (Num 0)
       /\ score a = score (analyzePassword p)
       /\ strength a = strength (analyzePassword p)
       /\ color a = color (analyzePassword p)
       /\ suggestions a = suggestions (analyzePassword p)
       /\ entropy a = entropy (analyzePassword p)
       /\ crackTime a = crackTime (analyzePassword p)
       /\ timeToCrack a = timeToCrack (analyzePassword p)
       /\ checks a = checks (analyzePassword p).
Proof.
  intros Hp Hstale Hfail Hdb.
  destruct (checkPasswordBreach_fallback env p st Hstale Hfail)
    as (st1 & Hcheck & Hcache).
  split; [now exists st1 |].
  pose proof (analyze_and_check_nonempty env p st st1 _ Hp Hcheck) as Ha.
  destruct (handler_reply env p save user st st1 _ Ha) as (st' & Hr & _).
  rewrite Hdb in Hr.
  eexists _, st'. split; [exact Hr |].
  destruct (apply_breach_clean env (analyzePassword p) (Num 0))
    as (? & ? & ? & ? & ? & ? & ? & ? & ? & ?).
  repeat split; assumption.
Qed.

Lemma X26_raised_errors_swallowed_witness :
  (exists st1,
      checkPasswordBreach (sample_env NetworkError) "password" initial_state
      = (Return (mkBreachInfo false (Num 0)), st1)
      /\ breachCache st1 = breachCache initial_state)
  /\ exists a st',
       handlePasswordAnalysis (sample_env NetworkError) (VString "password")
         true (Some "u1") initial_state
       = (Return (Json 200 a), st')
       /\ isBreached a = Some false
       /\ breachCount a = Some (Num 0)
       /\ score a = score (analyzePassword "password")
       /\ strength a = strength (analyzePassword "password")
       /\ color a = color (analyzePassword "password")
       /\ suggestions a = suggestions (analyzePassword "password")
       /\ entropy a = entropy (analyzePassword "password")
       /\ crackTime a = crackTime (analyzePassword "password")
       /\ timeToCrack a = timeToCrack (analyzePassword "password")
       /\ checks a = checks (analyzePassword "password").
Proof.
  apply (X26_raised_errors_swallowed (sample_env NetworkError) "password"
           true (Some "u1") initial_state).
  - discriminate.
  - exact I.
  - apply network_error. reflexivity.
  - reflexivity.
Defined.

(** C3, where the code departs from it: a matching line whose count is not
    a number is a parsing error that raises nothing, since [parseInt] gives
    [NaN] for it.  Such a response is not turned into a negative result:
    the breach checker reports the password as breached with count [NaN]
    and caches that verdict, and the handler replies 200 with the breach
    fields true and [NaN], the score capped at 30 and the breach warning in
    front of the suggestions.  The sibling case of a matching line without
    a colon does get the negative result. *)
Theorem C3_unparsable_count_reported_as_breach :
  let body := "1E4C9B93F3F0682250B6CF8331B7EE68FD8:many" in
  let env := sample_env (HttpResponse true (Some body)) in
  parseInt "many" = NaN
  /\ (exists st1,
        checkPasswordBreach env "password" initial_state
        = (Return (mkBreachInfo true NaN), st1)
        /\ Map_get (breachCache st1) "password"
           = Some (mkCacheEntry true NaN 1700000000000))
  /\ (exists a st',
        handlePasswordAnalysis env (VString "password") false None
          initial_state
        = (Return (Json 200 a), st')
        /\ isBreached a = Some true
        /\ breachCount a = Some NaN
        /\ score a = Z.min (score (analyzePassword "password")) 30
        /\ suggestions a
           = breach_warning env NaN :: suggestions (analyzePassword "password"))
  /\ fst (checkPasswordBreach
            (sample_env
               (HttpResponse true
                  (Some "1E4C9B93F3F0682250B6CF8331B7EE68FD8")))
            "password" initial_state)
     = Return (mkBreachInfo false (Num 0)).
Proof.
  cbv zeta. split; [vm_compute; reflexivity |].
  split; [eexists; split; vm_compute; reflexivity |].
  split; [| vm_compute; reflexivity].
  set (env := sample_env _).
  assert (Hbreach : checkPasswordBreach env "password" initial_state
                    = (Return (mkBreachInfo true NaN),
                       snd (checkPasswordBreach env "password" initial_state)))
    by (vm_compute; reflexivity).
  pose proof (analyze_and_check_nonempty env "password" initial_state _ _
                ltac:(discriminate) Hbreach) as Ha.
  destruct (handler_reply env "password" false None initial_state _ _ Ha)
    as (st' & Hr & _).
  destruct (apply_breach_hit env (analyzePassword "password") NaN)
    as (Hs & _ & Hsug & Hb & Hc).
  eexists _, st'. split; [exact Hr |].
  split; [exact Hb |]. split; [exact Hc |]. split; [exact Hs | exact Hsug].
Qed.

(** ** The empty password *)

(** C4: the empty password gets the canned result: score 0, tier Very Weak,
    entropy 0, exactly one suggestion, every check false, breach fields
    unset; the handler performs no lookup for it (no request is sent, the
    cache and the clock are untouched) and, the check log succeeding,
    replies with exactly that result. *)
Theorem C4_empty_password :
  score (analyzePassword "") = 0
  /\ strength (analyzePassword "") = VeryWeak
  /\ strength_label (strength (analyzePassword "")) = "Very Weak"
  /\ entropy (analyzePassword "") = Finite 0
  /\ suggestions (analyzePassword "") = ["Enter a password to get started"]
  /\ List.length (suggestions (analyzePassword "")) = 1%nat
  /\ checks (analyzePassword "")
     = mkChecks false false false false false false
  /\ isBreached (analyzePassword "") = None
  /\ breachCount (analyzePassword "") = None
  /\ forall env save user st,
       analyze_and_check env "" st = (Return (analyzePassword ""), st)
       /\ exists reply st',
            handlePasswordAnalysis env (VString "") save user st
            = (Return reply, st')
            /\ requests st' = requests st
            /\ breachCache st' = breachCache st
            /\ clock_reads st' = clock_reads st
            /\ reply = (if passwordCheckDb_log_throws env
                        then JsonError 500 "Internal server error"
                        else Json 200 (analyzePassword "")).
Proof.
  do 9 (split; [reflexivity |]).
  intros env save user st. split; [reflexivity |].
  destruct (handler_reply env "" save user st st _
              (analyze_and_check_empty env st)) as (st' & Hr & H1 & H2 & H3).
  eexists _, st'. split; [exact Hr |]. repeat (split; [assumption |]).
  unfold database_fails, history_requested.
  destruct user; cbn; now rewrite ?andb_false_r, ?orb_false_r.
Qed.

(** ** Long passwords with all four classes *)

Lemma if_add (b : bool) (s k : Z) :
  (if b then s + k else s) = s + (if b then k else 0).
Proof. destruct b; lia. Qed.

Lemma if_sub (b : bool) (s k : Z) :
  (if b then s - k else s) = s - (if b then k else 0).
Proof. destruct b; lia. Qed.

(** The credits are the sum of the separate contributions, and the entropy
    bonus lies between 0 and 25. *)
Lemma score_credits_bounds (p : string) (checks : Checks) :
  let base := (if hasLength checks then 20 else 0)
    + (if len p >=? 12 then 10 else 0)
    + (if len p >=? 16 then 10 else 0)
    + (if len p >=? 20 then 5 else 0)
    + (if hasUppercase checks then 15 else 0)
    + (if hasLowercase checks then 15 else 0)
    + (if hasNumbers checks then 15 else 0)
    + (if hasSpecialChars checks then 20 else 0)
    - (if isCommon checks then 40 else 0) in
  base <= score_credits p checks (calculateEntropy p) <= base + 25.
Proof.
  cbv zeta. unfold score_credits. rewrite !if_add, if_sub.
  destruct (gt_d (calculateEntropy p) (Finite 40)),
    (gt_d (calculateEntropy p) (Finite 60)),
    (gt_d (calculateEntropy p) (Finite 80)); lia.
Qed.

(** C5: a password of at least 16 characters that holds a lowercase
    letter, an uppercase letter, a digit and a special symbol, whose
    lowercasing is not on the denylist and on which none of the three
    pattern tests fires, scores at least 75 and is Strong or Very Strong. *)
Theorem C5_long_four_class_password (p : string) :
  16 <= len p ->
  contains Chars.is_lower p ->
  contains Chars.is_upper p ->
  contains Chars.is_digit p ->
  contains Chars.is_special p ->
  includes COMMON_PASSWORDS (toLowerCase p) = false ->
  Regex.test_repeat p = false ->
  Regex.re_sequential_numbers p = false ->
  Regex.re_sequential_letters p = false ->
  75 <= score (analyzePassword p)
  /\ (strength (analyzePassword p) = Strong
      \/ strength (analyzePassword p) = VeryStrong).
Proof.
  intros Hlen Hlo Hup Hdi Hsp Hcommon Hrep Hnum Hlet.
  apply test_class_contains in Hlo, Hup, Hdi, Hsp.
  assert (Hscore : 75 <= score (analyzePassword p)).
  { destruct p as [| c s]; [unfold len in Hlen; simpl in Hlen; lia |].
    rewrite score_analyzePassword.
    unfold score_patterns. rewrite Hrep, Hnum, Hlet.
    pose proof (score_credits_bounds (String c s) (make_checks (String c s)))
      as Hb.
    cbv zeta in Hb. unfold make_checks in Hb at 1 2 3 4 5 6.
    cbn [hasLength hasUppercase hasLowercase hasNumbers hasSpecialChars
         isCommon] in Hb.
    unfold Regex.re_lower, Regex.re_upper, Regex.re_digit, Regex.re_special
      in Hb.
    rewrite Hlo, Hup, Hdi, Hsp, Hcommon in Hb.
    destruct (Z.geb_spec (len (String c s)) 8); [| lia].
    destruct (Z.geb_spec (len (String c s)) 12); [| lia].
    destruct (Z.geb_spec (len (String c s)) 16); [| lia].
    destruct (len (String c s) >=? 20); unfold clamp; lia. }
  split; [exact Hscore |].
  rewrite strength_analyzePassword.
  destruct (tier_of_score_table (score (analyzePassword p)))
    as (H90 & H75 & _).
  destruct (Z_lt_le_dec (score (analyzePassword p)) 90).
  - left. apply H75. lia.
  - right. now apply H90.
Qed.

Lemma C5_long_four_class_password_witness :
  75 <= score (analyzePassword "Correct-Horse7!Battery")
  /\ (strength (analyzePassword "Correct-Horse7!Battery") = Strong
      \/ strength (analyzePassword "Correct-Horse7!Battery") = VeryStrong).
Proof.
  apply C5_long_four_class_password.
  - vm_compute. discriminate.
  - apply test_class_contains. vm_compute. reflexivity.
  - apply test_class_contains. vm_compute. reflexivity.
  - apply test_class_contains. vm_compute. reflexivity.
  - apply test_class_contains. vm_compute. reflexivity.
  - vm_compute. reflexivity.
  - vm_compute. reflexivity.
  - vm_compute. reflexivity.
  - vm_compute. reflexivity.
Defined.

(** ** The password [password] *)

(** C9: [password] is on the denylist and only has lowercase letters; its
    credits are 20 for length and 15 for lowercase, the denylist penalty
    brings the sum to -5, which is clamped to 0; the tier is Very Weak and
    the suggestions include the advice against common passwords, in the
    analysis and in whatever the handler sends. *)
Theorem C9_password_scenario :
  includes COMMON_PASSWORDS (toLowerCase "password") = true
  /\ make_checks "password" = mkChecks true false true false false true
  /\ score_patterns "password"
       (score_credits "password" (make_checks "password")
          (calculateEntropy "password")) = 20 + 15 - 40
  /\ score (analyzePassword "password") = 0
  /\ strength (analyzePassword "password") = VeryWeak
  /\ In "Avoid common passwords" (suggestions (analyzePassword "password"))
  /\ forall env save user st a st',
       handlePasswordAnalysis env (VString "password") save user st
       = (Return (Json 200 a), st') ->
       score a = 0 /\ strength a = VeryWeak
       /\ In "Avoid common passwords" (suggestions a).
Proof.
  assert (Hraw : score_patterns "password"
       (score_credits "password" (make_checks "password")
          (calculateEntropy "password")) = 20 + 15 - 40).
  { rewrite score_credits_decided. vm_compute. reflexivity. }
  assert (Hscore : score (analyzePassword "password") = 0).
  { rewrite score_analyzePassword, Hraw. reflexivity. }
  assert (Hstrength : strength (analyzePassword "password") = VeryWeak).
  { rewrite strength_analyzePassword, Hscore. reflexivity. }
  assert (Hsug : In "Avoid common passwords"
                   (suggestions (analyzePassword "password"))).
  { rewrite suggestions_analyzePassword. vm_compute. tauto. }
  do 2 (split; [vm_compute; reflexivity |]).
  do 4 (split; [assumption |]).
  intros env save user st a st' Hr.
  destruct (analyze_and_check_returns env "password" st)
    as (a0 & st1 & Ha & Hshape).
  destruct (handler_reply env "password" save user st st1 a0 Ha)
    as (st2 & Hr' & _).
  rewrite Hr in Hr'.
  destruct (database_fails env save user "password"); [discriminate |].
  injection Hr' as -> _.
  destruct Hshape as [-> | ([[|] count] & ->)].
  - split; [exact Hscore | split; [exact Hstrength | exact Hsug]].
  - destruct (apply_breach_hit env (analyzePassword "password") count)
      as (Hs & Ht & Hg & _).
    rewrite Hscore in Hs. rewrite Hs in Ht.
    rewrite Hs, Ht, Hg.
    split; [reflexivity | split; [reflexivity | right; exact Hsug]].
  - destruct (apply_breach_clean env (analyzePassword "password") count)
      as (-> & -> & _ & -> & _).
    split; [exact Hscore | split; [exact Hstrength | exact Hsug]].
Qed.

(** ** The entropy estimate *)

Lemma log2_1 : log2 1 = 0%R.
Proof. unfold log2. rewrite ln_1. unfold Rdiv. apply Rmult_0_l. Qed.

(** What the product of the length and the logarithm would be without the
    guard, for a character space of 0: never a finite number, and minus
    infinity for a password that is not empty. *)
Lemma mul_d_NegInfinity (n : nat) (x : R) :
  mul_d (Finite (INR n)) NegInfinity <> Finite x.
Proof.
  cbn [mul_d]. unfold scale_infinity.
  destruct (Reqb _ _); [discriminate |].
  destruct (xorb _ _); discriminate.
Qed.

Lemma mul_d_length_NegInfinity (n : nat) :
  (0 < n)%nat -> mul_d (Finite (INR n)) NegInfinity = NegInfinity.
Proof.
  intros H. apply lt_0_INR in H. cbn [mul_d]. unfold scale_infinity.
  rewrite Reqb_false by lra. rewrite Rltb_false by lra. reflexivity.
Qed.

Lemma calculateEntropy_classless (p : string) :
  charSpace p = 0 -> calculateEntropy p = Finite 0.
Proof.
  intros H. rewrite calculateEntropy_finite, H. cbn [or_one Z.eqb].
  now rewrite log2_1, Rmult_0_r.
Qed.

(** C7: the entropy is the length times the binary logarithm of the
    character space, the character space being 26 for lowercase, 26 for
    uppercase, 10 for digits and 32 for special symbols, summed over the
    classes that occur in the password; a character space of 0 gives
    entropy 0, where the logarithm of that 0 is minus infinity and its
    product with the length is no finite number. *)
Theorem C7_entropy_formula (p : string) :
  exists lower upper digit special : bool,
    (lower = true <-> contains Chars.is_lower p)
    /\ (upper = true <-> contains Chars.is_upper p)
    /\ (digit = true <-> contains Chars.is_digit p)
    /\ (special = true <-> contains Chars.is_special p)
    /\ charSpace p = class_sizes lower upper digit special
    /\ (charSpace p <> 0 ->
        calculateEntropy p
        = Finite (INR (String.length p) * log2 (IZR (charSpace p))))
    /\ (charSpace p = 0 ->
        calculateEntropy p = Finite 0
        /\ Math_log2 (Finite (IZR (charSpace p))) = NegInfinity
        /\ forall x : R,
             mul_d (Finite (INR (String.length p)))
               (Math_log2 (Finite (IZR (charSpace p))))
             <> Finite x).
Proof.
  exists (Regex.re_lower p), (Regex.re_upper p), (Regex.re_digit p),
    (Regex.re_special p).
  do 4 (split; [apply test_class_contains |]).
  split; [| split].
  - unfold charSpace, class_sizes.
    destruct (Regex.re_lower p), (Regex.re_upper p), (Regex.re_digit p),
      (Regex.re_special p); reflexivity.
  - intros H. rewrite calculateEntropy_finite. unfold or_one.
    destruct (Z.eqb_spec (charSpace p) 0); [contradiction | reflexivity].
  - intros H. split; [now apply calculateEntropy_classless |].
    rewrite H, Math_log2_0. split; [reflexivity |].
    intros x. apply mul_d_NegInfinity.
Qed.

(** ** The crack-time estimate *)

Lemma Math_round_nearest (x : R) :
  (- / 2 < IZR (Math_round x) - x <= / 2)%R.
Proof.
  unfold Math_round. destruct (base_Int_part (x + / 2)) as [H1 H2]. lra.
Qed.

Lemma Rpower_2_ge_1 (e : R) : (0 <= e)%R -> (1 <= Rpower 2 e)%R.
Proof.
  intros He. rewrite <- (Rpower_O 2) by lra. apply Rle_Rpower; lra.
Qed.

Lemma Rpower_2_ge_pow (n : nat) (e : R) :
  (INR n <= e)%R -> (2 ^ n <= Rpower 2 e)%R.
Proof.
  intros He. rewrite <- Rpower_pow by lra. apply Rle_Rpower; lra.
Qed.

Lemma Rpower_2_le_pow (n : nat) (e : R) :
  (e <= INR n)%R -> (Rpower 2 e <= 2 ^ n)%R.
Proof.
  intros He. rewrite <- Rpower_pow by lra. apply Rle_Rpower; lra.
Qed.

(** The seconds are the same in every branch of the cascade. *)
Lemma seconds_calculateCrackTime (entropy : Double) :
  seconds (calculateCrackTime entropy)
  = div_d (div_d (Math_pow2 entropy) 2) 1e9.
Proof.
  unfold calculateCrackTime. cbv zeta.
  repeat match goal with
         | |- context [if ?b then _ else _] => destruct b
         end; reflexivity.
Qed.

Lemma seconds_below (e : R) :
  (e < 1024)%R ->
  seconds (calculateCrackTime (Finite e))
  = Finite (Rpower 2 e / 2 / 10 ^ 9).
Proof.
  intros H. rewrite seconds_calculateCrackTime, Math_pow2_below by exact H.
  cbn [div_d]. f_equal. lra.
Qed.

Lemma seconds_overflow (e : R) :
  (1024 <= e)%R -> seconds (calculateCrackTime (Finite e)) = PosInfinity.
Proof.
  intros H. now rewrite seconds_calculateCrackTime, Math_pow2_overflow.
Qed.

(** The display, by the thresholds on 2^e / 2 / 10^9: where the power
    overflows, that number is beyond the last threshold and the display is
    Centuries as well. *)
Lemma display_calculateCrackTime (e : R) :
  let s := (Rpower 2 e / 2 / 10 ^ 9)%R in
  display (calculateCrackTime (Finite e))
  = if Rltb s 1 then "Instantly"
    else if Rltb s 60 then show (Math_round s) ++ " seconds"
    else if Rltb s 3600 then show (Math_round (s / 60)) ++ " minutes"
    else if Rltb s 86400 then show (Math_round (s / 3600)) ++ " hours"
    else if Rltb s 2629746 then show (Math_round (s / 86400)) ++ " days"
    else if Rltb s 31556952 then
      show (Math_round (s / 2629746)) ++ " months"
    else if Rltb s 315569520 then
      show (Math_round (s / 31556952)) ++ " years"
    else if Rltb s 3155695200 then
      show (Math_round (s / 315569520)) ++ " decades"
    else "Centuries".
Proof.
  cbv zeta. destruct (Rlt_dec e 1024) as [Hlt | Hge].
  - unfold calculateCrackTime. cbv zeta.
    rewrite Math_pow2_below by exact Hlt. cbn [div_d lt_d].
    rewrite !show_rounded.
    replace (Rpower 2 e / 2 / 1e9)%R with (Rpower 2 e / 2 / 10 ^ 9)%R by lra.
    repeat match goal with
           | |- context [Rltb ?x ?y] => destruct (Rltb x y)
           end; reflexivity.
  - unfold calculateCrackTime. cbv zeta.
    rewrite Math_pow2_overflow by lra. cbn [div_d lt_d display].
    assert (H : (2 ^ 1024 <= Rpower 2 e)%R).
    { apply Rpower_2_ge_pow. rewrite INR_IZR_INZ. cbn. lra. }
    assert (H63 : (2 ^ 63 <= 2 ^ 1024)%R)
      by (apply Rle_pow; [lra | lia]).
    rewrite !Rltb_false; [reflexivity | lra ..].
Qed.

(** C8: for an entropy e of at least 0 and below 1024 the estimator returns
    2^e / 2 / 10^9 seconds, a number of at least half a nanosecond; for
    every entropy of at least 0 it returns the display of the first
    threshold that number stays below: Instantly below 1, seconds below 60,
    minutes below 3600, hours below 86400, days below 2629746, months below
    31556952, years below 315569520, decades below 3155695200, Centuries
    from there on; the count shown is the quotient rounded to the nearest
    integer. *)
Theorem C8_crack_time (e : R) :
  (0 <= e)%R ->
  let t := calculateCrackTime (Finite e) in
  let s := (Rpower 2 e / 2 / 10 ^ 9)%R in
  ((e < 1024)%R -> seconds t = Finite s)
  /\ (/ 2 / 10 ^ 9 <= s)%R
  /\ (forall x : R, (- / 2 < IZR (Math_round x) - x <= / 2)%R)
  /\ ((s < 1)%R -> display t = "Instantly")
  /\ ((1 <= s < 60)%R -> display t = show (Math_round s) ++ " seconds")
  /\ ((60 <= s < 3600)%R ->
      display t = show (Math_round (s / 60)) ++ " minutes")
  /\ ((3600 <= s < 86400)%R ->
      display t = show (Math_round (s / 3600)) ++ " hours")
  /\ ((86400 <= s < 2629746)%R ->
      display t = show (Math_round (s / 86400)) ++ " days")
  /\ ((2629746 <= s < 31556952)%R ->
      display t = show (Math_round (s / 2629746)) ++ " months")
  /\ ((31556952 <= s < 315569520)%R ->
      display t = show (Math_round (s / 31556952)) ++ " years")
  /\ ((315569520 <= s < 3155695200)%R ->
      display t = show (Math_round (s / 315569520)) ++ " decades")
  /\ ((3155695200 <= s)%R -> display t = "Centuries").
Proof.
  intros He. cbv zeta.
  split; [apply seconds_below |].
  split; [pose proof (Rpower_2_ge_1 e He); lra |].
  split; [exact Math_round_nearest |].
  rewrite display_calculateCrackTime. cbv zeta.
  set (s := (Rpower 2 e / 2 / 10 ^ 9)%R).
  unfold Rltb.
  destruct (Rlt_dec s 1); [crack_case |].
  destruct (Rlt_dec s 60); [crack_case |].
  destruct (Rlt_dec s 3600); [crack_case |].
  destruct (Rlt_dec s 86400); [crack_case |].
  destruct (Rlt_dec s 2629746); [crack_case |].
  destruct (Rlt_dec s 31556952); [crack_case |].
  destruct (Rlt_dec s 315569520); [crack_case |].
  destruct (Rlt_dec s 3155695200); crack_case.
Qed.

Lemma C8_crack_time_witness :
  let t := calculateCrackTime (Finite 0) in
  let s := (Rpower 2 0 / 2 / 10 ^ 9)%R in
  ((0 < 1024)%R -> seconds t = Finite s)
  /\ (/ 2 / 10 ^ 9 <= s)%R
  /\ (forall x : R, (- / 2 < IZR (Math_round x) - x <= / 2)%R)
  /\ ((s < 1)%R -> display t = "Instantly")
  /\ ((1 <= s < 60)%R -> display t = show (Math_round s) ++ " seconds")
  /\ ((60 <= s < 3600)%R ->
      display t = show (Math_round (s / 60)) ++ " minutes")
  /\ ((3600 <= s < 86400)%R ->
      display t = show (Math_round (s / 3600)) ++ " hours")
  /\ ((86400 <= s < 2629746)%R ->
      display t = show (Math_round (s / 86400)) ++ " days")
  /\ ((2629746 <= s < 31556952)%R ->
      display t = show (Math_round (s / 2629746)) ++ " months")
  /\ ((31556952 <= s < 315569520)%R ->
      display t = show (Math_round (s / 31556952)) ++ " years")
  /\ ((315569520 <= s < 3155695200)%R ->
      display t = show (Math_round (s / 315569520)) ++ " decades")
  /\ ((3155695200 <= s)%R -> display t = "Centuries").
Proof. apply (C8_crack_time 0). apply Rle_refl. Defined.

(** C8 stops short of 1024 bits: there the power overflows and the seconds
    are infinite, not 2^e / 2 / 10^9.  Two hundred characters of the four
    classes are a password of such an entropy. *)
Lemma C8_counterexample_overflow :
  (0 <= 1024)%R
  /\ seconds (calculateCrackTime (Finite 1024)) = PosInfinity
  /\ seconds (calculateCrackTime (Finite 1024))
     <> Finite (Rpower 2 1024 / 2 / 10 ^ 9)
  /\ exists e : R,
       calculateEntropy (repeat_string "aB3!" 50) = Finite e
       /\ (1024 <= e)%R
       /\ seconds (timeToCrack (analyzePassword (repeat_string "aB3!" 50)))
          = PosInfinity.
Proof.
  split; [lra |].
  split; [apply seconds_overflow; lra |].
  split; [rewrite seconds_overflow by lra; discriminate |].
  assert (Hc : charSpace (repeat_string "aB3!" 50) = 94)
    by (vm_compute; reflexivity).
  assert (Hl : String.length (repeat_string "aB3!" 50) = 200%nat)
    by (vm_compute; reflexivity).
  assert (He : (1024 <= INR 200 * log2 (IZR 94))%R).
  { left. apply (log2_scaled_gt 94 1024 200); [lia | lia |].
    vm_compute. reflexivity. }
  eexists. split; [apply calculateEntropy_finite |].
  rewrite Hc, Hl. split; [exact He |].
  rewrite timeToCrack_analyzePassword
    by (intro H; apply (f_equal String.length) in H; rewrite Hl in H;
        discriminate H).
  rewrite calculateEntropy_finite, Hc, Hl.
  apply seconds_overflow. exact He.
Qed.

(** ** Passwords outside every class *)

Lemma crack_time_of_zero :
  display (calculateCrackTime (Finite 0)) = "Instantly".
Proof.
  rewrite display_calculateCrackTime. cbv zeta.
  rewrite Rpower_O by lra. now rewrite Rltb_true by lra.
Qed.

Lemma Math_round_0 : Math_round 0 = 0.
Proof. unfold Math_round. symmetry. apply Int_part_spec. lra. Qed.

Lemma classless_tests (p : string) :
  classless p ->
  Regex.re_lower p = false /\ Regex.re_upper p = false
  /\ Regex.re_digit p = false /\ Regex.re_special p = false.
Proof.
  intros (Hlo & Hup & Hdi & Hsp).
  unfold Regex.re_lower, Regex.re_upper, Regex.re_digit, Regex.re_special.
  repeat split; apply not_true_is_false;
    intro H; apply test_class_contains in H; contradiction.
Qed.

(** C10: a non-empty password none of whose characters is a lowercase
    letter, an uppercase letter, a digit or one of the twenty special
    symbols has character space 0.  The guard turns the 0 into 1: the
    argument of the logarithm is at least 1 for every password, the
    logarithm is taken where it is a real number, and the entropy of every
    password is a finite number that is not negative; the logarithm of the
    character space itself would be minus infinity here, and so would its
    product with the length.  The entropy of the password is 0, also as
    reported; its four class checks are false and its credits are the
    length credits less the denylist penalty, with no class credit and no
    entropy bonus; its crack time displays Instantly.  Hyphen, underscore,
    plus, semicolon and space are in no class. *)
Theorem C10_classless_password (p : string) :
  p <> "" ->
  classless p ->
  charSpace p = 0
  /\ or_one (charSpace p) = 1
  /\ (forall q, 1 <= or_one (charSpace q))
  /\ (forall q,
        Math_log2 (Finite (IZR (or_one (charSpace q))))
        = Finite (log2 (IZR (or_one (charSpace q)))))
  /\ (forall q, exists e : R, calculateEntropy q = Finite e /\ (0 <= e)%R)
  /\ Math_log2 (Finite (IZR (charSpace p))) = NegInfinity
  /\ mul_d (Finite (INR (String.length p)))
       (Math_log2 (Finite (IZR (charSpace p))))
     = NegInfinity
  /\ calculateEntropy p = Finite 0
  /\ entropy (analyzePassword p) = Finite 0
  /\ hasLowercase (checks (analyzePassword p)) = false
  /\ hasUppercase (checks (analyzePassword p)) = false
  /\ hasNumbers (checks (analyzePassword p)) = false
  /\ hasSpecialChars (checks (analyzePassword p)) = false
  /\ score_credits p (make_checks p) (calculateEntropy p)
     = (if len p >=? 8 then 20 else 0) + (if len p >=? 12 then 10 else 0)
       + (if len p >=? 16 then 10 else 0) + (if len p >=? 20 then 5 else 0)
       - (if isCommon (make_checks p) then 40 else 0)
  /\ display (calculateCrackTime (calculateEntropy p)) = "Instantly"
  /\ crackTime (analyzePassword p) = "Instantly"
  /\ Forall (fun c => Chars.is_lower c = false /\ Chars.is_upper c = false
                      /\ Chars.is_digit c = false
                      /\ Chars.is_special c = false)
       ["-"; "_"; "+"; ";"; " "]%char.
Proof.
  intros Hp Hclass.
  destruct (classless_tests p Hclass) as (Hlo & Hup & Hdi & Hsp).
  assert (Hcs : charSpace p = 0)
    by (unfold charSpace; now rewrite Hlo, Hup, Hdi, Hsp).
  pose proof (calculateEntropy_classless p Hcs) as He.
  assert (Hd : display (calculateCrackTime (calculateEntropy p))
               = "Instantly")
    by (rewrite He; apply crack_time_of_zero).
  split; [exact Hcs |].
  split; [now rewrite Hcs |].
  split; [intros q; apply or_one_pos, charSpace_nonneg |].
  split.
  { intros q. apply Math_log2_positive, IZR_lt.
    pose proof (or_one_pos _ (charSpace_nonneg q)). lia. }
  split.
  { intros q. eexists. split; [apply calculateEntropy_finite |].
    apply entropy_bits_nonneg. }
  split; [rewrite Hcs; apply Math_log2_0 |].
  split.
  { rewrite Hcs, Math_log2_0. apply mul_d_length_NegInfinity.
    destruct p; [contradiction | simpl; lia]. }
  split; [exact He |].
  destruct p as [| c s]; [contradiction |].
  split.
  { open_analysis. cbn [entropy]. rewrite He. cbn [mul_d Math_round_d div_d].
    rewrite Rmult_0_l, Math_round_0. f_equal. unfold Rdiv. apply Rmult_0_l. }
  do 4 (split; [open_analysis; unfold make_checks;
                cbn [hasLowercase hasUppercase hasNumbers hasSpecialChars];
                assumption |]).
  split.
  { rewrite score_credits_decided. unfold score_credits_dec, entropy_gtb.
    rewrite Hcs. cbn [or_one Z.eqb]. rewrite Z.pow_1_l by (unfold len; lia).
    unfold make_checks.
    cbn [hasLength hasLowercase hasUppercase hasNumbers hasSpecialChars
         isCommon].
    rewrite Hlo, Hup, Hdi, Hsp. cbn [Z.pow Z.pow_pos Pos.iter Z.ltb Z.compare Z.mul Pos.mul Pos.compare Pos.compare_cont].
    rewrite !if_add, if_sub. lia. }
  split; [exact Hd |].
  split; [open_analysis; cbn [crackTime]; exact Hd |].
  repeat constructor.
Qed.

Lemma C10_classless_password_witness :
  charSpace "-_+; " = 0
  /\ or_one (charSpace "-_+; ") = 1
  /\ (forall q, 1 <= or_one (charSpace q))
  /\ (forall q,
        Math_log2 (Finite (IZR (or_one (charSpace q))))
        = Finite (log2 (IZR (or_one (charSpace q)))))
  /\ (forall q, exists e : R, calculateEntropy q = Finite e /\ (0 <= e)%R)
  /\ Math_log2 (Finite (IZR (charSpace "-_+; "))) = NegInfinity
  /\ mul_d (Finite (INR (String.length "-_+; ")))
       (Math_log2 (Finite (IZR (charSpace "-_+; "))))
     = NegInfinity
  /\ calculateEntropy "-_+; " = Finite 0
  /\ entropy (analyzePassword "-_+; ") = Finite 0
  /\ hasLowercase (checks (analyzePassword "-_+; ")) = false
  /\ hasUppercase (checks (analyzePassword "-_+; ")) = false
  /\ hasNumbers (checks (analyzePassword "-_+; ")) = false
  /\ hasSpecialChars (checks (analyzePassword "-_+; ")) = false
  /\ score_credits "-_+; " (make_checks "-_+; ") (calculateEntropy "-_+; ")
     = (if len "-_+; " >=? 8 then 20 else 0)
       + (if len "-_+; " >=? 12 then 10 else 0)
       + (if len "-_+; " >=? 16 then 10 else 0)
       + (if len "-_+; " >=? 20 then 5 else 0)
       - (if isCommon (make_checks "-_+; ") then 40 else 0)
  /\ display (calculateCrackTime (calculateEntropy "-_+; ")) = "Instantly"
  /\ crackTime (analyzePassword "-_+; ") = "Instantly"
  /\ Forall (fun c => Chars.is_lower c = false /\ Chars.is_upper c = false
                      /\ Chars.is_digit c = false
                      /\ Chars.is_special c = false)
       ["-"; "_"; "+"; ";"; " "]%char.
Proof.
  apply C10_classless_password.
  - discriminate.
  - repeat split; intro H; apply test_class_contains in H;
      vm_compute in H; discriminate H.
Defined.


(** ** The pattern tests *)

Lemma code_unit_listed (c : ascii) : In c all_code_units.
Proof.
  unfold all_code_units. rewrite <- (ascii_nat_embedding c).
  apply in_map, in_seq. pose proof (nat_ascii_bounded c). lia.
Qed.

(** A property checked on every code unit holds of every code unit. *)
Lemma by_enumeration (P : ascii -> bool) :
  forallb P all_code_units = true -> forall c, P c = true.
Proof.
  intros H c. rewrite forallb_forall in H. apply H, code_unit_listed.
Qed.

(** A window of the tail is a window of the whole. *)
Lemma window_tail (x a b c : ascii) (s : string) :
  window s a b c -> window (String x s) a b c.
Proof. intros (pre & post & ->). now exists (String x pre), post. Qed.

Lemma window_inv (x a b c : ascii) (s : string) :
  window (String x s) a b c ->
  (exists post, String x s = String a (String b (String c post)))
  \/ window s a b c.
Proof.
  intros ([| y pre] & post & H); simpl in H.
  - left. now exists post.
  - right. injection H as _ ->. now exists pre, post.
Qed.

Lemma window_empty (a b c : ascii) : ~ window "" a b c.
Proof. intros ([| y pre] & post & H); discriminate. Qed.

(** The regular expression for repeats fires on a window of three equal
    characters that are not line terminators. *)
Lemma test_repeat_window (s : string) :
  Regex.test_repeat s = true
  <-> exists c, Chars.dot c = true /\ window s c c c.
Proof.
  induction s as [| x s IH].
  - simpl. split; [discriminate |].
    intros (c & _ & H). now apply window_empty in H.
  - cbn [Regex.test_repeat]. rewrite orb_true_iff, IH. split.
    + intros [H | (c & Hd & Hw)].
      * destruct s as [| y [| z s]]; try discriminate H.
        cbn [Regex.repeat_at] in H.
        apply andb_prop in H as [H Hz]. apply andb_prop in H as [Hd Hy].
        apply Ascii.eqb_eq in Hy, Hz. subst y z.
        exists x. split; [exact Hd |]. now exists "", s.
      * exists c. split; [exact Hd | now apply window_tail].
    + intros (c & Hd & Hw). apply window_inv in Hw as [(post & H) | Hw].
      * left. injection H as -> ->. cbn [Regex.repeat_at].
        now rewrite Hd, !Ascii.eqb_refl.
      * right. now exists c.
Qed.

Lemma window_no_terminator (s : string) (a b c : ascii) :
  free_of_line_terminators s -> window s a b c -> Chars.dot a = true.
Proof.
  unfold free_of_line_terminators. intros Hfree (pre & post & ->).
  induction pre as [| x pre IH]; simpl in Hfree;
    apply orb_false_elim in Hfree as [Hx Hrest].
  - unfold Chars.dot. now rewrite Hx.
  - now apply IH.
Qed.

Lemma test_repeat_spec (s : string) :
  free_of_line_terminators s ->
  Regex.test_repeat s = true <-> has_repeat s.
Proof.
  intros Hfree. rewrite test_repeat_window. unfold has_repeat. split.
  - intros (c & _ & H). now exists c.
  - intros (c & H). exists c. split; [| exact H].
    now apply (window_no_terminator s c c c).
Qed.

(** An alternation of literals fires where one of them matches a suffix. *)
Lemma test_alternatives_suffix (eq : ascii -> ascii -> bool)
    (alts : list string) (s : string) :
  Regex.test_alternatives eq alts s = true
  <-> exists pre post,
        s = pre ++ post
        /\ existsb (fun pat => Regex.matches_at eq pat post) alts = true.
Proof.
  induction s as [| x s IH].
  - cbn [Regex.test_alternatives]. rewrite orb_false_r. split.
    + intros H. now exists "", "".
    + intros ([| y pre] & post & E & H); [| discriminate ].
      simpl in E. now subst post.
  - cbn [Regex.test_alternatives]. rewrite orb_true_iff, IH. split.
    + intros [H | (pre & post & -> & H)].
      * now exists "", (String x s).
      * now exists (String x pre), post.
    + intros ([| y pre] & post & E & H); simpl in E.
      * left. now subst post.
      * right. injection E as _ ->. now exists pre, post.
Qed.

(** A three-character literal matches exactly at three characters that
    compare equal to its own. *)
Lemma matches_at_three (eq : ascii -> ascii -> bool) (p1 p2 p3 : ascii)
    (s : string) :
  Regex.matches_at eq (String p1 (String p2 (String p3 ""))) s = true
  <-> exists a b c post,
        s = String a (String b (String c post))
        /\ eq a p1 = true /\ eq b p2 = true /\ eq c p3 = true.
Proof.
  split.
  - destruct s as [| a [| b [| c post]]]; cbn [Regex.matches_at];
      rewrite ?andb_false_r; try discriminate.
    intros H. apply andb_prop in H as [H1 H]. apply andb_prop in H as [H2 H].
    apply andb_prop in H as [H3 _]. now exists a, b, c, post.
  - intros (a & b & c & post & -> & H1 & H2 & H3).
    cbn [Regex.matches_at]. now rewrite H1, H2, H3.
Qed.

Lemma digit_index_inv (c : ascii) (d : Z) :
  digit_index c = Some d -> 0 <= d <= 9 /\ c = chr (48 + d).
Proof.
  unfold digit_index, Chars.is_digit, Chars.in_range, chr, Chars.code.
  destruct (N.leb_spec 48 (N_of_ascii c)); cbn [andb]; [| discriminate].
  destruct (N.leb_spec (N_of_ascii c) 57); [| discriminate].
  intros [= <-]. split; [lia |].
  replace (48 + (Z.of_N (N_of_ascii c) - 48)) with (Z.of_N (N_of_ascii c))
    by lia.
  now rewrite N2Z.id, ascii_N_embedding.
Qed.

Lemma letter_index_inv (c : ascii) (k : Z) :
  letter_index c = Some k ->
  0 <= k <= 25 /\ (c = chr (97 + k) \/ c = chr (65 + k)).
Proof.
  unfold letter_index, Chars.is_lower, Chars.is_upper, Chars.in_range, chr,
    Chars.code.
  destruct (N.leb_spec 97 (N_of_ascii c)); cbn [andb].
  - destruct (N.leb_spec (N_of_ascii c) 122).
    + intros [= <-]. split; [lia |]. left.
      replace (97 + (Z.of_N (N_of_ascii c) - 97))
        with (Z.of_N (N_of_ascii c)) by lia.
      now rewrite N2Z.id, ascii_N_embedding.
    + destruct (N.leb_spec 65 (N_of_ascii c)); cbn [andb]; [| discriminate].
      destruct (N.leb_spec (N_of_ascii c) 90); [lia | discriminate].
  - destruct (N.leb_spec 65 (N_of_ascii c)); cbn [andb]; [| discriminate].
    destruct (N.leb_spec (N_of_ascii c) 90); [| discriminate].
    intros [= <-]. split; [lia |]. right.
    replace (65 + (Z.of_N (N_of_ascii c) - 65))
      with (Z.of_N (N_of_ascii c)) by lia.
    now rewrite N2Z.id, ascii_N_embedding.
Qed.

(** Matching a lowercase pattern letter without regard to case pins down
    the alphabet position of the subject character. *)
Lemma eqb_ci_letter (c pat : ascii) :
  Chars.is_lower pat = true -> Chars.eqb_ci c pat = true ->
  letter_index c = Some (Z.of_N (Chars.code pat) - 97).
Proof.
  intros Hp Hc.
  assert (H : forallb (fun c =>
            forallb (fun pat =>
              implb (Chars.is_lower pat && Chars.eqb_ci c pat)
                (index_is (letter_index c) (Z.of_N (Chars.code pat) - 97)))
              all_code_units) all_code_units = true)
    by (vm_compute; reflexivity).
  pose proof (by_enumeration _ H c) as H1. cbv beta in H1.
  pose proof (by_enumeration _ H1 pat) as H2. cbv beta in H2.
  rewrite Hp, Hc in H2. cbn [andb implb] in H2.
  unfold index_is in H2. destruct (letter_index c) as [x |]; [| discriminate].
  apply Z.eqb_eq in H2. now subst x.
Qed.

Lemma re_sequential_numbers_spec (s : string) :
  Regex.re_sequential_numbers s = true <-> has_digit_run s.
Proof.
  unfold Regex.re_sequential_numbers, has_digit_run.
  rewrite test_alternatives_suffix. split.
  - intros (pre & post & -> & H). apply existsb_exists in H as (pat & Hin & Hm).
    unfold Regex.digit_runs in Hin. cbn [In] in Hin.
    repeat (destruct Hin as [<- | Hin]); try contradiction;
      apply matches_at_three in Hm
        as (a & b & c & rest & -> & Ha & Hb & Hc);
      apply Ascii.eqb_eq in Ha, Hb, Hc; subst a b c;
      eexists _, _, _, _; (split; [now exists pre, rest |]);
      repeat split; reflexivity.
  - intros (a & b & c & d & (pre & post & ->) & Ha & Hb & Hc).
    exists pre, (String a (String b (String c post))).
    split; [reflexivity |].
    apply digit_index_inv in Ha as (Hd & ->), Hb as (Hd1 & ->).
    apply digit_index_inv in Hc as (_ & ->).
    cases_upto d 0 9%nat ltac:(vm_compute; reflexivity).
Qed.

Lemma re_sequential_letters_spec (s : string) :
  Regex.re_sequential_letters s = true <-> has_ascending_letters s.
Proof.
  unfold Regex.re_sequential_letters, has_ascending_letters.
  rewrite test_alternatives_suffix. split.
  - intros (pre & post & -> & H). apply existsb_exists in H as (pat & Hin & Hm).
    unfold Regex.letter_runs in Hin. cbn [In] in Hin.
    repeat (destruct Hin as [<- | Hin]); try contradiction;
      apply matches_at_three in Hm
        as (a & b & c & rest & -> & Ha & Hb & Hc);
      apply eqb_ci_letter in Ha, Hb, Hc; try reflexivity;
      eexists a, b, c, _; (split; [now exists pre, rest |]);
      rewrite Ha, Hb, Hc; repeat split; reflexivity.
  - intros (a & b & c & k & (pre & post & ->) & Ha & Hb & Hc).
    exists pre, (String a (String b (String c post))).
    split; [reflexivity |].
    apply letter_index_inv in Ha as (Hk & Ha), Hb as (Hk1 & Hb).
    apply letter_index_inv in Hc as (Hk2 & Hc).
    cases_upto k 0 24%nat
      ltac:(destruct Ha as [-> | ->], Hb as [-> | ->], Hc as [-> | ->];
            vm_compute; reflexivity).
Qed.

Lemma score_patterns_sum (p : string) (s : Z) :
  score_patterns p s
  = s - 10 * Z.b2z (Regex.test_repeat p)
      - 10 * Z.b2z (Regex.re_sequential_numbers p)
      - 10 * Z.b2z (Regex.re_sequential_letters p).
Proof.
  unfold score_patterns.
  destruct (Regex.test_repeat p), (Regex.re_sequential_numbers p),
    (Regex.re_sequential_letters p); cbn [Z.b2z]; lia.
Qed.

(** The password that shows a given combination of the three patterns. *)
Lemma patterns_independent (r d l : bool) :
  exists q,
    q <> "" /\ free_of_line_terminators q
    /\ (has_repeat q <-> r = true)
    /\ (has_digit_run q <-> d = true)
    /\ (has_ascending_letters q <-> l = true).
Proof.
  exists (pattern_sample r d l).
  assert (Hfree : free_of_line_terminators (pattern_sample r d l))
    by (destruct r, d, l; reflexivity).
  split; [destruct r, d, l; discriminate |].
  split; [exact Hfree |].
  rewrite <- (test_repeat_spec _ Hfree), <- re_sequential_numbers_spec,
    <- re_sequential_letters_spec.
  destruct r, d, l; vm_compute; tauto.
Qed.

(** A window of a three-character string is the string itself. *)
Lemma window_three (x y z a b c : ascii) :
  window (String x (String y (String z ""))) a b c ->
  a = x /\ b = y /\ c = z.
Proof.
  intros ([| p1 [| p2 [| p3 [| p4 pre]]]] & post & H); simpl in H;
    try discriminate H.
  now injection H as -> -> ->.
Qed.

(** C6, as the code has it: on a non-empty password without line
    terminators each of the three penalties of 10 is applied exactly when
    its trigger holds: some character three times in a row; three digits
    in a row that follow each other in 01234567890, which includes 890;
    three letters in a row at consecutive alphabet positions, whatever
    their case.  Every combination of the three triggers occurs. *)
Theorem C6_pattern_penalties (p : string) :
  p <> "" ->
  free_of_line_terminators p ->
  (exists r d l : bool,
      (r = true <-> has_repeat p)
      /\ (d = true <-> has_digit_run p)
      /\ (l = true <-> has_ascending_letters p)
      /\ (forall s,
             score_patterns p s
             = s - 10 * Z.b2z r - 10 * Z.b2z d - 10 * Z.b2z l)
      /\ score (analyzePassword p)
         = clamp (score_credits p (make_checks p) (calculateEntropy p)
                  - 10 * Z.b2z r - 10 * Z.b2z d - 10 * Z.b2z l))
  /\ (forall r d l : bool,
         exists q,
           q <> "" /\ free_of_line_terminators q
           /\ (has_repeat q <-> r = true)
           /\ (has_digit_run q <-> d = true)
           /\ (has_ascending_letters q <-> l = true)).
Proof.
  intros Hp Hfree. split; [| exact patterns_independent].
  exists (Regex.test_repeat p), (Regex.re_sequential_numbers p),
    (Regex.re_sequential_letters p).
  split; [now apply test_repeat_spec |].
  split; [apply re_sequential_numbers_spec |].
  split; [apply re_sequential_letters_spec |].
  split; [intros s; apply score_patterns_sum |].
  destruct p as [| c s]; [contradiction |].
  rewrite score_analyzePassword. f_equal. apply score_patterns_sum.
Qed.

Lemma C6_pattern_penalties_witness :
  (exists r d l : bool,
      (r = true <-> has_repeat "aaabc123")
      /\ (d = true <-> has_digit_run "aaabc123")
      /\ (l = true <-> has_ascending_letters "aaabc123")
      /\ (forall s,
             score_patterns "aaabc123" s
             = s - 10 * Z.b2z r - 10 * Z.b2z d - 10 * Z.b2z l)
      /\ score (analyzePassword "aaabc123")
         = clamp (score_credits "aaabc123" (make_checks "aaabc123")
                    (calculateEntropy "aaabc123")
                  - 10 * Z.b2z r - 10 * Z.b2z d - 10 * Z.b2z l))
  /\ (forall r d l : bool,
         exists q,
           q <> "" /\ free_of_line_terminators q
           /\ (has_repeat q <-> r = true)
           /\ (has_digit_run q <-> d = true)
           /\ (has_ascending_letters q <-> l = true)).
Proof.
  apply (C6_pattern_penalties "aaabc123").
  - discriminate.
  - reflexivity.
Defined.

(** The claim as the specification words it fails on [890]: no character
    is repeated, no three digits ascend, there is no letter, and yet the
    sequential-numbers penalty takes the 15 points of credit down to 5. *)
Lemma C6_counterexample_890 :
  "890" <> ""
  /\ ~ has_repeat "890"
  /\ ~ has_ascending_digits "890"
  /\ ~ has_ascending_letters "890"
  /\ score_credits "890" (make_checks "890") (calculateEntropy "890") = 15
  /\ score_patterns "890" 15 = 5
  /\ score (analyzePassword "890") = 5.
Proof.
  split; [discriminate |].
  split.
  { intros (c & H). apply window_three in H as (H1 & H2 & _).
    rewrite H1 in H2. discriminate H2. }
  split.
  { intros (a & b & c & d & H & Ha & Hb & Hc).
    apply window_three in H as (-> & -> & ->).
    vm_compute in Ha, Hc. injection Ha as <-. discriminate Hc. }
  split.
  { intros (a & b & c & k & H & Ha & _).
    apply window_three in H as (-> & _). discriminate Ha. }
  assert (Hc : score_credits "890" (make_checks "890")
                 (calculateEntropy "890") = 15)
    by (rewrite score_credits_decided; vm_compute; reflexivity).
  split; [exact Hc |].
  split; [vm_compute; reflexivity |].
  rewrite score_analyzePassword, Hc. vm_compute. reflexivity.
Qed.

(** Three line feeds in a row are a repeat that the test does not see:
    the atom [.] matches no line terminator. *)
Lemma repeat_of_line_feeds :
  let s := String LF (String LF (String LF "")) in
  has_repeat s /\ Regex.test_repeat s = false.
Proof.
  split; [| reflexivity]. exists LF. now exists "", "".
Qed.

(** ** The breach checker at work *)

Example lookup_finds_password :
  fst (checkPasswordBreach (sample_env (HttpResponse true (Some sample_body)))
         "password" initial_state)
  = Return (mkBreachInfo true (Num 3730471)).
Proof. vm_compute. reflexivity. Qed.

(** A second lookup within the hour is served from the cache: still one
    request only. *)
Example lookup_is_cached :
  let env := sample_env (HttpResponse true (Some sample_body)) in
  let st1 := snd (checkPasswordBreach env "password" initial_state) in
  let '(r, st2) := checkPasswordBreach env "password" st1 in
  r = Return (mkBreachInfo true (Num 3730471))
  /\ List.length (requests st2) = 1%nat.
Proof. vm_compute. split; reflexivity. Qed.

(** A matching line without a colon raises inside the scan and is
    swallowed. *)
Example lookup_survives_missing_count :
  let env :=
    sample_env
      (HttpResponse true (Some "1E4C9B93F3F0682250B6CF8331B7EE68FD8")) in
  provider_failure env "password"
  /\ fst (checkPasswordBreach env "password" initial_state)
     = Return (mkBreachInfo false (Num 0)).
Proof.
  split; [| vm_compute; reflexivity].
  eapply malformed_line; [reflexivity | vm_compute; reflexivity].
Qed.

(** A count that is not a number raises nothing: [parseInt] yields [NaN]
    and the line still counts as a match. *)
Example lookup_with_unreadable_count :
  fst (checkPasswordBreach
         (sample_env
            (HttpResponse true
               (Some "1E4C9B93F3F0682250B6CF8331B7EE68FD8:many")))
         "password" initial_state)
  = Return (mkBreachInfo true NaN).
Proof. vm_compute. reflexivity. Qed.

Example parseInt_samples :
  parseInt "42" = Num 42 /\ parseInt "  -7x" = Num (-7)
  /\ parseInt "0x1F" = Num 31 /\ parseInt "" = NaN /\ parseInt "abc" = NaN.
Proof. vm_compute. repeat split; reflexivity. Qed.

Example split_samples :
  split ":" "a:b" = ["a"; "b"] /\ split ":" "" = [""]
  /\ split ":" "ab" = ["ab"] /\ split ":" "a::" = ["a"; ""; ""].
Proof. vm_compute. repeat split; reflexivity. Qed.

Example class_sizes_of_members :
  List.length (filter Chars.is_lower all_code_units) = 26%nat
  /\ List.length (filter Chars.is_upper all_code_units) = 26%nat
  /\ List.length (filter Chars.is_digit all_code_units) = 10%nat
  /\ List.length (filter Chars.is_special all_code_units) = 20%nat.
Proof. vm_compute. repeat split; reflexivity. Qed.

(** ** Further properties of the scorer *)

Lemma subsequence_snoc_skip {A : Type} (l m : list A) (x : A) :
  subsequence l m -> subsequence l (m ++ [x]).
Proof.
  induction 1; cbn [app].
  - apply subsequence_skip, subsequence_nil.
  - now apply subsequence_skip.
  - now apply subsequence_take.
Qed.

Lemma subsequence_snoc_take {A : Type} (l m : list A) (x : A) :
  subsequence l m -> subsequence (l ++ [x]) (m ++ [x]).
Proof.
  induction 1; cbn [app].
  - apply subsequence_take, subsequence_nil.
  - now apply subsequence_skip.
  - now apply subsequence_take.
Qed.

Lemma subsequence_In {A : Type} (l m : list A) (x : A) :
  subsequence l m -> In x l -> In x m.
Proof.
  induction 1; cbn [In]; intros Hin.
  - exact Hin.
  - right. now apply IHsubsequence.
  - destruct Hin as [-> | Hin]; [now left | right; now apply IHsubsequence].
Qed.

(** One conditional push keeps the list a selection of the messages
    considered so far. *)
Lemma push_if_subsequence (b : bool) (s : string) (l m : list string) :
  subsequence l m -> subsequence (push_if b s l) (m ++ [s]).
Proof.
  intros H. destruct b; cbn [push_if].
  - now apply subsequence_snoc_take.
  - now apply subsequence_snoc_skip.
Qed.

Lemma push_if_nil (b : bool) (s : string) (l : list string) :
  push_if b s l = [] <-> b = false /\ l = [].
Proof.
  destruct b; cbn [push_if].
  - split; [| intros [H _]; discriminate H].
    intros H. destruct l; discriminate H.
  - split; [now split | now intros [_ H]].
Qed.

Lemma affirmative_is_no_remediation :
  ~ In affirmative_message remediation_messages.
Proof.
  unfold remediation_messages, affirmative_message. cbn [In].
  intros H. repeat (destruct H as [H | H]; [discriminate H |]). exact H.
Qed.

(** [make_suggestions] in two stages: the nine conditional pushes give a
    selection [L] of the remediation messages, empty exactly when no
    condition fires, and the result is [L], or the affirmative message
    when [L] is empty. *)
Lemma make_suggestions_stages (p : string) (c : Checks) :
  exists L,
    subsequence L remediation_messages
    /\ (L = [] <->
        hasLength c = true /\ hasUppercase c = true /\ hasLowercase c = true
        /\ hasNumbers c = true /\ hasSpecialChars c = true
        /\ (len p <? 12) = false /\ isCommon c = false
        /\ Regex.test_repeat p = false
        /\ Regex.re_sequential_numbers p = false)
    /\ make_suggestions p c
       = match L with [] => [affirmative_message] | _ :: _ => L end.
Proof.
  unfold make_suggestions. cbv zeta.
  match goal with
  | |- context [Z.of_nat (List.length ?l)] => exists l
  end.
  split; [| split].
  - unfold remediation_messages.
    repeat match goal with
           | |- subsequence (push_if ?b ?s ?l) ?m =>
               apply (push_if_subsequence b s l (removelast m))
           end.
    apply subsequence_nil.
  - rewrite !push_if_nil, !negb_false_iff. tauto.
  - match goal with
    | |- context [Z.of_nat (List.length ?l)] => generalize l
    end.
    intros [| x L]; [reflexivity |].
    cbn [List.length]. rewrite Nat2Z.inj_succ.
    destruct (Z.eqb_spec (Z.succ (Z.of_nat (List.length L))) 0) as [E | _];
      [lia | reflexivity].
Qed.

(** X1: the suggestions of a non-empty password are either the single
    affirmative message or a non-empty selection of the nine remediation
    messages in their fixed order; no analysis has an empty list. *)
Theorem X1_suggestions_shape (p : string) :
  suggestions (analyzePassword p) <> []
  /\ (p <> "" ->
      suggestions (analyzePassword p) = [affirmative_message]
      \/ subsequence (suggestions (analyzePassword p)) remediation_messages).
Proof.
  destruct p as [| c s].
  - split; [discriminate | intros H; now contradiction H].
  - rewrite suggestions_analyzePassword.
    destruct (make_suggestions_stages (String c s) (make_checks (String c s)))
      as (L & Hsub & _ & ->).
    destruct L as [| x L].
    + split; [discriminate | intros _; now left].
    + split; [discriminate | intros _; now right].
Qed.

Lemma all_classes_charSpace (p : string) :
  Regex.re_lower p = true -> Regex.re_upper p = true ->
  Regex.re_digit p = true -> Regex.re_special p = true ->
  charSpace p = 94.
Proof. intros Hl Hu Hd Hs. unfold charSpace. now rewrite Hl, Hu, Hd, Hs. Qed.

(** X2: the affirmative message appears exactly for a password of at
    least 12 characters with all four classes that is not on the denylist
    and has neither a repeat nor a digit run; it is then the only
    suggestion, and the score is 100, Very Strong, whether or not the
    password has a letter run. *)
Theorem X2_affirmative_message (p : string) :
  (In affirmative_message (suggestions (analyzePassword p))
   <-> 12 <= len p
       /\ contains Chars.is_upper p /\ contains Chars.is_lower p
       /\ contains Chars.is_digit p /\ contains Chars.is_special p
       /\ includes COMMON_PASSWORDS (toLowerCase p) = false
       /\ Regex.test_repeat p = false
       /\ ~ has_digit_run p)
  /\ (In affirmative_message (suggestions (analyzePassword p)) ->
      suggestions (analyzePassword p) = [affirmative_message]
      /\ score (analyzePassword p) = 100
      /\ strength (analyzePassword p) = VeryStrong).
Proof.
  destruct p as [| c s].
  { split.
    - split.
      + cbn. intros [H | []]. discriminate H.
      + intros (H & _). unfold len in H. simpl in H. lia.
    - cbn. intros [H | []]. discriminate H. }
  set (p := String c s).
  destruct (make_suggestions_stages p (make_checks p))
    as (L & Hsub & Hnil & Hs).
  assert (Hin : In affirmative_message (suggestions (analyzePassword p))
                <-> L = []).
  { unfold p. rewrite suggestions_analyzePassword. fold p. rewrite Hs.
    destruct L as [| x L].
    - split; [reflexivity | intros _; now left].
    - split; [| discriminate]. intros H. exfalso.
      apply affirmative_is_no_remediation.
      now apply (subsequence_In _ _ _ Hsub). }
  unfold make_checks in Hnil.
  cbn [hasLength hasUppercase hasLowercase hasNumbers hasSpecialChars
       isCommon] in Hnil.
  split.
  - rewrite Hin, Hnil. unfold Regex.re_upper, Regex.re_lower, Regex.re_digit,
      Regex.re_special.
    rewrite !test_class_contains, <- re_sequential_numbers_spec.
    rewrite Z.ltb_ge, Z.geb_le, not_true_iff_false. split.
    + intros (H1 & H2 & H3 & H4 & H5 & H6 & H7 & H8 & H9). tauto.
    + intros (H1 & H2 & H3 & H4 & H5 & H6 & H7 & H8).
      repeat split; try assumption. lia.
  - intros H. apply Hin in H. split.
    { unfold p. rewrite suggestions_analyzePassword. fold p.
      now rewrite Hs, H. }
    apply Hnil in H as (H1 & H2 & H3 & H4 & H5 & H6 & H7 & H8 & H9).
    apply Z.ltb_ge in H6.
    assert (Hscore : score (analyzePassword p) = 100).
    { unfold p. rewrite score_analyzePassword. fold p.
      rewrite score_patterns_sum, score_credits_decided, H8, H9.
      unfold score_credits_dec, make_checks, entropy_gtb.
      cbn [hasLength hasUppercase hasLowercase hasNumbers hasSpecialChars
           isCommon].
      rewrite H1, H2, H3, H4, H5, H7.
      rewrite (all_classes_charSpace p H3 H2 H4 H5).
      cbn [or_one Z.eqb].
      assert (Hpow : 94 ^ 12 <= 94 ^ len p)
        by (apply Z.pow_le_mono_r; lia).
      assert (H40 : 2 ^ 40 < 94 ^ len p)
        by (eapply Z.lt_le_trans; [| exact Hpow]; reflexivity).
      assert (H60 : 2 ^ 60 < 94 ^ len p)
        by (eapply Z.lt_le_trans; [| exact Hpow]; reflexivity).
      apply Z.ltb_lt in H40, H60. rewrite H40, H60.
      destruct (Z.geb_spec (len p) 12); [| lia].
      rewrite !if_add.
      destruct (Regex.re_sequential_letters p); cbn [Z.b2z];
        destruct (len p >=? 16), (len p >=? 20), (2 ^ 80 <? 94 ^ len p);
        unfold clamp; lia. }
    split; [exact Hscore |].
    rewrite strength_analyzePassword, Hscore. reflexivity.
Qed.

Lemma divide_if (b : bool) (n k m : Z) :
  (n | k) -> (n | m) -> (n | if b then k else m).
Proof. now destruct b. Qed.

Lemma score_credits_divisible (p : string) (c : Checks) (e : Double) :
  (5 | score_credits p c e).
Proof.
  unfold score_credits. rewrite !if_add, if_sub.
  repeat first
    [ apply Z.divide_0_r
    | apply Z.divide_sub_r | apply Z.divide_add_r | apply divide_if
    | (exists 4; reflexivity) | (exists 3; reflexivity)
    | (exists 2; reflexivity) | (exists 1; reflexivity)
    | (exists 8; reflexivity) ].
Qed.

Lemma score_patterns_divisible (p : string) (s : Z) :
  (5 | s) -> (5 | score_patterns p s).
Proof.
  intros H. rewrite score_patterns_sum.
  repeat apply Z.divide_sub_r; try assumption;
    apply Z.divide_mul_l; exists 2; reflexivity.
Qed.

Lemma clamp_divisible (s : Z) : (5 | s) -> (5 | clamp s).
Proof.
  intros H. unfold clamp.
  destruct (Z.max_spec 0 (Z.min 100 s)) as [[_ ->] | [_ ->]].
  - destruct (Z.min_spec 100 s) as [[_ ->] | [_ ->]];
      [exists 20; reflexivity | exact H].
  - apply Z.divide_0_r.
Qed.

Lemma score_divisible (p : string) : (5 | score (analyzePassword p)).
Proof.
  destruct p as [| c s]; [apply Z.divide_0_r |].
  rewrite score_analyzePassword.
  apply clamp_divisible, score_patterns_divisible, score_credits_divisible.
Qed.

(** X3: every score is a multiple of 5, that of the analysis and that of
    any result the handler sends, the breach cap included. *)
Theorem X3_score_multiple_of_5 :
  (forall p, (5 | score (analyzePassword p)))
  /\ (forall env p save user st a st',
         handlePasswordAnalysis env (VString p) save user st
         = (Return (Json 200 a), st') ->
         (5 | score a)).
Proof.
  split; [exact score_divisible |].
  intros env p save user st a st' Hr.
  destruct (analyze_and_check_returns env p st) as (a0 & st1 & Ha & Hshape).
  destruct (handler_reply env p save user st st1 a0 Ha) as (st2 & Hr' & _).
  rewrite Hr in Hr'.
  destruct (database_fails env save user p); [discriminate |].
  injection Hr' as -> _.
  destruct Hshape as [-> | ([[|] count] & ->)].
  - apply score_divisible.
  - destruct (apply_breach_hit env (analyzePassword p) count) as (-> & _).
    destruct (Z.min_spec (score (analyzePassword p)) 30)
      as [[_ ->] | [_ ->]]; [apply score_divisible | exists 6; reflexivity].
  - destruct (apply_breach_clean env (analyzePassword p) count) as (-> & _).
    apply score_divisible.
Qed.

Lemma or_one_charSpace_le (p : string) : 1 <= or_one (charSpace p) <= 94.
Proof.
  split; [apply or_one_pos, charSpace_nonneg |].
  unfold or_one, charSpace.
  destruct (Regex.re_lower p), (Regex.re_upper p), (Regex.re_digit p),
    (Regex.re_special p); cbn; lia.
Qed.

(** The entropy comparison fails when even the largest character space
    to the given length stays within the bound. *)
Lemma entropy_gtb_false (p : string) (t cmax lmax : Z) :
  or_one (charSpace p) <= cmax -> len p <= lmax ->
  cmax ^ lmax <= 2 ^ t ->
  entropy_gtb p t = false.
Proof.
  intros Hc Hl Hb. unfold entropy_gtb. apply Z.ltb_ge.
  pose proof (or_one_charSpace_le p) as [H1 _].
  assert (0 <= len p) by (unfold len; lia).
  eapply Z.le_trans; [| exact Hb].
  eapply Z.le_trans; [apply Z.pow_le_mono_l | apply Z.pow_le_mono_r]; lia.
Qed.

(** X4: a password of fewer than 8 characters scores at most 70 and is
    never Strong or Very Strong; 70 is reached. *)
Theorem X4_short_password_bound (p : string) :
  len p < 8 ->
  score (analyzePassword p) <= 70
  /\ tier_rank (strength (analyzePassword p)) <= tier_rank Good
  /\ exists q, len q < 8 /\ score (analyzePassword q) = 70.
Proof.
  intros Hlen.
  assert (Hscore : score (analyzePassword p) <= 70).
  { destruct p as [| c s]; [cbn; lia |].
    rewrite score_analyzePassword, score_patterns_sum, score_credits_decided.
    unfold score_credits_dec, make_checks.
    cbn [hasLength hasUppercase hasLowercase hasNumbers hasSpecialChars
         isCommon].
    pose proof (or_one_charSpace_le (String c s)) as [_ Hc].
    rewrite (entropy_gtb_false _ 60 94 7), (entropy_gtb_false _ 80 94 7)
      by (try lia; vm_compute; discriminate).
    destruct (Z.geb_spec (len (String c s)) 8); [lia |].
    destruct (Z.geb_spec (len (String c s)) 12); [lia |].
    destruct (Z.geb_spec (len (String c s)) 16); [lia |].
    destruct (Z.geb_spec (len (String c s)) 20); [lia |].
    rewrite !if_add, if_sub.
    destruct (Regex.re_upper (String c s)), (Regex.re_lower (String c s)),
      (Regex.re_digit (String c s)), (Regex.re_special (String c s)),
      (includes COMMON_PASSWORDS (toLowerCase (String c s))),
      (entropy_gtb (String c s) 40),
      (Regex.test_repeat (String c s)),
      (Regex.re_sequential_numbers (String c s)),
      (Regex.re_sequential_letters (String c s)); cbn [Z.b2z];
      unfold clamp; lia. }
  split; [exact Hscore |].
  split.
  - rewrite strength_analyzePassword.
    apply (tier_of_score_monotone _ 70) in Hscore. exact Hscore.
  - exists "Aa1!xqz". split; [vm_compute; reflexivity |].
    rewrite score_analyzePassword, score_credits_decided.
    vm_compute. reflexivity.
Qed.

Lemma X4_short_password_bound_witness :
  score (analyzePassword "Ab1!") <= 70
  /\ tier_rank (strength (analyzePassword "Ab1!")) <= tier_rank Good
  /\ exists q, len q < 8 /\ score (analyzePassword q) = 70.
Proof. apply X4_short_password_bound. vm_compute. reflexivity. Defined.

(** ** Denylisted passwords *)

Lemma toLowerCase_length (s : string) :
  String.length (toLowerCase s) = String.length s.
Proof. induction s as [| c s IH]; simpl; [reflexivity | now rewrite IH]. Qed.

Lemma includes_In (l : list string) (x : string) :
  includes l x = true -> In x l.
Proof.
  unfold includes. intros H. apply existsb_exists in H as (y & Hin & E).
  apply String.eqb_eq in E. now subst y.
Qed.

(** Lower-casing neither makes nor unmakes a special character. *)
Lemma is_special_to_lower (c : ascii) :
  Chars.is_special (Chars.to_lower c) = Chars.is_special c.
Proof.
  apply eqb_prop.
  apply (by_enumeration
           (fun c => Bool.eqb (Chars.is_special (Chars.to_lower c))
                       (Chars.is_special c))).
  vm_compute. reflexivity.
Qed.

Lemma re_special_toLowerCase (s : string) :
  Regex.re_special (toLowerCase s) = Regex.re_special s.
Proof.
  unfold Regex.re_special. induction s as [| c s IH]; [reflexivity |].
  cbn [toLowerCase Regex.test_class]. now rewrite is_special_to_lower, IH.
Qed.

(** Lower-casing does not change whether a character is a given digit. *)
Lemma eqb_digit_to_lower (c d : ascii) :
  Chars.is_digit d = true ->
  Ascii.eqb (Chars.to_lower c) d = Ascii.eqb c d.
Proof.
  intros Hd.
  assert (H : forallb (fun c =>
            forallb (fun d =>
              implb (Chars.is_digit d)
                (Bool.eqb (Ascii.eqb (Chars.to_lower c) d) (Ascii.eqb c d)))
              all_code_units) all_code_units = true)
    by (vm_compute; reflexivity).
  pose proof (by_enumeration _ H c) as H1. cbv beta in H1.
  pose proof (by_enumeration _ H1 d) as H2. cbv beta in H2.
  rewrite Hd in H2. cbn [implb] in H2. now apply eqb_prop.
Qed.

Lemma matches_at_digits_toLowerCase (pat s : string) :
  Regex.test_class (fun d => negb (Chars.is_digit d)) pat = false ->
  Regex.matches_at Ascii.eqb pat (toLowerCase s)
  = Regex.matches_at Ascii.eqb pat s.
Proof.
  revert s. induction pat as [| d pat IH]; intros s Hp; [reflexivity |].
  cbn [Regex.test_class] in Hp. apply orb_false_elim in Hp as [Hd Hp].
  apply negb_false_iff in Hd.
  destruct s as [| c s]; [reflexivity |].
  cbn [toLowerCase Regex.matches_at].
  now rewrite eqb_digit_to_lower, IH.
Qed.

Lemma re_sequential_numbers_toLowerCase (s : string) :
  Regex.re_sequential_numbers (toLowerCase s)
  = Regex.re_sequential_numbers s.
Proof.
  unfold Regex.re_sequential_numbers, Regex.digit_runs.
  induction s as [| c s IH].
  - reflexivity.
  - cbn [toLowerCase Regex.test_alternatives]. rewrite IH.
    change (String (Chars.to_lower c) (toLowerCase s))
      with (toLowerCase (String c s)).
    cbn [existsb].
    now rewrite !matches_at_digits_toLowerCase by reflexivity.
Qed.

(** What every entry of the denylist has in common: no special character,
    and at most ten characters unless it holds a digit run. *)
Lemma denylist_entries (e : string) :
  In e COMMON_PASSWORDS ->
  Regex.re_special e = false
  /\ (len e <= 10 \/ (len e = 11 /\ Regex.re_sequential_numbers e = true)).
Proof.
  intros Hin.
  assert (H : forallb (fun e =>
            negb (Regex.re_special e)
            && ((len e <=? 10)
                || ((len e =? 11) && Regex.re_sequential_numbers e)))
            COMMON_PASSWORDS = true)
    by (vm_compute; reflexivity).
  rewrite forallb_forall in H. specialize (H e Hin).
  apply andb_prop in H as [Hs Hl]. apply negb_true_iff in Hs.
  split; [exact Hs |].
  apply orb_prop in Hl as [Hl | Hl].
  - left. now apply Z.leb_le.
  - right. apply andb_prop in Hl as [Hl Hr]. split; [now apply Z.eqb_eq | exact Hr].
Qed.

Lemma push_if_In_here (b : bool) (s : string) (l : list string) :
  b = true -> In s (push_if b s l).
Proof. intros ->. cbn [push_if]. apply in_or_app. right. now left. Qed.

Lemma push_if_In_later (b : bool) (s x : string) (l : list string) :
  In x l -> In x (push_if b s l).
Proof.
  intros H. destruct b; cbn [push_if]; [| exact H].
  apply in_or_app. now left.
Qed.

Lemma common_is_advised (p : string) (c : Checks) :
  isCommon c = true -> In "Avoid common passwords" (make_suggestions p c).
Proof.
  intros Hc. unfold make_suggestions. cbv zeta.
  match goal with
  | |- context [Z.of_nat (List.length ?l)] => set (L := l)
  end.
  assert (H : In "Avoid common passwords" L).
  { subst L.
    repeat first [ apply push_if_In_here; exact Hc | apply push_if_In_later ]. }
  clearbody L. destruct L as [| x L]; [contradiction |].
  cbn [List.length]. rewrite Nat2Z.inj_succ.
  destruct (Z.eqb_spec (Z.succ (Z.of_nat (List.length L))) 0) as [E | _];
    [lia | exact H].
Qed.

(** X5: a password whose lowercasing is on the denylist scores at most
    30, is Weak or Very Weak, and is advised against common passwords; 30
    is reached. *)
Theorem X5_denylisted_password_bound (p : string) :
  includes COMMON_PASSWORDS (toLowerCase p) = true ->
  score (analyzePassword p) <= 30
  /\ tier_rank (strength (analyzePassword p)) <= tier_rank Weak
  /\ In "Avoid common passwords" (suggestions (analyzePassword p))
  /\ exists q,
       includes COMMON_PASSWORDS (toLowerCase q) = true
       /\ score (analyzePassword q) = 30.
Proof.
  intros Hcommon.
  pose proof (denylist_entries _ (includes_In _ _ Hcommon)) as (Hsp & Hlen).
  rewrite re_special_toLowerCase in Hsp.
  rewrite re_sequential_numbers_toLowerCase in Hlen.
  unfold len in Hlen. rewrite toLowerCase_length in Hlen. fold (len p) in Hlen.
  destruct p as [| c s]; [vm_compute in Hcommon; discriminate |].
  set (p := String c s) in *.
  assert (Hcs : or_one (charSpace p) <= 62).
  { unfold or_one, charSpace. rewrite Hsp.
    destruct (Regex.re_lower p), (Regex.re_upper p), (Regex.re_digit p);
      cbn; lia. }
  assert (Hscore : score (analyzePassword p) <= 30).
  { unfold p. rewrite score_analyzePassword. fold p.
    rewrite score_patterns_sum, score_credits_decided.
    unfold score_credits_dec, make_checks.
    cbn [hasLength hasUppercase hasLowercase hasNumbers hasSpecialChars
         isCommon].
    rewrite Hcommon, Hsp.
    rewrite (entropy_gtb_false p 80 62 11)
      by (try lia; vm_compute; discriminate).
    destruct (Z.geb_spec (len p) 12); [lia |].
    destruct (Z.geb_spec (len p) 16); [lia |].
    destruct (Z.geb_spec (len p) 20); [lia |].
    rewrite !if_add.
    destruct Hlen as [Hlen | [Hlen Hrun]].
    - rewrite (entropy_gtb_false p 60 62 10)
        by (try lia; vm_compute; discriminate).
      destruct (len p >=? 8), (Regex.re_upper p), (Regex.re_lower p),
        (Regex.re_digit p), (entropy_gtb p 40), (Regex.test_repeat p),
        (Regex.re_sequential_numbers p), (Regex.re_sequential_letters p);
        cbn [Z.b2z]; unfold clamp; lia.
    - rewrite Hrun.
      destruct (len p >=? 8), (Regex.re_upper p), (Regex.re_lower p),
        (Regex.re_digit p), (entropy_gtb p 40), (entropy_gtb p 60),
        (Regex.test_repeat p), (Regex.re_sequential_letters p);
        cbn [Z.b2z]; unfold clamp; lia. }
  split; [exact Hscore |].
  split.
  { rewrite strength_analyzePassword.
    apply (tier_of_score_monotone _ 30) in Hscore. exact Hscore. }
  split.
  { unfold p. rewrite suggestions_analyzePassword.
    apply common_is_advised. exact Hcommon. }
  exists "Password1". split; [vm_compute; reflexivity |].
  rewrite score_analyzePassword, score_credits_decided.
  vm_compute. reflexivity.
Qed.

Lemma X5_denylisted_password_bound_witness :
  score (analyzePassword "QWERTY") <= 30
  /\ tier_rank (strength (analyzePassword "QWERTY")) <= tier_rank Weak
  /\ In "Avoid common passwords" (suggestions (analyzePassword "QWERTY"))
  /\ exists q,
       includes COMMON_PASSWORDS (toLowerCase q) = true
       /\ score (analyzePassword q) = 30.
Proof. apply X5_denylisted_password_bound. vm_compute. reflexivity. Defined.

(** ** Crack time and entropy together *)

Lemma length_append (s t : string) :
  String.length (s ++ t) = (String.length s + String.length t)%nat.
Proof. induction s as [| c s IH]; simpl; [reflexivity | now rewrite IH]. Qed.

Lemma display_instantly (e : R) :
  display (calculateCrackTime (Finite e)) = "Instantly"
  <-> (Rpower 2 e / 2 / 10 ^ 9 < 1)%R.
Proof.
  rewrite display_calculateCrackTime. cbv zeta.
  set (s := (Rpower 2 e / 2 / 10 ^ 9)%R).
  unfold Rltb.
  destruct (Rlt_dec s 1); [tauto |].
  split; [| intros; contradiction].
  repeat match goal with
         | |- context [Rlt_dec ?x ?y] => destruct (Rlt_dec x y)
         end; try other_display.
  intros H. discriminate H.
Qed.

Lemma display_centuries (e : R) :
  display (calculateCrackTime (Finite e)) = "Centuries"
  <-> (3155695200 <= Rpower 2 e / 2 / 10 ^ 9)%R.
Proof.
  rewrite display_calculateCrackTime. cbv zeta.
  set (s := (Rpower 2 e / 2 / 10 ^ 9)%R).
  unfold Rltb.
  repeat match goal with
         | |- context [Rlt_dec ?x ?y] => destruct (Rlt_dec x y)
         end;
    (split; [try other_display | intros; try reflexivity; exfalso; lra]).
  all: try (intros H; discriminate H).
  intros _. lra.
Qed.

(** [n * log2 c < t] on the reals is [c ^ n < 2 ^ t] on the integers. *)
Lemma log2_scaled_lt (c t : Z) (n : nat) :
  0 < c -> 0 <= t ->
  (INR n * log2 (IZR c) < IZR t)%R <-> c ^ Z.of_nat n < 2 ^ t.
Proof.
  intros Hc Ht. unfold log2.
  assert (Hl := ln_2_pos).
  assert (Hc' : (0 < IZR (c ^ Z.of_nat n))%R)
    by (apply IZR_lt; apply Z.pow_pos_nonneg; lia).
  assert (Ht' : (0 < IZR (2 ^ t))%R)
    by (apply IZR_lt; apply Z.pow_pos_nonneg; lia).
  assert (E1 : (INR n * (ln (IZR c) / ln 2)
                = ln (IZR (c ^ Z.of_nat n)) / ln 2)%R).
  { rewrite ln_IZR_pow by assumption. field. lra. }
  assert (E2 : (IZR t = ln (IZR (2 ^ t)) / ln 2)%R).
  { rewrite <- (Z2Nat.id t) at 2 by assumption.
    rewrite ln_IZR_pow by lia. rewrite INR_IZR_INZ, Z2Nat.id by assumption.
    field. lra. }
  rewrite E1, E2. split.
  - intros H. apply lt_IZR. apply ln_lt_inv; try assumption.
    apply Rmult_lt_reg_r with (/ ln 2)%R.
    + now apply Rinv_0_lt_compat.
    + exact H.
  - intros H. apply IZR_lt in H. apply ln_increasing in H; [|assumption].
    unfold Rdiv. apply Rmult_lt_compat_r;
      [now apply Rinv_0_lt_compat | exact H].
Qed.

(** Two to the entropy of a password is its character space to its
    length. *)
Lemma Rpower_entropy (p : string) :
  Rpower 2 (INR (String.length p) * log2 (IZR (or_one (charSpace p))))
  = IZR (or_one (charSpace p) ^ len p).
Proof.
  unfold len, log2, Rpower.
  pose proof (or_one_charSpace_le p) as [Hc _].
  pose proof ln_2_pos.
  replace (INR (String.length p) * (ln (IZR (or_one (charSpace p))) / ln 2)
           * ln 2)%R
    with (INR (String.length p) * ln (IZR (or_one (charSpace p))))%R
    by (field; lra).
  rewrite <- ln_IZR_pow by lia.
  apply exp_ln. apply IZR_lt. apply Z.pow_pos_nonneg; lia.
Qed.

(** The entropy stays below 1024 exactly when the character space to the
    length stays below 2^1024. *)
Lemma entropy_below_overflow (p : string) :
  (INR (String.length p) * log2 (IZR (or_one (charSpace p))) < 1024)%R
  <-> or_one (charSpace p) ^ len p < 2 ^ 1024.
Proof.
  pose proof (or_one_charSpace_le p) as [Hc _].
  apply (log2_scaled_lt (or_one (charSpace p)) 1024 (String.length p));
    lia.
Qed.

(** X6: for a password with character space c and length n, the estimated
    seconds are c^n / 2 / 10^9 as long as c^n is below 2^1024, and infinite
    from there on, where the power overflows; the analysis displays
    Instantly exactly when c^n is below 2 * 10^9 and Centuries exactly when
    c^n is at least 3155695200 * 2 * 10^9 (with finite doubles read as real
    numbers). *)
Theorem X6_crack_time_of_password (p : string) :
  let n := or_one (charSpace p) ^ len p in
  (n < 2 ^ 1024 ->
   seconds (calculateCrackTime (calculateEntropy p))
   = Finite (IZR n / 2 / 10 ^ 9))
  /\ (2 ^ 1024 <= n ->
      seconds (calculateCrackTime (calculateEntropy p)) = PosInfinity)
  /\ (crackTime (analyzePassword p) = "Instantly" <-> n < 2000000000)
  /\ (crackTime (analyzePassword p) = "Centuries"
      <-> 6311390400000000000 <= n).
Proof.
  cbv zeta. rewrite calculateEntropy_finite.
  pose proof (entropy_below_overflow p) as Hover.
  split; [| split].
  - intros H. rewrite seconds_below by now apply Hover.
    now rewrite Rpower_entropy.
  - intros H. apply seconds_overflow.
    apply Rnot_lt_le. intro Hlt. apply Hover in Hlt. lia.
  - destruct p as [| c s].
    + cbn. split; split; intros; try reflexivity; try lia; discriminate.
    + set (p := String c s) in *.
      assert (Hd : crackTime (analyzePassword p)
                   = display (calculateCrackTime (calculateEntropy p)))
        by (unfold p; open_analysis; reflexivity).
      rewrite Hd, calculateEntropy_finite, display_instantly,
        display_centuries, Rpower_entropy.
      set (n := or_one (charSpace p) ^ len p).
      split; split; intros H.
      * apply lt_IZR. lra.
      * apply IZR_lt in H. lra.
      * apply le_IZR. lra.
      * apply IZR_le in H. lra.
Qed.

Lemma ln_le_mono (x y : R) : (0 < x)%R -> (x <= y)%R -> (ln x <= ln y)%R.
Proof.
  intros Hx [Hlt | ->]; [| apply Rle_refl].
  left. now apply ln_increasing.
Qed.

Lemma log2_le_mono (x y : R) :
  (0 < x)%R -> (x <= y)%R -> (log2 x <= log2 y)%R.
Proof.
  intros Hx Hxy. unfold log2, Rdiv.
  apply Rmult_le_compat_r.
  - left. apply Rinv_0_lt_compat, ln_2_pos.
  - now apply ln_le_mono.
Qed.

Lemma rounded_to_tenth (x : R) :
  (Rabs (IZR (Math_round (x * 10)) / 10 - x) <= / 20)%R.
Proof.
  pose proof (Math_round_nearest (x * 10)) as [H1 H2].
  apply Rabs_le. lra.
Qed.

(** X7: the entropy is a finite number between 0 and the length times log2
    of 94, and the value the analysis reports is a finite number that
    differs from it by at most 0.05 (with finite doubles read as real
    numbers). *)
Theorem X7_entropy_bounds (p : string) :
  exists e r : R,
    calculateEntropy p = Finite e
    /\ entropy (analyzePassword p) = Finite r
    /\ (0 <= e <= INR (String.length p) * log2 94)%R
    /\ (Rabs (r - e) <= / 20)%R.
Proof.
  pose proof (or_one_charSpace_le p) as [Hlo Hhi].
  apply IZR_le in Hlo, Hhi.
  assert (Hlog94 : (log2 (IZR (or_one (charSpace p))) <= log2 94)%R)
    by (apply log2_le_mono; lra).
  pose proof (pos_INR (String.length p)) as Hn.
  destruct p as [| c s].
  - eexists _, _. split; [apply calculateEntropy_finite |].
    split; [reflexivity |].
    cbn [String.length INR]. rewrite !Rmult_0_l, Rminus_diag, Rabs_R0.
    lra.
  - eexists _, _. split; [apply calculateEntropy_finite |].
    split.
    + open_analysis. cbn [entropy]. rewrite calculateEntropy_finite.
      cbn [mul_d Math_round_d div_d]. reflexivity.
    + split.
      * split; [apply entropy_bits_nonneg | now apply Rmult_le_compat_l].
      * apply rounded_to_tenth.
Qed.

(** X8: below 1024 bits the estimated seconds are finite and grow strictly
    with the entropy; from 1024 bits on they are infinite; up to 30 bits
    the display is Instantly and from 63 bits on it is Centuries (with
    finite doubles read as real numbers). *)
Theorem X8_crack_time_monotone :
  (forall e1 e2 : R,
      (e1 < e2 < 1024)%R ->
      exists s1 s2 : R,
        seconds (calculateCrackTime (Finite e1)) = Finite s1
        /\ seconds (calculateCrackTime (Finite e2)) = Finite s2
        /\ (s1 < s2)%R)
  /\ (forall e : R,
         (1024 <= e)%R ->
         seconds (calculateCrackTime (Finite e)) = PosInfinity)
  /\ (forall e : R,
         (e <= 30)%R ->
         display (calculateCrackTime (Finite e)) = "Instantly")
  /\ (forall e : R,
         (63 <= e)%R ->
         display (calculateCrackTime (Finite e)) = "Centuries").
Proof.
  split; [| split; [| split]].
  - intros e1 e2 [H12 H2]. eexists _, _.
    split; [apply seconds_below; lra |].
    split; [apply seconds_below; lra |].
    pose proof (Rpower_lt 2 e1 e2 ltac:(lra) H12). lra.
  - exact seconds_overflow.
  - intros e He. apply display_instantly.
    assert (H : (Rpower 2 e <= 2 ^ 30)%R).
    { apply Rpower_2_le_pow. rewrite INR_IZR_INZ. cbn. lra. }
    lra.
  - intros e He. apply display_centuries.
    assert (H : (2 ^ 63 <= Rpower 2 e)%R).
    { apply Rpower_2_ge_pow. rewrite INR_IZR_INZ. cbn. lra. }
    lra.
Qed.

(** ** The breach cache *)

Lemma Map_get_set_same (m : Cache) (k : string) (v : CacheEntry) :
  Map_get (Map_set m k v) k = Some v.
Proof.
  induction m as [| [k' v'] m IH]; cbn [Map_set Map_get].
  - now rewrite String.eqb_refl.
  - destruct (String.eqb_spec k k') as [-> | Hne]; cbn [Map_get].
    + now rewrite String.eqb_refl.
    + destruct (String.eqb_spec k k'); [contradiction | exact IH].
Qed.

Lemma Map_get_set_other (m : Cache) (k q : string) (v : CacheEntry) :
  q <> k -> Map_get (Map_set m k v) q = Map_get m q.
Proof.
  intros Hq. induction m as [| [k' v'] m IH]; cbn [Map_set Map_get].
  - destruct (String.eqb_spec q k); [contradiction | reflexivity].
  - destruct (String.eqb_spec k k') as [-> | Hne]; cbn [Map_get].
    + destruct (String.eqb_spec q k'); [contradiction | reflexivity].
    + destruct (String.eqb_spec q k'); [reflexivity | exact IH].
Qed.

(** The provider either fails or delivers a body whose scan ends. *)
Lemma provider_outcome (env : Env) (p : string) :
  provider_failure env p
  \/ exists data found,
       fetch env (url_of env p) = HttpResponse true (Some data)
       /\ scan_lines (suffix_of env p) (split "010" data) = Return found.
Proof.
  destruct (fetch env (url_of env p)) as [| [|] [data |]] eqn:F.
  - left. now apply network_error.
  - destruct (scan_lines (suffix_of env p) (split "010" data))
      as [found | e] eqn:S.
    + right. now exists data, found.
    + left. now apply (malformed_line env p data e).
  - left. now apply unreadable_body.
  - left. now apply (bad_status env p (Some data)).
  - left. now apply (bad_status env p None).
Qed.

(** The verdict a scan result stands for. *)
Lemma query_provider_success (env : Env) (p : string) (st : State)
    (data : string) (found : option BreachInfo) :
  fetch env (url_of env p) = HttpResponse true (Some data) ->
  scan_lines (suffix_of env p) (split "010" data) = Return found ->
  let info := verdict found in
  query_provider env p st
  = (Return info,
     mkState
       (Map_set (breachCache st) p
          (mkCacheEntry (info_isBreached info) (info_count info)
             (Date_now env (clock_reads st))))
       (S (clock_reads st)) (requests st ++ [url_of env p]) (console st)
       (db_writes st)).
Proof.
  intros F S. cbv zeta.
  unfold query_provider, bind, do_fetch. cbv zeta.
  unfold url_of in F. rewrite F.
  unfold suffix_of in S. cbv zeta in S. rewrite S.
  destruct found as [result |]; reflexivity.
Qed.

Lemma query_provider_failure (env : Env) (p : string) (st : State) :
  provider_failure env p ->
  exists e,
    query_provider env p st
    = (Throw e,
       mkState (breachCache st) (clock_reads st)
         (requests st ++ [url_of env p]) (console st) (db_writes st)).
Proof.
  intros H. unfold query_provider, bind, do_fetch, throw. cbv zeta.
  destruct H as [H | body H | H | data e H Hs];
    unfold url_of in H; rewrite H; try (eexists; reflexivity).
  unfold suffix_of in Hs. cbv zeta in Hs. rewrite Hs.
  eexists; reflexivity.
Qed.

Lemma lookup_stale (env : Env) (p : string) (st : State) :
  cache_stale env p st ->
  lookup env p st = query_provider env p (before_query p st).
Proof.
  unfold cache_stale, lookup, before_query, bind, cache_get.
  destruct (Map_get (breachCache st) p) as [cached |]; [| reflexivity].
  intros H. apply Z.ltb_ge in H. unfold now at 1. cbv beta iota.
  now rewrite H.
Qed.

Lemma lookup_fresh (env : Env) (p : string) (st : State)
    (cached : CacheEntry) :
  Map_get (breachCache st) p = Some cached ->
  Date_now env (clock_reads st) - timestamp cached < 3600000 ->
  lookup env p st
  = (Return (mkBreachInfo (entry_isBreached cached) (entry_count cached)),
     mkState (breachCache st) (S (clock_reads st)) (requests st)
       (console st) (db_writes st)).
Proof.
  intros Hget Hage. unfold lookup, bind, cache_get. rewrite Hget.
  unfold now at 1. cbv beta iota. apply Z.ltb_lt in Hage. now rewrite Hage.
Qed.

Lemma before_query_fields (p : string) (st : State) :
  breachCache (before_query p st) = breachCache st
  /\ requests (before_query p st) = requests st
  /\ console (before_query p st) = console st
  /\ db_writes (before_query p st) = db_writes st
  /\ (clock_reads st <= clock_reads (before_query p st))%nat.
Proof.
  unfold before_query.
  destruct (Map_get (breachCache st) p); cbn; repeat split; lia.
Qed.

Lemma fresh_entry_served (env : Env) (p : string) (st : State)
    (cached : CacheEntry) :
  Map_get (breachCache st) p = Some cached ->
  Date_now env (clock_reads st) - timestamp cached < 3600000 ->
  exists st',
    checkPasswordBreach env p st
    = (Return (mkBreachInfo (entry_isBreached cached) (entry_count cached)),
       st')
    /\ requests st' = requests st
    /\ breachCache st' = breachCache st
    /\ console st' = console st
    /\ clock_reads st' = S (clock_reads st).
Proof.
  intros Hget Hage. unfold checkPasswordBreach, try_catch.
  rewrite (lookup_fresh env p st cached Hget Hage).
  eexists. repeat split.
Qed.

(** X9: a cached verdict less than an hour old is returned as it is: no
    request is sent, nothing is logged and the cache is left alone; the
    clock is read once. *)
Theorem X9_fresh_entry_is_served (env : Env) (p : string) (st : State)
    (cached : CacheEntry) :
  Map_get (breachCache st) p = Some cached ->
  Date_now env (clock_reads st) - timestamp cached < 3600000 ->
  exists st',
    checkPasswordBreach env p st
    = (Return (mkBreachInfo (entry_isBreached cached) (entry_count cached)),
       st')
    /\ requests st' = requests st
    /\ breachCache st' = breachCache st
    /\ console st' = console st
    /\ clock_reads st' = S (clock_reads st).
Proof.
  intros Hget Hage.
  destruct (fresh_entry_served env p st cached Hget Hage)
    as (st' & E & H1 & H2 & H3 & H4).
  exists st'. repeat split; assumption.
Qed.

Lemma X9_fresh_entry_is_served_witness :
  exists st',
    checkPasswordBreach (sample_env NetworkError) "password" warm_state
    = (Return (mkBreachInfo true (Num 3730471)), st')
    /\ requests st' = requests warm_state
    /\ breachCache st' = breachCache warm_state
    /\ console st' = console warm_state
    /\ clock_reads st' = S (clock_reads warm_state).
Proof.
  apply (X9_fresh_entry_is_served (sample_env NetworkError) "password"
           warm_state (mkCacheEntry true (Num 3730471) 1699998200000)).
  - reflexivity.
  - reflexivity.
Defined.

(** X10: when the lookup has to ask the provider and the provider
    answers, the verdict is stored under the password with the time of
    storing, other passwords keep their entries, exactly one request is
    added, and a second lookup before the hour is over returns the same
    verdict without a request. *)
Theorem X10_verdict_is_cached (env : Env) (p : string) (st : State) :
  cache_stale env p st ->
  ~ provider_failure env p ->
  exists info st1,
    checkPasswordBreach env p st = (Return info, st1)
    /\ Map_get (breachCache st1) p
       = Some (mkCacheEntry (info_isBreached info) (info_count info)
                 (Date_now env (pred (clock_reads st1))))
    /\ (forall q, q <> p ->
        Map_get (breachCache st1) q = Map_get (breachCache st) q)
    /\ requests st1 = (requests st ++ [url_of env p])%list
    /\ (Date_now env (clock_reads st1)
        - Date_now env (pred (clock_reads st1)) < 3600000 ->
        exists st2,
          checkPasswordBreach env p st1 = (Return info, st2)
          /\ requests st2 = requests st1).
Proof.
  intros Hstale Hok.
  destruct (provider_outcome env p) as [Hfail | (data & found & F & S)];
    [contradiction |].
  pose proof (query_provider_success env p (before_query p st) data found F S)
    as Hq. cbv zeta in Hq.
  destruct (before_query_fields p st) as (Hc & Hr & _).
  rewrite Hc, Hr in Hq.
  destruct (verdict found) as [breached count].
  cbn [info_isBreached info_count] in Hq.
  eexists (mkBreachInfo breached count), _. split.
  { unfold checkPasswordBreach, try_catch.
    rewrite (lookup_stale env p st Hstale), Hq. reflexivity. }
  cbn [breachCache clock_reads requests pred].
  split; [apply Map_get_set_same |].
  split; [intros q Hq'; now apply Map_get_set_other |].
  split; [reflexivity |].
  intros Hage.
  match goal with
  | |- exists st2, checkPasswordBreach env p ?s = _ /\ _ =>
      destruct (fresh_entry_served env p s _ (Map_get_set_same _ _ _) Hage)
        as (st2 & E & Hreq & _)
  end.
  cbn [entry_isBreached entry_count] in E.
  exists st2. split; [exact E | exact Hreq].
Qed.

Lemma X10_verdict_is_cached_witness :
  exists info st1,
    checkPasswordBreach (sample_env (HttpResponse true (Some sample_body)))
      "password" initial_state = (Return info, st1)
    /\ Map_get (breachCache st1) "password"
       = Some (mkCacheEntry (info_isBreached info) (info_count info)
                 (Date_now (sample_env (HttpResponse true (Some sample_body)))
                    (pred (clock_reads st1))))
    /\ (forall q, q <> "password" ->
        Map_get (breachCache st1) q = Map_get (breachCache initial_state) q)
    /\ requests st1
       = (requests initial_state
          ++ [url_of (sample_env (HttpResponse true (Some sample_body)))
                "password"])%list
    /\ (Date_now (sample_env (HttpResponse true (Some sample_body)))
          (clock_reads st1)
        - Date_now (sample_env (HttpResponse true (Some sample_body)))
            (pred (clock_reads st1)) < 3600000 ->
        exists st2,
          checkPasswordBreach
            (sample_env (HttpResponse true (Some sample_body)))
            "password" st1 = (Return info, st2)
          /\ requests st2 = requests st1).
Proof.
  apply (X10_verdict_is_cached
           (sample_env (HttpResponse true (Some sample_body)))
           "password" initial_state).
  - exact I.
  - intros [H | body H | H | data e H Hs]; try discriminate H.
    injection H as <-. vm_compute in Hs. discriminate Hs.
Defined.

(** ** The scan of the response *)

Lemma scan_lines_skip (suffix : string) (before rest : list string) :
  (forall l, In l before -> hash_part l <> suffix) ->
  scan_lines suffix (before ++ rest) = scan_lines suffix rest.
Proof.
  induction before as [| l before IH]; intros H; [reflexivity |].
  cbn [app scan_lines].
  fold (hash_part l).
  destruct (String.eqb_spec (hash_part l) suffix) as [E | _].
  - exfalso. apply (H l); [now left | exact E].
  - apply IH. intros l' Hin. apply H. now right.
Qed.

(** X11: the first line whose part before the colon equals the suffix
    decides the scan, whatever follows it: with a count after the colon
    the verdict is breached with that count parsed, without one the scan
    raises. *)
Theorem X11_first_matching_line_decides (suffix line : string)
    (before after : list string) :
  (forall l, In l before -> hash_part l <> suffix) ->
  hash_part line = suffix ->
  match nth_error (split ":" line) 1 with
  | Some count =>
      scan_lines suffix (before ++ line :: after)
      = Return (Some (mkBreachInfo true (parseInt (trim count))))
  | None => exists e, scan_lines suffix (before ++ line :: after) = Throw e
  end.
Proof.
  intros Hbefore Hline. rewrite (scan_lines_skip _ _ _ Hbefore).
  cbn [scan_lines]. fold (hash_part line).
  rewrite Hline, String.eqb_refl.
  destruct (nth_error (split ":" line) 1); [reflexivity | eexists; reflexivity].
Qed.

Lemma X11_first_matching_line_decides_witness :
  match nth_error (split ":" "BBB: 7 ") 1 with
  | Some count =>
      scan_lines "BBB" (["AAA:1"; "CCC"] ++ "BBB: 7 " :: ["BBB:9"])
      = Return (Some (mkBreachInfo true (parseInt (trim count))))
  | None =>
      exists e,
        scan_lines "BBB" (["AAA:1"; "CCC"] ++ "BBB: 7 " :: ["BBB:9"])
        = Throw e
  end.
Proof.
  apply (X11_first_matching_line_decides "BBB" "BBB: 7 " ["AAA:1"; "CCC"]
           ["BBB:9"]).
  - intros l [<- | [<- | []]]; vm_compute; discriminate.
  - reflexivity.
Defined.

(** X12: the scan ends with no match exactly when no line has the suffix
    before its colon, and a match it reports is always a breach. *)
Theorem X12_scan_verdicts (suffix : string) (lines : list string) :
  (scan_lines suffix lines = Return None
   <-> forall l, In l lines -> hash_part l <> suffix)
  /\ (forall info,
         scan_lines suffix lines = Return (Some info) ->
         info_isBreached info = true
         /\ exists l, In l lines /\ hash_part l = suffix).
Proof.
  induction lines as [| l lines [IH1 IH2]].
  - split; [split; [intros _ l [] | reflexivity] | discriminate].
  - cbn [scan_lines]. fold (hash_part l).
    destruct (String.eqb_spec (hash_part l) suffix) as [E | Hne].
    + split.
      * split.
        -- destruct (nth_error (split ":" l) 1); discriminate.
        -- intros H. exfalso. apply (H l); [now left | exact E].
      * intros info H.
        destruct (nth_error (split ":" l) 1); [| discriminate].
        injection H as <-. split; [reflexivity |].
        exists l. split; [now left | exact E].
    + split.
      * rewrite IH1. split.
        -- intros H l' [<- | Hin]; [exact Hne | now apply H].
        -- intros H l' Hin. apply H. now right.
      * intros info H. destruct (IH2 info H) as (Hb & l' & Hin & E).
        split; [exact Hb |]. exists l'. split; [now right | exact E].
Qed.

(** ** Requests and writes *)

Lemma substring_prefix_length (n : nat) (s : string) :
  (String.length (substring 0 n s) <= n)%nat.
Proof.
  revert s. induction n as [| n IH]; intros [| c s]; cbn; try lia.
  specialize (IH s). lia.
Qed.

(** What a lookup does to the state, in its three courses. *)
Lemma checkPasswordBreach_effect (env : Env) (p : string) (st : State) :
  exists info st',
    checkPasswordBreach env p st = (Return info, st')
    /\ db_writes st' = db_writes st
    /\ (requests st' = requests st
        \/ requests st' = (requests st ++ [url_of env p])%list).
Proof.
  unfold checkPasswordBreach, try_catch.
  destruct (Map_get (breachCache st) p) as [cached |] eqn:Hget.
  - destruct (Z_lt_le_dec (Date_now env (clock_reads st) - timestamp cached)
                3600000) as [Hfresh | Hstale].
    + rewrite (lookup_fresh env p st cached Hget Hfresh).
      eexists _, _. split; [reflexivity |]. split; [reflexivity | now left].
    + assert (Hs : cache_stale env p st)
        by (unfold cache_stale; now rewrite Hget).
      rewrite (lookup_stale env p st Hs).
      destruct (before_query_fields p st) as (_ & Hr & _ & Hd & _).
      destruct (provider_outcome env p) as [Hfail | (data & found & F & S)].
      * destruct (query_provider_failure env p (before_query p st) Hfail)
          as (e & ->).
        unfold bind, console_error, ret. eexists _, _.
        split; [reflexivity |]. cbn [db_writes requests].
        split; [exact Hd | right; now rewrite Hr].
      * rewrite (query_provider_success env p _ data found F S).
        eexists _, _. split; [reflexivity |]. cbn [db_writes requests].
        split; [exact Hd | right; now rewrite Hr].
  - assert (Hs : cache_stale env p st)
      by (unfold cache_stale; now rewrite Hget).
    rewrite (lookup_stale env p st Hs).
    destruct (before_query_fields p st) as (_ & Hr & _ & Hd & _).
    destruct (provider_outcome env p) as [Hfail | (data & found & F & S)].
    + destruct (query_provider_failure env p (before_query p st) Hfail)
        as (e & ->).
      unfold bind, console_error, ret. eexists _, _.
      split; [reflexivity |]. cbn [db_writes requests].
      split; [exact Hd | right; now rewrite Hr].
    + rewrite (query_provider_success env p _ data found F S).
      eexists _, _. split; [reflexivity |]. cbn [db_writes requests].
      split; [exact Hd | right; now rewrite Hr].
Qed.

(** X13: a lookup always returns a verdict and sends at most one request;
    the address it asks is the fixed range address followed by the first
    five characters of the upper-cased SHA-1 digest and nothing else of
    the password. *)
Theorem X13_at_most_one_request (env : Env) (p : string) (st : State) :
  (exists info st',
      checkPasswordBreach env p st = (Return info, st')
      /\ (requests st' = requests st
          \/ requests st' = (requests st ++ [url_of env p])%list))
  /\ url_of env p
     = range_url ++ substring 0 5 (toUpperCase (sha1_hex env p))
  /\ (String.length (url_of env p) <= String.length range_url + 5)%nat
  /\ (forall q,
         substring 0 5 (toUpperCase (sha1_hex env q))
         = substring 0 5 (toUpperCase (sha1_hex env p)) ->
         url_of env q = url_of env p).
Proof.
  split; [| split; [reflexivity | split]].
  - destruct (checkPasswordBreach_effect env p st)
      as (info & st' & E & _ & Hr).
    now exists info, st'.
  - unfold url_of. rewrite length_append.
    pose proof (substring_prefix_length 5 (toUpperCase (sha1_hex env p))).
    lia.
  - intros q H. unfold url_of. now rewrite H.
Qed.

Lemma analyze_and_check_writes (env : Env) (p : string) (st : State) :
  exists a st1,
    analyze_and_check env p st = (Return a, st1)
    /\ db_writes st1 = db_writes st.
Proof.
  destruct p as [| c s].
  - exists (analyzePassword ""), st. now split.
  - destruct (checkPasswordBreach_effect env (String c s) st)
      as (info & st1 & E & Hd & _).
    exists (apply_breach env (analyzePassword (String c s)) info), st1.
    split; [| exact Hd].
    apply analyze_and_check_nonempty; [discriminate | exact E].
Qed.

(** X14: the handler appends to the database and never rewrites it.  With
    a 200 reply it has logged the check once, with the very result it
    sends and the digest of the password (the empty string for the empty
    password), under the id of the caller or under null where there is no
    caller or the id is the empty string, followed by one history row under
    the id as it is exactly when the caller is signed in, asked for it and
    the password is not empty; with a 500 reply it has written nothing or
    the check alone.  A password that is not a string gets a 400 and leaves
    the state untouched. *)
Theorem X14_handler_writes (env : Env) (p : string) (save : bool)
    (user : option string) (st : State) :
  (exists reply st' written,
      handlePasswordAnalysis env (VString p) save user st
      = (Return reply, st')
      /\ db_writes st' = (db_writes st ++ written)%list
      /\ match reply with
         | Json status a =>
             status = 200
             /\ written
                = (CheckLogged (id_or_null user) (password_hash env p) a
                   :: match user with
                      | Some id =>
                          if save && negb (String.eqb p "")
                          then [HistoryAdded id (password_hash env p) a]
                          else []
                      | None => []
                      end)
         | JsonError status _ =>
             status = 500
             /\ (written = []
                 \/ exists a,
                      written
                      = [CheckLogged (id_or_null user) (password_hash env p)
                           a])
         end)
  /\ handlePasswordAnalysis env VOther save user st
     = (Return (JsonError 400 "Password must be a string"), st)
  /\ id_or_null None = None
  /\ id_or_null (Some "") = None
  /\ (forall id, id <> "" -> id_or_null (Some id) = Some id).
Proof.
  split; [| split; [reflexivity |]].
  2: { split; [reflexivity |]. split; [reflexivity |].
       intros [| c id] H; [contradiction | reflexivity]. }
  destruct (analyze_and_check_writes env p st) as (a & st1 & Ha & Hd).
  unfold handlePasswordAnalysis, try_catch, handle, bind. rewrite Ha.
  fold (password_hash env p).
  unfold db_write, console_error, ret.
  assert (Hlen : (len p >? 0) = negb (String.eqb p "")).
  { destruct p as [| c s]; [reflexivity |]. now rewrite len_nonempty. }
  rewrite Hlen.
  destruct (passwordCheckDb_log_throws env).
  { eexists _, _, []. cbn [db_writes]. rewrite app_nil_r.
    split; [reflexivity |]. split; [exact Hd |]. split; [reflexivity | now left]. }
  destruct user as [id |].
  - destruct (save && negb (String.eqb p "")).
    + destruct (passwordHistoryDb_add_throws env).
      * eexists _, _, [_]. cbn [db_writes]. rewrite Hd.
        split; [reflexivity |]. split; [reflexivity |].
        split; [reflexivity | right; eexists; reflexivity].
      * eexists _, _, [_; _]. cbn [db_writes]. rewrite Hd, <- app_assoc.
        split; [reflexivity |]. split; [reflexivity |]. now split.
    + eexists _, _, [_]. cbn [db_writes]. rewrite Hd.
      split; [reflexivity |]. split; [reflexivity |]. now split.
  - eexists _, _, [_]. cbn [db_writes]. rewrite Hd.
    split; [reflexivity |]. split; [reflexivity |]. now split.
Qed.

(** ** The address pattern of the registration *)

Lemma match_items_nil (s : string) :
  Auth.match_items s [] = true <-> s = "".
Proof. destruct s; cbn; split; intros; try reflexivity; discriminate. Qed.

Lemma match_items_lit (c : ascii) (rest : list Auth.item) (s : string) :
  Auth.match_items s (Auth.Lit c :: rest) = true
  <-> exists v, s = String c v /\ Auth.match_items v rest = true.
Proof.
  destruct s as [| x s]; cbn [Auth.match_items].
  - split; [discriminate | intros (v & H & _); discriminate].
  - rewrite andb_true_iff, Ascii.eqb_eq. split.
    + intros [-> H]. now exists s.
    + intros (v & [= -> ->] & H). now split.
Qed.

Lemma match_items_plus (cls : ascii -> bool) (rest : list Auth.item)
    (s : string) :
  Auth.match_items s (Auth.Plus cls :: rest) = true
  <-> exists u v,
        s = u ++ v /\ u <> "" /\ Auth.all_chars cls u = true
        /\ Auth.match_items v rest = true.
Proof.
  split.
  - induction s as [| x s IH]; cbn [Auth.match_items]; [discriminate |].
    intros H. apply andb_prop in H as [Hx H].
    apply orb_prop in H as [H | H].
    + exists (String x ""), s. cbn. rewrite Hx. repeat split; [discriminate | exact H].
    + destruct (IH H) as (u & v & -> & Hu & Hall & Hv).
      exists (String x u), v. cbn. rewrite Hx, Hall.
      repeat split; [discriminate | exact Hv].
  - intros (u & v & -> & Hu & Hall & Hv).
    destruct u as [| x u]; [contradiction |]. clear Hu.
    revert x Hall. induction u as [| y u IH]; intros x Hall;
      cbn [Auth.all_chars] in Hall; apply andb_prop in Hall as [Hx Hall];
      cbn [append Auth.match_items]; rewrite Hx; cbn [andb].
    + cbn [append]. now rewrite Hv.
    + apply orb_true_iff. right. apply (IH y Hall).
Qed.

(** X15: the address pattern of the registration accepts exactly the
    strings made of a local part, an at sign, a domain, a dot and an
    ending, each part non-empty and free of white space and at signs. *)
Theorem X15_email_pattern (s : string) :
  Auth.match_items s Auth.emailRegex = true
  <-> exists local domain ending,
        s = local ++ "@" ++ domain ++ "." ++ ending
        /\ Auth.part local /\ Auth.part domain /\ Auth.part ending.
Proof.
  unfold Auth.emailRegex, Auth.part. rewrite match_items_plus. split.
  - intros (l & v1 & -> & Hl & Hla & H).
    apply match_items_lit in H as (v2 & -> & H).
    apply match_items_plus in H as (d & v3 & -> & Hd & Hda & H).
    apply match_items_lit in H as (v4 & -> & H).
    apply match_items_plus in H as (e & v5 & -> & He & Hea & H).
    apply match_items_nil in H as ->.
    exists l, d, e. split; [| now repeat split].
    cbn [append]. f_equal. f_equal. f_equal. f_equal.
    clear. induction e as [| c e IH]; cbn; [reflexivity | now rewrite IH].
  - intros (l & d & e & -> & (Hl & Hla) & (Hd & Hda) & (He & Hea)).
    exists l, ("@" ++ d ++ "." ++ e). repeat split; try assumption.
    apply match_items_lit. exists (d ++ "." ++ e). split; [reflexivity |].
    apply match_items_plus. exists d, ("." ++ e). repeat split; try assumption.
    apply match_items_lit. exists e. split; [reflexivity |].
    apply match_items_plus. exists e, "". repeat split; try assumption.
    clear. induction e as [| c e IH]; cbn; [reflexivity | now rewrite <- IH].
Qed.

(** ** Signing in *)

Lemma falsy_value (field : option string) :
  Auth.falsy field = false ->
  field = Some (Auth.value field) /\ Auth.value field <> "".
Proof.
  destruct field as [[| c s] |]; cbn; intros H; try discriminate H.
  split; [reflexivity | discriminate].
Qed.

(** X16: a sign-in that the rate limit refuses ends after three calls: the
    count of recent failures, the limit check and the log entry with the
    reason; the account table is not read, the password is not compared
    and no token is made.  The reply is 429, or 500 if the log raises. *)
Theorem X16_rate_limit_comes_first (co : Auth.Collaborators)
    (email password : string) (count : Z) (tr : list Auth.Call) :
  email <> "" -> password <> "" ->
  Auth.getRecentFailedAttempts co (toLowerCase email) = Return count ->
  Auth.checkRateLimit co count = false ->
  exists reply,
    Auth.handleLogin co (Some email) (Some password) tr
    = (Return reply,
       (tr ++ [Auth.GetRecentFailedAttempts (toLowerCase email);
               Auth.CheckRateLimit count;
               Auth.LogAttempt (toLowerCase email) false
                 (Some "Rate limited")])%list)
    /\ Auth.token reply = None
    /\ Auth.status reply
       = match Auth.logAttempt co (toLowerCase email) false
                 (Some "Rate limited") with
         | Return _ => 429
         | Throw _ => 500
         end.
Proof.
  intros He Hp Hcount Hlimit. run_handler.
  destruct email as [| c e]; [contradiction |].
  destruct password as [| d p]; [contradiction |].
  cbn [Auth.falsy orb Auth.value]. rewrite Hcount, Hlimit. cbn [negb].
  rewrite <- !app_assoc. cbn [app].
  destruct (Auth.logAttempt co _ false (Some "Rate limited")) as [[] | e'];
    eexists; repeat split.
Qed.

Lemma X16_rate_limit_comes_first_witness :
  exists reply,
    Auth.handleLogin
      (Auth.mkCollaborators (Auth.validatePassword Auth.sample)
         (Auth.uuidv4 Auth.sample) (Auth.hashSync Auth.sample)
         (Auth.insertUser Auth.sample) (Auth.generateToken Auth.sample)
         (Auth.logAttempt Auth.sample) (fun _ => Return 9)
         (Auth.checkRateLimit Auth.sample) (Auth.findByEmail Auth.sample)
         (Auth.comparePassword Auth.sample)
         (Auth.updateLastLogin Auth.sample))
      (Some "Ann@Example.com") (Some "secret") []
    = (Return reply,
       ([] ++ [Auth.GetRecentFailedAttempts (toLowerCase "Ann@Example.com");
               Auth.CheckRateLimit 9;
               Auth.LogAttempt (toLowerCase "Ann@Example.com") false
                 (Some "Rate limited")])%list)
    /\ Auth.token reply = None
    /\ Auth.status reply
       = match Auth.logAttempt Auth.sample (toLowerCase "Ann@Example.com")
                 false (Some "Rate limited") with
         | Return _ => 429
         | Throw _ => 500
         end.
Proof.
  apply (X16_rate_limit_comes_first
           (Auth.mkCollaborators (Auth.validatePassword Auth.sample)
              (Auth.uuidv4 Auth.sample) (Auth.hashSync Auth.sample)
              (Auth.insertUser Auth.sample) (Auth.generateToken Auth.sample)
              (Auth.logAttempt Auth.sample) (fun _ => Return 9)
              (Auth.checkRateLimit Auth.sample) (Auth.findByEmail Auth.sample)
              (Auth.comparePassword Auth.sample)
              (Auth.updateLastLogin Auth.sample))
           "Ann@Example.com" "secret" 9 []).
  - discriminate.
  - discriminate.
  - reflexivity.
  - reflexivity.
Defined.

(** X17: a 200 reply to a sign-in means that both fields were given, the
    rate limit let the request pass, an account was found under the
    lower-cased address and the password compared equal to its hash; the
    reply carries the token made for that account, and the calls were
    these seven, in this order. *)
Theorem X17_sign_in_success (co : Auth.Collaborators)
    (email password : option string) (tr tr' : list Auth.Call)
    (reply : Auth.Reply) :
  Auth.handleLogin co email password tr = (Return reply, tr') ->
  Auth.status reply = 200 ->
  exists e p count u tok,
    email = Some e /\ password = Some p
    /\ Auth.getRecentFailedAttempts co (toLowerCase e) = Return count
    /\ Auth.checkRateLimit co count = true
    /\ Auth.findByEmail co (toLowerCase e) = Return (Some u)
    /\ Auth.comparePassword co p (Auth.password_hash u) = Return true
    /\ Auth.generateToken co (Auth.id u) (Auth.email u) (Auth.role u)
       = Return tok
    /\ Auth.token reply = Some tok
    /\ Auth.user reply = Some (Auth.id u, Auth.email u, Auth.role u)
    /\ tr' = (tr ++ [Auth.GetRecentFailedAttempts (toLowerCase e);
                     Auth.CheckRateLimit count;
                     Auth.FindByEmail (toLowerCase e);
                     Auth.ComparePassword p (Auth.password_hash u);
                     Auth.UpdateLastLogin (Auth.id u);
                     Auth.LogAttempt (toLowerCase e) true None;
                     Auth.GenerateToken (Auth.id u) (Auth.email u)
                       (Auth.role u)])%list.
Proof.
  run_handler. intros H Hs.
  destruct (Auth.falsy email || Auth.falsy password) eqn:Hf.
  { injection H as <- _. discriminate Hs. }
  apply orb_false_elim in Hf as [Hfe Hfp].
  apply falsy_value in Hfe as [He _], Hfp as [Hp _].
  set (e := Auth.value email) in *. set (p := Auth.value password) in *.
  destruct (Auth.getRecentFailedAttempts co (toLowerCase e))
    as [count | err] eqn:Hcount;
    [| injection H as <- _; discriminate Hs].
  destruct (Auth.checkRateLimit co count) eqn:Hlimit; cbn [negb] in H.
  2:{ destruct (Auth.logAttempt co _ false (Some "Rate limited"));
      injection H as <- _; discriminate Hs. }
  destruct (Auth.findByEmail co (toLowerCase e)) as [[u |] | err] eqn:Hfind.
  2:{ destruct (Auth.logAttempt co _ false (Some "User not found"));
      injection H as <- _; discriminate Hs. }
  2:{ injection H as <- _; discriminate Hs. }
  destruct (Auth.comparePassword co p (Auth.password_hash u))
    as [[|] | err] eqn:Hcmp; cbn [negb] in H.
  2:{ destruct (Auth.logAttempt co _ false (Some "Invalid password"));
      injection H as <- _; discriminate Hs. }
  2:{ injection H as <- _; discriminate Hs. }
  destruct (Auth.updateLastLogin co (Auth.id u)) as [[] | err];
    [| injection H as <- _; discriminate Hs].
  destruct (Auth.logAttempt co (toLowerCase e) true None) as [[] | err];
    [| injection H as <- _; discriminate Hs].
  destruct (Auth.generateToken co (Auth.id u) (Auth.email u) (Auth.role u))
    as [tok | err] eqn:Htok;
    [| injection H as <- _; discriminate Hs].
  injection H as <- <-.
  exists e, p, count, u, tok.
  rewrite <- !app_assoc. cbn [app Auth.token Auth.user].
  repeat split; assumption.
Qed.

Lemma X17_sign_in_success_witness :
  exists e p count u tok,
    Some "Ann@Example.com" = Some e /\ Some "secret" = Some p
    /\ Auth.getRecentFailedAttempts Auth.sample (toLowerCase e) = Return count
    /\ Auth.checkRateLimit Auth.sample count = true
    /\ Auth.findByEmail Auth.sample (toLowerCase e) = Return (Some u)
    /\ Auth.comparePassword Auth.sample p (Auth.password_hash u)
       = Return true
    /\ Auth.generateToken Auth.sample (Auth.id u) (Auth.email u)
         (Auth.role u) = Return tok
    /\ Auth.token
         (Auth.mkReply 200 true "Login successful" (Some "token-for-id-7")
            (Some ("id-7", "ann@example.com", "user"))) = Some tok
    /\ Auth.user
         (Auth.mkReply 200 true "Login successful" (Some "token-for-id-7")
            (Some ("id-7", "ann@example.com", "user")))
       = Some (Auth.id u, Auth.email u, Auth.role u)
    /\ [Auth.GetRecentFailedAttempts "ann@example.com";
        Auth.CheckRateLimit 0;
        Auth.FindByEmail "ann@example.com";
        Auth.ComparePassword "secret" "hash-7";
        Auth.UpdateLastLogin "id-7";
        Auth.LogAttempt "ann@example.com" true None;
        Auth.GenerateToken "id-7" "ann@example.com" "user"]
       = ([] ++ [Auth.GetRecentFailedAttempts (toLowerCase e);
                 Auth.CheckRateLimit count;
                 Auth.FindByEmail (toLowerCase e);
                 Auth.ComparePassword p (Auth.password_hash u);
                 Auth.UpdateLastLogin (Auth.id u);
                 Auth.LogAttempt (toLowerCase e) true None;
                 Auth.GenerateToken (Auth.id u) (Auth.email u)
                   (Auth.role u)])%list.
Proof.
  apply (X17_sign_in_success Auth.sample (Some "Ann@Example.com")
           (Some "secret") []).
  - vm_compute. reflexivity.
  - reflexivity.
Defined.

(** X18: every 401 reply to a sign-in is the same reply, whether the
    address is unknown or the password wrong; only the last entry of the
    trace, the log of the failed attempt, tells the two apart. *)
Theorem X18_sign_in_failures_look_alike (co : Auth.Collaborators)
    (email password : option string) (tr tr' : list Auth.Call)
    (reply : Auth.Reply) :
  Auth.handleLogin co email password tr = (Return reply, tr') ->
  Auth.status reply = 401 ->
  reply = Auth.failure 401 "Invalid email or password"
  /\ exists earlier reason,
       tr' = (earlier
              ++ [Auth.LogAttempt (toLowerCase (Auth.value email)) false
                    (Some reason)])%list
       /\ (reason = "User not found" \/ reason = "Invalid password").
Proof.
  run_handler. intros H Hs.
  destruct (Auth.falsy email || Auth.falsy password).
  { injection H as <- _. discriminate Hs. }
  set (e := Auth.value email) in *. set (p := Auth.value password) in *.
  destruct (Auth.getRecentFailedAttempts co (toLowerCase e))
    as [count | err];
    [| injection H as <- _; discriminate Hs].
  destruct (Auth.checkRateLimit co count); cbn [negb] in H.
  2:{ destruct (Auth.logAttempt co _ false (Some "Rate limited"));
      injection H as <- _; discriminate Hs. }
  destruct (Auth.findByEmail co (toLowerCase e)) as [[u |] | err].
  2:{ destruct (Auth.logAttempt co _ false (Some "User not found"));
        injection H as <- <-; [| discriminate Hs].
      split; [reflexivity |]. eexists _, _. split; [reflexivity | now left]. }
  2:{ injection H as <- _; discriminate Hs. }
  destruct (Auth.comparePassword co p (Auth.password_hash u))
    as [[|] | err]; cbn [negb] in H.
  2:{ destruct (Auth.logAttempt co _ false (Some "Invalid password"));
        injection H as <- <-; [| discriminate Hs].
      split; [reflexivity |]. eexists _, _. split; [reflexivity | now right]. }
  2:{ injection H as <- _; discriminate Hs. }
  destruct (Auth.updateLastLogin co (Auth.id u)) as [[] | err];
    [| injection H as <- _; discriminate Hs].
  destruct (Auth.logAttempt co (toLowerCase e) true None) as [[] | err];
    [| injection H as <- _; discriminate Hs].
  destruct (Auth.generateToken co (Auth.id u) (Auth.email u) (Auth.role u))
    as [tok | err];
    injection H as <- _; discriminate Hs.
Qed.

Lemma X18_sign_in_failures_look_alike_witness :
  Auth.failure 401 "Invalid email or password"
  = Auth.failure 401 "Invalid email or password"
  /\ exists earlier reason,
       [Auth.GetRecentFailedAttempts "ann@example.com";
        Auth.CheckRateLimit 0;
        Auth.FindByEmail "ann@example.com";
        Auth.ComparePassword "guess" "hash-7";
        Auth.LogAttempt "ann@example.com" false (Some "Invalid password")]
       = (earlier
          ++ [Auth.LogAttempt
                (toLowerCase (Auth.value (Some "ann@example.com"))) false
                (Some reason)])%list
       /\ (reason = "User not found" \/ reason = "Invalid password").
Proof.
  apply (X18_sign_in_failures_look_alike Auth.sample
           (Some "ann@example.com") (Some "guess") []).
  - vm_compute. reflexivity.
  - reflexivity.
Defined.

Lemma toLowerCase_empty (s : string) : toLowerCase s = "" <-> s = "".
Proof. destruct s; cbn; split; intros H; try reflexivity; discriminate H. Qed.

(** X19: the sign-in does not look at the case of the address: two
    addresses with the same lower-casing get the same reply and make the
    same calls. *)
Theorem X19_sign_in_ignores_case (co : Auth.Collaborators)
    (email1 email2 : string) (password : option string)
    (tr : list Auth.Call) :
  toLowerCase email1 = toLowerCase email2 ->
  Auth.handleLogin co (Some email1) password tr
  = Auth.handleLogin co (Some email2) password tr.
Proof.
  intros H. run_handler.
  assert (Hf : Auth.falsy (Some email1) = Auth.falsy (Some email2)).
  { destruct email1, email2; try reflexivity; discriminate H. }
  rewrite Hf. cbn [Auth.value]. now rewrite H.
Qed.

Lemma X19_sign_in_ignores_case_witness :
  Auth.handleLogin Auth.sample (Some "Ann@Example.COM") (Some "secret") []
  = Auth.handleLogin Auth.sample (Some "ann@example.com") (Some "secret") [].
Proof.
  apply X19_sign_in_ignores_case. vm_compute. reflexivity.
Defined.

(** ** Registering *)



(** X21: when a registration passes its checks and the insert meets an
    account with the same address, the reply is 409; no token is made and
    no attempt is logged. *)
Theorem X21_duplicate_address (co : Auth.Collaborators)
    (email password : string) (tr : list Auth.Call) :
  password <> "" ->
  Auth.match_items email Auth.emailRegex = true ->
  fst (Auth.validatePassword co password) = true ->
  Auth.insertUser co (Auth.uuidv4 co) (toLowerCase email)
    (Auth.hashSync co password) "user" = Auth.UniqueViolation ->
  Auth.handleRegister co (Some email) (Some password) (Some password) tr
  = (Return (Auth.failure 409 "An account with this email already exists"),
     (tr ++ [Auth.ValidatePassword password;
             Auth.InsertUser (Auth.uuidv4 co) (toLowerCase email)
               (Auth.hashSync co password) "user"])%list).
Proof.
  intros Hp Hm Hv Hins. run_handler.
  assert (He : Auth.falsy (Some email) = false).
  { destruct email; [discriminate Hm | reflexivity]. }
  assert (Hp' : Auth.falsy (Some password) = false).
  { destruct password; [contradiction | reflexivity]. }
  rewrite He, Hp'. cbn [orb Auth.value].
  rewrite String.eqb_refl, Hm, Hv, Hins. cbn [negb].
  rewrite <- !app_assoc. reflexivity.
Qed.

Lemma X21_duplicate_address_witness :
  Auth.handleRegister
    (Auth.mkCollaborators (Auth.validatePassword Auth.sample)
       (Auth.uuidv4 Auth.sample) (Auth.hashSync Auth.sample)
       (fun _ _ _ _ => Auth.UniqueViolation)
       (Auth.generateToken Auth.sample) (Auth.logAttempt Auth.sample)
       (Auth.getRecentFailedAttempts Auth.sample)
       (Auth.checkRateLimit Auth.sample) (Auth.findByEmail Auth.sample)
       (Auth.comparePassword Auth.sample) (Auth.updateLastLogin Auth.sample))
    (Some "ann@example.com") (Some "longenough") (Some "longenough") []
  = (Return (Auth.failure 409 "An account with this email already exists"),
     ([] ++ [Auth.ValidatePassword "longenough";
             Auth.InsertUser "id-1" (toLowerCase "ann@example.com")
               "hash-of-longenough" "user"])%list).
Proof.
  apply (X21_duplicate_address
           (Auth.mkCollaborators (Auth.validatePassword Auth.sample)
              (Auth.uuidv4 Auth.sample) (Auth.hashSync Auth.sample)
              (fun _ _ _ _ => Auth.UniqueViolation)
              (Auth.generateToken Auth.sample) (Auth.logAttempt Auth.sample)
              (Auth.getRecentFailedAttempts Auth.sample)
              (Auth.checkRateLimit Auth.sample) (Auth.findByEmail Auth.sample)
              (Auth.comparePassword Auth.sample)
              (Auth.updateLastLogin Auth.sample))
           "ann@example.com" "longenough" []).
  - discriminate.
  - vm_compute. reflexivity.
  - reflexivity.
  - reflexivity.
Defined.

(** ** Admins and their own account *)

Lemma is_requester_spec (userId : string) (requester : option string) :
  Admin.is_requester userId requester = true <-> requester = Some userId.
Proof.
  destruct requester as [id |]; cbn; [| split; discriminate].
  rewrite String.eqb_eq. split; [now intros -> | now intros [= ->]].
Qed.

Lemma In_snoc {A : Type} (x y : A) (l : list A) :
  In x (l ++ [y]) -> In x l \/ x = y.
Proof.
  intros H. apply in_app_or in H as [H | [H | []]]; [now left | now right].
Qed.

(** X22: an admin cannot delete the own account: the request is refused
    with 400 before any call.  Whenever an account is deleted, it is the
    one named in the request, it is not the requester's, and it was looked
    up and found first; a 200 reply means exactly these two calls. *)
Theorem X22_no_self_delete (db : Admin.Db) (userId : string)
    (requester : option string) (tr : list Admin.Call) :
  let '(reply, tr') := Admin.handleDeleteUser db userId requester tr in
  (requester = Some userId ->
   reply = Auth.failure 400 "You cannot delete your own account"
   /\ tr' = tr)
  /\ (forall x,
         In (Admin.DeleteUser x) tr' ->
         In (Admin.DeleteUser x) tr
         \/ (x = userId /\ requester <> Some userId
             /\ exists u, Admin.findById db userId = Return (Some u)))
  /\ (Auth.status reply = 200 ->
      tr' = (tr ++ [Admin.FindById userId; Admin.DeleteUser userId])%list).
Proof.
  unfold Admin.handleDeleteUser.
  destruct (Admin.is_requester userId requester) eqn:Hr.
  - split; [intros _; now split |].
    split; [intros x H; now left | discriminate].
  - assert (Hne : requester <> Some userId).
    { intros H. apply is_requester_spec in H. rewrite H in Hr. discriminate. }
    cbv zeta.
    destruct (Admin.findById db userId) as [[u |] | e] eqn:Hfind.
    + destruct (Admin.delete db userId) as [[] | e];
        (split; [intros H; contradiction |]);
        (split;
         [ intros x H; apply In_snoc in H as [H | [= ->]];
           [ apply In_snoc in H as [H | H]; [now left | discriminate H]
           | right; split; [reflexivity | split; [exact Hne | now exists u]] ]
         | ]).
      * intros _. now rewrite <- app_assoc.
      * discriminate.
    + split; [intros H; contradiction |].
      split; [| discriminate].
      intros x H. apply In_snoc in H as [H | H]; [now left | discriminate H].
    + split; [intros H; contradiction |].
      split; [| discriminate].
      intros x H. apply In_snoc in H as [H | H]; [now left | discriminate H].
Qed.

(** X23: an admin cannot deactivate the own account, but may activate it:
    a status is only ever written for the account named in the request,
    with the value asked for, after that account was found, and the value
    false never for the requester's own account.  A body without a
    boolean is refused with 400 before any call. *)
Theorem X23_no_self_deactivation (db : Admin.Db) (userId : string)
    (isActive : option bool) (requester : option string)
    (tr : list Admin.Call) :
  let '(reply, tr') :=
    Admin.handleUpdateUserStatus db userId isActive requester tr in
  (isActive = None -> Auth.status reply = 400 /\ tr' = tr)
  /\ (requester = Some userId -> isActive = Some false ->
      reply = Auth.failure 400 "You cannot deactivate your own account"
      /\ tr' = tr)
  /\ (forall x b,
         In (Admin.UpdateStatus x b) tr' ->
         In (Admin.UpdateStatus x b) tr
         \/ (x = userId /\ isActive = Some b
             /\ (b = false -> requester <> Some userId)
             /\ exists u, Admin.findById db userId = Return (Some u)))
  /\ (requester = Some userId -> isActive = Some true ->
      In (Admin.FindById userId) tr').
Proof.
  unfold Admin.handleUpdateUserStatus.
  destruct isActive as [b |].
  2:{ split; [now split |]. split; [discriminate |].
      split; [intros x b H; now left | discriminate]. }
  destruct (Admin.is_requester userId requester && negb b) eqn:Hguard.
  - apply andb_prop in Hguard as [Hr Hb]. apply negb_true_iff in Hb. subst b.
    split; [discriminate |]. split; [now split |].
    split; [intros x b H; now left | discriminate].
  - assert (Hself : b = false -> requester <> Some userId).
    { intros -> H. apply is_requester_spec in H. rewrite H in Hguard.
      discriminate. }
    cbv zeta.
    assert (Hnot : requester = Some userId -> Some b = Some false -> False).
    { intros Hreq [= ->]. now contradiction (Hself eq_refl). }
    destruct (Admin.findById db userId) as [[u |] | e] eqn:Hfind.
    + destruct (Admin.updateStatus db userId b) as [[] | e];
        (split; [discriminate |]);
        (split; [intros H1 H2; now contradiction (Hnot H1 H2) |]);
        (split;
         [ intros x b' H; apply In_snoc in H as [H | [= -> ->]];
           [ apply In_snoc in H as [H | H]; [now left | discriminate H]
           | right; split; [reflexivity |]; split; [reflexivity |];
             split; [exact Hself | now exists u] ]
         | intros _ _; apply in_or_app; left; apply in_or_app; right;
           now left ]).
    + split; [discriminate |].
      split; [intros H1 H2; now contradiction (Hnot H1 H2) |].
      split.
      * intros x b' H. apply In_snoc in H as [H | H];
          [now left | discriminate H].
      * intros _ _. apply in_or_app. right. now left.
    + split; [discriminate |].
      split; [intros H1 H2; now contradiction (Hnot H1 H2) |].
      split.
      * intros x b' H. apply In_snoc in H as [H | H];
          [now left | discriminate H].
      * intros _ _. apply in_or_app. right. now left.
Qed.

(** ** Generated passwords *)

Lemma get_member (s : string) (n : nat) (c : ascii) :
  String.get n s = Some c -> member s c = true.
Proof.
  unfold member. revert n. induction s as [| x s IH]; intros [| n] H;
    cbn in H; try discriminate H; cbn [Regex.test_class].
  - injection H as ->. now rewrite Ascii.eqb_refl.
  - rewrite (IH n H). apply orb_true_r.
Qed.

Lemma get_in_range (s : string) (n : nat) :
  (n < String.length s)%nat -> exists c, String.get n s = Some c.
Proof.
  revert n. induction s as [| x s IH]; intros [| n] H; cbn in *; try lia.
  - now exists x.
  - apply IH. lia.
Qed.

Lemma floor_of_scaled_draw (r : R) (n : Z) :
  (0 <= r < 1)%R -> 0 < n -> 0 <= Math_floor (r * IZR n) < n.
Proof.
  intros [H0 H1] Hn. unfold Math_floor.
  destruct (base_Int_part (r * IZR n)) as [Hle Hgt].
  assert (Hn' : (0 < IZR n)%R) by now apply IZR_lt.
  assert (Hx0 : (0 <= r * IZR n)%R) by (apply Rmult_le_pos; lra).
  assert (Hx1 : (r * IZR n < IZR n)%R).
  { rewrite <- (Rmult_1_l (IZR n)) at 2. now apply Rmult_lt_compat_r. }
  split.
  - assert (H : (-1 < IZR (Int_part (r * IZR n)))%R) by lra.
    apply lt_IZR in H. lia.
  - apply lt_IZR. lra.
Qed.

(** A draw in [0, 1) picks one character of the set. *)
Lemma drawn_character (r : R) :
  (0 <= r < 1)%R ->
  exists c,
    charAt charset (Math_floor (r * IZR (len charset))) = String c ""
    /\ member charset c = true.
Proof.
  intros Hr.
  assert (Hlen : 0 < len charset) by (vm_compute; reflexivity).
  pose proof (floor_of_scaled_draw r (len charset) Hr Hlen) as [Hlo Hhi].
  unfold charAt.
  set (i := Math_floor (r * IZR (len charset))) in *.
  destruct (Z.ltb_spec i 0); [lia |].
  destruct (get_in_range charset (Z.to_nat i)) as (c & Hc).
  { unfold len in Hhi. lia. }
  rewrite Hc. exists c. split; [reflexivity |]. now apply (get_member _ _ _ Hc).
Qed.

Lemma all_chars_snoc (cls : ascii -> bool) (s : string) (c : ascii) :
  Auth.all_chars cls s = true -> cls c = true ->
  Auth.all_chars cls (s ++ String c "") = true.
Proof.
  intros Hs Hc. induction s as [| x s IH]; cbn in *.
  - now rewrite Hc.
  - apply andb_prop in Hs as [Hx Hs]. now rewrite Hx, IH.
Qed.

Lemma generate_from_invariant (random : nat -> R) (steps draw : nat)
    (result : string) :
  (forall i, 0 <= random i < 1)%R ->
  Auth.all_chars (member charset) result = true ->
  String.length (generate_from random draw steps result)
  = (String.length result + steps)%nat
  /\ Auth.all_chars (member charset)
       (generate_from random draw steps result) = true.
Proof.
  intros Hr. revert draw result.
  induction steps as [| steps IH]; intros draw result Hall;
    cbn [generate_from].
  - split; [lia | exact Hall].
  - destruct (drawn_character (random draw) (Hr draw)) as (c & -> & Hc).
    destruct (IH (S draw) (result ++ String c "")
                (all_chars_snoc _ _ _ Hall Hc)) as [Hlen Hall'].
    split; [| exact Hall'].
    rewrite Hlen, length_append. cbn. lia.
Qed.

(** X24: whatever the draws, as long as each lies in [0, 1), the generated
    password has exactly 16 characters, all of them from the character
    set; so it is never on the denylist and always has the length check
    of the analysis (with doubles read as real numbers). *)
Theorem X24_generated_password (random : nat -> R) :
  (forall i, 0 <= random i < 1)%R ->
  String.length (generatePassword random) = 16%nat
  /\ Auth.all_chars (member charset) (generatePassword random) = true
  /\ includes COMMON_PASSWORDS (toLowerCase (generatePassword random))
     = false
  /\ hasLength (checks (analyzePassword (generatePassword random))) = true.
Proof.
  intros Hr.
  destruct (generate_from_invariant random 16 0 "" Hr eq_refl)
    as [Hlen Hall].
  change (String.length (generatePassword random) = 16%nat) in Hlen.
  change (Auth.all_chars (member charset) (generatePassword random) = true)
    in Hall.
  split; [exact Hlen |]. split; [exact Hall |].
  split.
  - apply not_true_is_false. intros Hc.
    destruct (denylist_entries _ (includes_In _ _ Hc)) as (_ & H).
    unfold len in H. rewrite toLowerCase_length, Hlen in H. lia.
  - destruct (generatePassword random) as [| c s] eqn:E;
      [discriminate Hlen |].
    open_analysis. unfold make_checks. cbn [hasLength].
    apply Z.geb_le. unfold len. rewrite Hlen. lia.
Qed.

Lemma X24_generated_password_witness :
  String.length (generatePassword (fun _ => 0%R)) = 16%nat
  /\ Auth.all_chars (member charset) (generatePassword (fun _ => 0%R)) = true
  /\ includes COMMON_PASSWORDS
       (toLowerCase (generatePassword (fun _ => 0%R))) = false
  /\ hasLength (checks (analyzePassword (generatePassword (fun _ => 0%R))))
     = true.
Proof.
  apply X24_generated_password. intros _. split; [apply Rle_refl | apply Rlt_0_1].
Defined.

(** ** Line ends of the response *)

Lemma split_nonempty (sep : ascii) (s : string) : split sep s <> [].
Proof.
  destruct s as [| c s]; cbn [split]; [discriminate |].
  destruct (Ascii.eqb c sep); [discriminate |].
  destruct (split sep s); discriminate.
Qed.

(** Appending a character that is not the separator extends the last
    part. *)
Lemma split_snoc (sep c : ascii) (s : string) :
  c <> sep ->
  exists parts last,
    split sep s = (parts ++ [last])%list
    /\ split sep (s ++ String c "")
       = (parts ++ [(last ++ String c "")%string])%list.
Proof.
  intros Hc. induction s as [| x s (parts & last & E1 & E2)].
  - exists [], "". cbn. destruct (Ascii.eqb_spec c sep); [contradiction |].
    now split.
  - cbn [append split]. rewrite E1, E2.
    destruct (Ascii.eqb x sep).
    + exists ("" :: parts), last. now split.
    + destruct parts as [| p parts]; cbn [app].
      * exists [], (String x last). now split.
      * exists (String x p :: parts), last. now split.
Qed.

Lemma trim_end_snoc (s : string) (c : ascii) :
  is_white_space c = true -> trim_end (s ++ String c "") = trim_end s.
Proof.
  intros Hc. induction s as [| x s IH]; cbn [append trim_end].
  - now rewrite Hc.
  - now rewrite IH.
Qed.

Lemma trim_start_snoc (s : string) (c : ascii) :
  is_white_space c = true ->
  trim_end (trim_start (s ++ String c "")) = trim_end (trim_start s).
Proof.
  intros Hc. induction s as [| x s IH]; cbn [append trim_start].
  - now rewrite Hc.
  - destruct (is_white_space x); [exact IH |].
    change (String x (s ++ String c "")) with (String x s ++ String c "").
    now apply trim_end_snoc.
Qed.

Lemma trim_snoc (s : string) (c : ascii) :
  is_white_space c = true -> trim (s ++ String c "") = trim s.
Proof. intros Hc. unfold trim. now apply trim_start_snoc. Qed.

(** A line with a colon and the same line followed by a carriage return
    are read alike. *)
Lemma line_with_CR (suffix line : string) :
  (2 <= List.length (split ":" line))%nat ->
  String.eqb (hash_part (line ++ String CR "")) suffix
  = String.eqb (hash_part line) suffix
  /\ match nth_error (split ":" (line ++ String CR "")) 1,
           nth_error (split ":" line) 1 with
     | Some c', Some c => parseInt (trim c') = parseInt (trim c)
     | _, _ => False
     end.
Proof.
  intros Hlen.
  destruct (split_snoc ":" CR line ltac:(discriminate))
    as (parts & last & E1 & E2).
  unfold hash_part. rewrite E1, E2. rewrite E1, length_app in Hlen.
  cbn in Hlen.
  destruct parts as [| p0 [| p1 parts]]; cbn in Hlen; try lia; cbn.
  - split; [reflexivity |]. now rewrite trim_snoc.
  - now split.
Qed.

(** X25: carriage returns before the line feeds do not change what the
    scan finds: on lines that each hold a colon, the scan of the lines
    with a carriage return appended to each gives the result of the scan
    of the lines themselves. *)
Theorem X25_carriage_returns_are_harmless (suffix : string)
    (lines : list string) :
  (forall l, In l lines -> (2 <= List.length (split ":" l))%nat) ->
  scan_lines suffix (map (fun l => l ++ String CR "") lines)
  = scan_lines suffix lines.
Proof.
  induction lines as [| l lines IH]; intros H; [reflexivity |].
  cbn [map scan_lines].
  destruct (line_with_CR suffix l (H l (or_introl eq_refl))) as [Hh Hc].
  fold (hash_part (l ++ String CR "")). fold (hash_part l). rewrite Hh.
  destruct (String.eqb (hash_part l) suffix).
  - destruct (nth_error (split ":" (l ++ String CR "")) 1) as [c' |];
      [| contradiction].
    destruct (nth_error (split ":" l) 1) as [c |]; [| contradiction].
    now rewrite Hc.
  - apply IH. intros l' Hin. apply H. now right.
Qed.

Lemma X25_carriage_returns_are_harmless_witness :
  scan_lines "BBB" (map (fun l => l ++ String CR "") ["AAA:1"; "BBB:22"])
  = scan_lines "BBB" ["AAA:1"; "BBB:22"].
Proof.
  apply X25_carriage_returns_are_harmless.
  intros l [<- | [<- | []]]; vm_compute; lia.
Defined.
